(** * robuku: the bukudb bookmark store and its rofi front end

    A shallow embedding of [bukudb/bukudb.go] (package [bukudb] of
    VannRR/robuku) and the properties of its store operations, followed by
    the packages that use the store: [rofidata] (the state handed from one
    run of the rofi script to the next) and [inputhandler] (the handlers
    of the selected entry, in the version that works on [rofidata.Data]).

    - Go's [string] is a byte sequence: [String.string].
    - [uint16] and [int] values are [Z]; every conversion to [uint16] is
      written out as [uint16 z = z mod 2^16].  The [int] arithmetic of the
      package (at most [MaxBookmarks + NumCPU]) never leaves 64 bits.
    - The SQLite table [bookmarks] is a finite map from the integer primary
      key to the remaining columns; statements either change the map or
      fail on a constraint of the schema.  Failures of the storage medium
      itself (I/O errors) are outside the model.
    - Methods mutate the receiver and return an [error]: they are
      functions from a store to the store they leave behind together with
      the returned error ([None] is Go's [nil]).
    - The mutex [mu] serialises the methods; the model is sequential.  The
      goroutines of [loadBookmarks] are modelled by the order in which
      their writes reach the shared map, and the iteration over that map by
      the order in which its entries are visited; both orders are
      parameters.
    - A handler mutates [in.api] and the store: it is a function from an
      [InputHandler] to the one it leaves behind; [option] marks the
      handlers that can stop in a run-time panic.  What the handlers take
      from outside the repository is a parameter: [strings.TrimSpace], the
      text [err.Error()] of an error, and the outcome of starting the
      browser.  Writing an error to the log is not modelled. *)

From Stdlib Require Import ZArith Lia String Ascii List Permutation Sorting.Sorted.
From stdpp Require Import base tactics option list list_numbers sorting gmap fin_maps.

Local Open Scope Z_scope.
Local Open Scope string_scope.

(** ** Go standard library functions used by the package *)

(** The slice expressions [s[:j]] and [s[i:]] on a string, for indices
    within the string (Go panics on the others). *)
Definition slice_to (s : string) (j : nat) : string := substring 0 j s.

Definition slice_from (s : string) (i : nat) : string :=
  substring i (String.length s - i) s.

(** A byte as the number Go compares it with. *)
Definition byte (c : ascii) : Z := Z.of_nat (nat_of_ascii c).

(** The bytes the Go sources write as escapes. *)
Definition LF : ascii := ascii_of_nat 10.      (* '\n' *)
Definition CR : ascii := ascii_of_nat 13.      (* '\r' *)
Definition DQUOTE : ascii := ascii_of_nat 34.  (* '\x22' *)

Module strings.

(** [strings.Join(elems, sep)]. *)
Fixpoint Join (elems : list string) (sep : string) : string :=
  match elems with
  | [] => ""
  | [x] => x
  | x :: rest => x ++ sep ++ Join rest sep
  end.

(** [strings.Split(s, sep)] for a one-byte separator, the only use the
    package makes of it ([sep = ","]).  [Split("", ",")] is [[""]]. *)
Fixpoint Split (s : string) (sep : ascii) : list string :=
  match s with
  | EmptyString => [""]
  | String c s' =>
      if Ascii.eqb c sep then "" :: Split s' sep
      else match Split s' sep with
           | x :: xs => String c x :: xs
           | [] => [String c ""]
           end
  end.

(** [strings.ToLower] on ASCII: the bytes 'A'..'Z' are mapped to 'a'..'z'.
    Bytes outside ASCII are left as they are (Go lower-cases per Unicode
    code point).  The general theorems below use of the comparison through
    [ToLower] only that it is asymmetric; the evaluated examples are
    ASCII. *)
Definition lower_byte (c : ascii) : ascii :=
  let n := nat_of_ascii c in
  if ((65 <=? n) && (n <=? 90))%nat then ascii_of_nat (n + 32) else c.

Fixpoint ToLower (s : string) : string :=
  match s with
  | EmptyString => EmptyString
  | String c s' => String (lower_byte c) (ToLower s')
  end.

(** [strings.HasPrefix(s, prefix)]. *)
Fixpoint HasPrefix (s prefix : string) {struct prefix} : bool :=
  match prefix, s with
  | EmptyString, _ => true
  | String p prefix', String c s' => Ascii.eqb c p && HasPrefix s' prefix'
  | String _ _, EmptyString => false
  end.

(** [strings.Index(s, substr)]: the offset of the first occurrence of
    [substr] in [s]; [None] is Go's [-1]. *)
Fixpoint Index (s substr : string) : option nat :=
  if HasPrefix s substr then Some O
  else match s with
       | EmptyString => None
       | String _ s' => S <$> Index s' substr
       end.

(** The loop of [genSplit]: [s] is cut at the first occurrence of [sep],
    at most [k] times; the rest is the last piece. *)
Fixpoint genSplit (k : nat) (s sep : string) : list string :=
  match k with
  | O => [s]
  | S k' =>
      match Index s sep with
      | None => [s]
      | Some m =>
          slice_to s m :: genSplit k' (slice_from s (m + String.length sep)) sep
      end
  end.

(** [strings.SplitN(s, sep, n)] for a non-empty [sep] and [n >= 0]: at most
    [n] pieces ([n] is first capped at [len(s) + 1]); [nil] for [n = 0]. *)
Definition SplitN (s sep : string) (n : nat) : list string :=
  match Nat.min n (String.length s + 1) with
  | O => []
  | S k => genSplit k s sep
  end.

(** [strings.ReplaceAll(s, old, new)] for a one-byte [old]. *)
Fixpoint ReplaceAll (s : string) (old : ascii) (new : string) : string :=
  match s with
  | EmptyString => EmptyString
  | String c s' =>
      (if Ascii.eqb c old then new else String c "") ++ ReplaceAll s' old new
  end.

(** [strings.NewReplacer(oldnew...).Replace(s)] where every old string is
    one byte: each byte of [s] that is an old string is replaced by the new
    string of its pair (the first pair, were a byte listed twice), in one
    pass over [s]. *)
Fixpoint replacement (oldnew : list (ascii * string)) (c : ascii) : string :=
  match oldnew with
  | [] => String c ""
  | (old, new) :: rest => if Ascii.eqb c old then new else replacement rest c
  end.

Fixpoint Replace (oldnew : list (ascii * string)) (s : string) : string :=
  match s with
  | EmptyString => EmptyString
  | String c s' => replacement oldnew c ++ Replace oldnew s'
  end.

End strings.

Module slices.

(** [slices.Contains(s, v)] on a slice of strings. *)
Fixpoint Contains (s : list string) (v : string) : bool :=
  match s with
  | [] => false
  | x :: rest => if String.eqb x v then true else Contains rest v
  end.

End slices.

Module sort.

(** [sort.Slice(x, less)]: the insertion sort Go runs on slices of at most
    12 elements.  Element [i] is moved left while it is [less] than its
    left neighbour.  The sorted prefix is kept reversed ([rp], last
    element first).  On longer slices Go runs a quicksort, which may order
    elements that compare equal differently; it returns the same slice
    where no two elements compare equal (the ids in [loadBookmarks]), and
    like the insertion sort it leaves a slice that is in order as it is. *)
Section Slice.
Context {A : Type} (less : A → A → bool).

Fixpoint insert_left (x : A) (rp : list A) : list A :=
  match rp with
  | [] => [x]
  | y :: rp' => if less x y then y :: insert_left x rp' else x :: rp
  end.

Fixpoint Slice_from (rp : list A) (l : list A) : list A :=
  match l with
  | [] => rev rp
  | x :: l' => Slice_from (insert_left x rp) l'
  end.

Definition Slice (l : list A) : list A := Slice_from [] l.
End Slice.

End sort.

Module strconv.

Inductive NumError :=
  | ErrSyntax   (* invalid syntax *)
  | ErrRange.   (* value out of range *)

Definition maxUint64 : Z := 2 ^ 64 - 1.

(** The value of a decimal digit; [None] for every other byte. *)
Definition digit (c : ascii) : option Z :=
  if ((48 <=? byte c) && (byte c <=? 57))%Z then Some (byte c - 48) else None.

(** The loop of [ParseUint] for base 10, on [uint64] values:
    [n] is the value of the digits read so far. *)
Fixpoint parse_loop (maxVal n : Z) (s : string) : NumError + Z :=
  match s with
  | EmptyString => inr n
  | String c s' =>
      match digit c with
      | None => inl ErrSyntax
      | Some d =>
          if (maxUint64 `div` 10 + 1 <=? n)%Z then inl ErrRange
          else
            let n := n * 10 in
            let n1 := (n + d) `mod` 2 ^ 64 in
            if ((n1 <? n) || (maxVal <? n1))%Z then inl ErrRange
            else parse_loop maxVal n1 s'
      end
  end.

(** [strconv.ParseUint(s, 10, bitSize)] for [1 <= bitSize <= 64].  (With
    a range error Go also returns the largest value; the callers look at
    the error only.) *)
Definition ParseUint (s : string) (bitSize : Z) : NumError + Z :=
  if String.eqb s "" then inl ErrSyntax
  else parse_loop (2 ^ bitSize - 1) 0 s.

End strconv.

Module fmt.

(** The byte ['0' + d]. *)
Definition digit_byte (d : Z) : ascii := ascii_of_nat (Z.to_nat (48 + d)).

(** The decimal digits of an unsigned integer as [fmtInteger] writes them,
    from the last one backwards in front of [buf]:
    [for u >= 10 { next := u / 10; buf[i] = '0' + u - next*10; u = next }]
    and then the leading digit.  [fuel] bounds the number of digits. *)
Fixpoint fmtInteger (fuel : nat) (u : Z) (buf : string) : string :=
  match fuel with
  | O => buf
  | S fuel' =>
      if (10 <=? u)%Z then
        let next := u `div` 10 in
        fmtInteger fuel' next (String (digit_byte (u - next * 10)) buf)
      else String (digit_byte u) buf
  end.

(** [fmt.Sprint(u)] and [fmt.Sprintf("%d", u)] for an unsigned integer of
    at most 64 bits (at most 20 digits). *)
Definition Sprint (u : Z) : string := fmtInteger 20 u "".

End fmt.

(** ** The storage engine *)

Module sql.

(** A row of
    [bookmarks (id INTEGER PRIMARY KEY, URL TEXT NOT NULL UNIQUE,
                metadata TEXT DEFAULT '', tags TEXT DEFAULT ',',
                desc TEXT DEFAULT '', flags INTEGER DEFAULT 0)]
    without its key. *)
Record Row := mkRow {
  URL : string;
  metadata : string;
  tags : string;
  desc : string;
  flags : Z
}.

(** The columns [updateField] is called with. *)
Inductive column := ColURL | ColMetadata | ColTags | ColDesc.

Inductive failure :=
  | PrimaryKeyConstraint   (* UNIQUE constraint failed: bookmarks.id *)
  | UniqueConstraint       (* UNIQUE constraint failed: bookmarks.URL *)
  | ErrNoRows              (* sql: no rows in result set *)
  | ConversionError.       (* value out of range of the Scan destination *)

Abbreviation table := (gmap Z Row).

(** Does a row other than [self] hold [url]? *)
Definition url_taken (t : table) (self : option Z) (url : string) : bool :=
  existsb (λ kr : Z * Row,
             negb (bool_decide (self = Some kr.1)) && String.eqb (URL kr.2) url)
          (map_to_list t).

(** [INSERT INTO bookmarks (id, URL, metadata, tags, desc, flags) VALUES (...)] *)
Definition insert (t : table) (id : Z) (r : Row) : failure + table :=
  match t !! id with
  | Some _ => inl PrimaryKeyConstraint
  | None => if url_taken t None (URL r) then inl UniqueConstraint
            else inr (<[id := r]> t)
  end.

(** [DELETE FROM bookmarks WHERE id = ?].  The statement is taken to
    execute: no constraint of the schema can stop it, and a failure of the
    storage itself is outside the model. *)
Definition delete_id (t : table) (id : Z) : failure + table :=
  inr (delete id t).

(** [UPDATE bookmarks SET id = ? WHERE id = ?].  It fails on the primary
    key when the new id is taken; a failure of the storage itself is
    outside the model.  The properties that speak of calls returning
    errors name the errors they cover. *)
Definition update_id (t : table) (new old : Z) : failure + table :=
  match t !! old with
  | None => inr t
  | Some r =>
      if bool_decide (new = old) then inr t
      else match t !! new with
           | Some _ => inl PrimaryKeyConstraint
           | None => inr (<[new := r]> (delete old t))
           end
  end.

Definition set_column (c : column) (v : string) (r : Row) : Row :=
  match c with
  | ColURL => mkRow v (metadata r) (tags r) (desc r) (flags r)
  | ColMetadata => mkRow (URL r) v (tags r) (desc r) (flags r)
  | ColTags => mkRow (URL r) (metadata r) v (desc r) (flags r)
  | ColDesc => mkRow (URL r) (metadata r) (tags r) v (flags r)
  end.

(** [UPDATE bookmarks SET <column> = ? WHERE id = ?] *)
Definition update_column (t : table) (c : column) (v : string) (id : Z)
  : failure + table :=
  match t !! id with
  | None => inr t
  | Some r =>
      match c with
      | ColURL => if url_taken t (Some id) v then inl UniqueConstraint
                  else inr (<[id := set_column c v r]> t)
      | _ => inr (<[id := set_column c v r]> t)
      end
  end.

(** [SELECT MAX(id) FROM bookmarks]: NULL ([None]) on an empty table. *)
Definition select_max_id (t : table) : option Z :=
  match (map_to_list t).*1 with
  | [] => None
  | k :: ks => Some (foldr Z.max k ks)
  end.

(** [SELECT ... FROM bookmarks WHERE id BETWEEN ? AND ?], in key order. *)
Definition select_between (t : table) (lo hi : Z) : list (Z * Row) :=
  omap (λ i, (λ r, (i, r)) <$> t !! i) (seqZ lo (hi - lo + 1)).

(** [Scan] of an integer column into a [uint16] destination. *)
Definition scan_uint16 (v : Z) : failure + Z :=
  if bool_decide (0 ≤ v < 65536) then inr v else inl ConversionError.

End sql.

(** ** Package bukudb *)

Module bukudb.

Definition MaxBookmarks : Z := 1000.

(** Conversion of an integer to [uint16]. *)
Definition uint16 (z : Z) : Z := z `mod` 65536.

Record Bookmark := mkBookmark {
  ID : Z;            (* uint16 *)
  URL : string;
  Title : string;
  Tags : list string;
  Comment : string
}.

(** [BukuDB]: the connection stands for the table behind it. *)
Record BukuDB := mkBukuDB {
  conn : gmap Z sql.Row;
  len : Z
}.

(** The errors the package builds with [fmt.Errorf]. *)
Inductive error :=
  | ErrBookmarkIdOutOfRange (id len : Z) (* bookmark id %d out of range (1-%d) *)
  | ErrIdOutOfRange (id len : Z)         (* id %d out of range (1-%d) *)
  | ErrMaxReached                        (* maximum number of bookmarks (%d) reached *)
  | ErrScan (cause : sql.failure)        (* failed to scan bookmark: %w *)
  | ErrInsert (cause : sql.failure)      (* failed to insert bookmark: %w *)
  | ErrDelete (cause : sql.failure)      (* failed to delete bookmark: %w *)
  | ErrUpdateId (cause : sql.failure)    (* failed to update bookmark id: %w *)
  | ErrUpdateField (c : sql.column) (cause : sql.failure)
                                         (* failed to update field %s: %w *)
  | ErrProcessRange (cause : error)      (* error processing bookmarks range: %w *)
  | ErrMaxId (cause : sql.failure)       (* failed to get max ID from bookmarks: %w *)
  | ErrLength (cause : error).           (* failed to get database length: %w *)

Definition is_out_of_range (e : error) : bool :=
  match e with
  | ErrBookmarkIdOutOfRange _ _ | ErrIdOutOfRange _ _ => true
  | _ => false
  end.

(** [filter(slice, predicate)] *)
Fixpoint filter (slice : list string) (predicate : string → bool) : list string :=
  match slice with
  | [] => []
  | v :: rest => if predicate v then v :: filter rest predicate
                 else filter rest predicate
  end.

(** [getMaxBookmarkID]: [Scan] into an [int] fails on NULL. *)
Definition getMaxBookmarkID (t : gmap Z sql.Row) : error + Z :=
  match sql.select_max_id t with
  | None => inl (ErrMaxId sql.ConversionError)
  | Some maxID => inr (if bool_decide (maxID > MaxBookmarks) then MaxBookmarks
                       else maxID)
  end.

(** [NewBukuDB], on the table behind [dbPath]. *)
Definition NewBukuDB (t : gmap Z sql.Row) : error + BukuDB :=
  match getMaxBookmarkID t with
  | inl err => inl (ErrLength err)
  | inr l => inr (mkBukuDB t l)
  end.

(** [Len] *)
Definition Len (db : BukuDB) : Z := len db.

(** The tag decoding of [Get]. *)
Definition get_tags (tagsString : string) : list string :=
  if String.eqb tagsString "," then []
  else filter (strings.Split tagsString ",") (λ t, negb (String.eqb t "")).

(** [Get] *)
Definition Get (db : BukuDB) (id : Z) : error + Bookmark :=
  if bool_decide (id < 1) || bool_decide (id > len db) then
    inl (ErrBookmarkIdOutOfRange id (len db))
  else
    match conn db !! id with
    | None => inl (ErrScan sql.ErrNoRows)
    | Some r =>
        match sql.scan_uint16 id with
        | inl e => inl (ErrScan e)
        | inr bid =>
            inr (mkBookmark bid (sql.URL r) (sql.metadata r)
                            (get_tags (sql.tags r)) (sql.desc r))
        end
    end.

(** [Add] *)
Definition Add (db : BukuDB) (bookmark : Bookmark) : BukuDB * option error :=
  let bookmarkID := uint16 (len db + 1) in
  if bool_decide (bookmarkID > uint16 MaxBookmarks) then (db, Some ErrMaxReached)
  else
    match sql.insert (conn db) bookmarkID
            (sql.mkRow (URL bookmark) (Title bookmark)
                       (strings.Join (Tags bookmark) ",") (Comment bookmark) 0) with
    | inl e => (db, Some (ErrInsert e))
    | inr t => (mkBukuDB t bookmarkID, None)
    end.

(** [updateField] *)
Definition updateField (db : BukuDB) (id : Z) (field : sql.column) (value : string)
  : BukuDB * option error :=
  if bool_decide (id < 1) || bool_decide (id > len db) then
    (db, Some (ErrIdOutOfRange id (len db)))
  else
    match sql.update_column (conn db) field value id with
    | inl e => (db, Some (ErrUpdateField field e))
    | inr t => (mkBukuDB t (len db), None)
    end.

Definition UpdateTitle (db : BukuDB) (id : Z) (title : string) :=
  updateField db id sql.ColMetadata title.

Definition UpdateURL (db : BukuDB) (id : Z) (url : string) :=
  updateField db id sql.ColURL url.

Definition UpdateComment (db : BukuDB) (id : Z) (comment : string) :=
  updateField db id sql.ColDesc comment.

(** The comparison [AddTags] sorts with. *)
Definition less_tag (x y : string) : bool :=
  String.ltb (strings.ToLower x) (strings.ToLower y).

(** [AddTags] *)
Definition AddTags (db : BukuDB) (id : Z) (tags : list string)
  : BukuDB * option error :=
  match Get db id with
  | inl err => (db, Some err)
  | inr b =>
      let tags := filter tags (λ t, negb (slices.Contains (Tags b) t)) in
      let bTags := sort.Slice less_tag (Tags b ++ tags) in
      let tagsStr := "," ++ strings.Join bTags "," ++ "," in
      updateField db id sql.ColTags tagsStr
  end.

(** [RemoveTags] *)
Definition RemoveTags (db : BukuDB) (id : Z) (tags : list string)
  : BukuDB * option error :=
  match Get db id with
  | inl err => (db, Some err)
  | inr b =>
      let bTags := filter (Tags b) (λ t, negb (slices.Contains tags t)) in
      let tagsStr := "," ++ strings.Join bTags "," ++ "," in
      updateField db id sql.ColTags tagsStr
  end.

(** [ClearTags] *)
Definition ClearTags (db : BukuDB) (id : Z) : BukuDB * option error :=
  updateField db id sql.ColTags ",".

(** The renumbering loop of [Remove],
    [for i := index + 1; i < db.len; i++ { UPDATE ... SET id = i WHERE id = i+1 }],
    with [n] the number of iterations left.  A failed statement leaves the
    table as the statements before it made it. *)
Fixpoint renumber (n : nat) (i : Z) (t : gmap Z sql.Row)
  : gmap Z sql.Row * option sql.failure :=
  match n with
  | O => (t, None)
  | S n' =>
      match sql.update_id t i (i + 1) with
      | inl e => (t, Some e)
      | inr t' => renumber n' (i + 1) t'
      end
  end.

(** [Remove] *)
Definition Remove (db : BukuDB) (id : Z) : BukuDB * option error :=
  let index := uint16 (id - 1) in
  if bool_decide (id < 1) || bool_decide (index >= len db) then
    (db, Some (ErrIdOutOfRange id (len db)))
  else
    match sql.delete_id (conn db) id with
    | inl e => (db, Some (ErrDelete e))
    | inr t =>
        match renumber (Z.to_nat (len db - (index + 1))) (index + 1) t with
        | (t', Some e) => (mkBukuDB t' (len db), Some (ErrUpdateId e))
        | (t', None) => (mkBukuDB t' (len db - 1), None)
        end
    end.

(** The tag decoding of [processBookmarkRange]:
    [tagsString[1 : len(tagsString)-1]] split on the delimiter. *)
Definition range_tags (tagsString : string) : list string :=
  if (2 <=? String.length tagsString)%nat then
    strings.Split (substring 1 (String.length tagsString - 2) tagsString) ","
  else [].

Definition scan_range_row (kr : Z * sql.Row) : error + Bookmark :=
  match sql.scan_uint16 kr.1 with
  | inl e => inl (ErrScan e)
  | inr bid =>
      inr (mkBookmark bid (sql.URL kr.2) (sql.metadata kr.2)
                      (range_tags (sql.tags kr.2)) (sql.desc kr.2))
  end.

(** [processBookmarkRange]: the bookmarks a worker writes to the shared
    map, in the order it writes them, or the error it returns. *)
Fixpoint scan_rows (rows : list (Z * sql.Row)) : error + list Bookmark :=
  match rows with
  | [] => inr []
  | kr :: rest =>
      match scan_range_row kr with
      | inl e => inl e
      | inr b => match scan_rows rest with
                 | inl e => inl e
                 | inr bs => inr (b :: bs)
                 end
      end
  end.

Definition processBookmarkRange (t : gmap Z sql.Row) (start end_ : Z)
  : error + list Bookmark :=
  scan_rows (sql.select_between t start end_).

(** The id range of worker [i] in [loadBookmarks]. *)
Definition worker_range (maxID entriesPerWorker i : Z) : Z * Z :=
  let start := i * entriesPerWorker + 1 in
  let end_ := (i + 1) * entriesPerWorker in
  (start, if bool_decide (end_ > maxID) then maxID else end_).

Fixpoint run_workers (t : gmap Z sql.Row) (ranges : list (Z * Z))
  : error + list (list Bookmark) :=
  match ranges with
  | [] => inr []
  | (start, end_) :: rest =>
      match processBookmarkRange t start end_ with
      | inl e => inl (ErrProcessRange e)
      | inr bs => match run_workers t rest with
                  | inl e => inl e
                  | inr outs => inr (bs :: outs)
                  end
      end
  end.

(** What the Go runtime decides during [loadBookmarks]. *)
Record Runtime := mkRuntime {
  (* runtime.NumCPU() *)
  NumCPU : Z;
  (* the order in which the writes of the goroutines reach bookmarksMap:
     the scheduler turns the write sequences of the workers into one *)
  schedule : list (list Bookmark) → list Bookmark;
  (* the order in which range walks the map *)
  range_order : gmap Z Bookmark → list Bookmark
}.

(** [loadBookmarks] *)
Definition loadBookmarks (rt : Runtime) (t : gmap Z sql.Row) (maxID : Z)
  : error + list Bookmark :=
  let numWorkers := NumCPU rt in
  let entriesPerWorker := (maxID + numWorkers - 1) ÷ numWorkers in
  match run_workers t (worker_range maxID entriesPerWorker <$> seqZ 0 numWorkers) with
  | inl e => inl e
  | inr outs =>
      let bookmarksMap : gmap Z Bookmark :=
        foldl (λ m b, <[ID b := b]> m) ∅ (schedule rt outs) in
      inr (sort.Slice (λ a b, (ID a <? ID b)%Z) (range_order rt bookmarksMap))
  end.

(** [GetAll] *)
Definition GetAll (rt : Runtime) (db : BukuDB) : error + list Bookmark :=
  loadBookmarks rt (conn db) (len db).

End bukudb.

(** ** Package rofidata *)

Module rofidata.

(** [AppState], a byte. *)
Definition St_null : Z := 0.
Definition St_bookmarks_show : Z := 1.
Definition St_bookmarks_select : Z := 2.
Definition St_add_show : Z := 3.
Definition St_add_select : Z := 4.
Definition St_add_title_show : Z := 5.
Definition St_add_title_select : Z := 6.
Definition St_add_url_show : Z := 7.
Definition St_add_url_select : Z := 8.
Definition St_add_comment_show : Z := 9.
Definition St_add_comment_select : Z := 10.
Definition St_add_tags_show : Z := 11.
Definition St_add_tags_select : Z := 12.
Definition St_goto_exec : Z := 13.
Definition St_modify_show : Z := 14.
Definition St_modify_select : Z := 15.
Definition St_modify_title_show : Z := 16.
Definition St_modify_title_select : Z := 17.
Definition St_modify_url_show : Z := 18.
Definition St_modify_url_select : Z := 19.
Definition St_modify_comment_show : Z := 20.
Definition St_modify_comment_select : Z := 21.
Definition St_modify_tags_show : Z := 22.
Definition St_modify_tags_select : Z := 23.
Definition St_delete_confirm_show : Z := 24.
Definition St_delete_confirm_select : Z := 25.

(** [delim = "\u2028"]: the three bytes E2 80 A8 of U+2028 in UTF-8. *)
Definition delim : string :=
  String (ascii_of_nat 226) (String (ascii_of_nat 128) (String (ascii_of_nat 168) "")).

Definition tagDelim : ascii := ",".

Record Data := mkData {
  Bookmark : bukudb.Bookmark;
  State : Z            (* AppState *)
}.

Inductive error :=
  | ErrParseID (cause : strconv.NumError)      (* failed to parse ID: %w *)
  | ErrParseState (cause : strconv.NumError).  (* failed to parse State: %w *)

(** [Bytes] *)
Definition Bytes (d : Data) : string :=
  fmt.Sprint (bukudb.ID (Bookmark d)) ++ delim
  ++ bukudb.URL (Bookmark d) ++ delim
  ++ bukudb.Title (Bookmark d) ++ delim
  ++ strings.Join (bukudb.Tags (Bookmark d)) "," ++ delim
  ++ bukudb.Comment (Bookmark d) ++ delim
  ++ fmt.Sprint (State d).

(** [ParseBytes]: the receiver as the call leaves it, and the returned
    error.  [None] is the run-time panic of an index expression [vals[i]]
    out of range.  The fields are assigned one after the other, so a
    failure to parse the state leaves the bookmark overwritten. *)
Definition ParseBytes (d : Data) (b : string) : option (Data * option error) :=
  let vals := strings.SplitN b delim 6 in
  v0 ← vals !! 0%nat;
  match strconv.ParseUint v0 16 with
  | inl err => Some (d, Some (ErrParseID err))
  | inr id =>
      v1 ← vals !! 1%nat;
      v2 ← vals !! 2%nat;
      v3 ← vals !! 3%nat;
      v4 ← vals !! 4%nat;
      let bookmark :=
        bukudb.mkBookmark (bukudb.uint16 id) v1 v2 (strings.Split v3 tagDelim) v4 in
      v5 ← vals !! 5%nat;
      match strconv.ParseUint v5 8 with
      | inl err => Some (mkData bookmark (State d), Some (ErrParseState err))
      | inr st => Some (mkData bookmark (st `mod` 256), None)
      end
  end.

End rofidata.

(** ** Package rofi *)

Module rofi.

(** What the handlers use of package [rofi]: the options they set, the
    state rofi reports, the entries, and the fields of [RofiApi]. *)
Inductive Option := OptionMessage | OptionNoCustom | OptionUseHotKeys.

Inductive State :=
  | StateSelected
  | StateCustomKeybinding1
  | StateCustomKeybinding2
  | StateCustomKeybinding3
  | StateOther.

Record Entry := mkEntry {
  Text : string;
  Meta : string
}.

Definition Option_eqb (a b : Option) : bool :=
  match a, b with
  | OptionMessage, OptionMessage
  | OptionNoCustom, OptionNoCustom
  | OptionUseHotKeys, OptionUseHotKeys => true
  | _, _ => false
  end.

Record RofiApi := mkRofiApi {
  Options : Option → option string;   (* map[Option]string *)
  Entries : list Entry;
  Data : rofidata.Data;
  GetState : State
}.

End rofi.

(** ** Package inputhandler *)

Module inputhandler.

Definition entryMaxLen : Z := 100.

Definition op_add : string := "--> Add".
Definition op_back : string := "<-- Back".
Definition op_confirm : string := "--> Confirm".
Definition op_go_to_url : string := "--> Go to URL".
Definition op_modify : string := "--> Modify".
Definition op_delete : string := "--> Delete".

(** The errors the handlers show.  An error of the store is shown as it
    is or wrapped by [fmt.Errorf]. *)
Inductive error :=
  | ErrStore (e : bukudb.error)
  | ErrNoURL                               (* error: bookmark has no url *)
  | ErrUpdatingTitle (e : bukudb.error)    (* error updating title: %w *)
  | ErrUpdatingURL (e : bukudb.error)      (* error updating url: %w *)
  | ErrUpdatingComment (e : bukudb.error)  (* error updating comment: %w *)
  | ErrClearingTags (e : bukudb.error)     (* error clearing tags: %w *)
  | ErrAddingTag (e : bukudb.error)        (* error adding tag: %w *)
  | ErrRemovingTag (e : bukudb.error)      (* error removing tag: %w *)
  | ErrDeleting (e : bukudb.error)         (* error deleting bookmark: %w *)
  | ErrOpeningURL (cause : string)         (* error opening URL: %w *)
  | ErrNoXdgOpen                           (* error opening URL: xdg-utils is not installed, ... *)
  | ErrParsingId (input : string).         (* error parsing id from entry: %s *)

(** [InputHandler]; the interface [db] is the store of package [bukudb]. *)
Record InputHandler := mkInputHandler {
  db : bukudb.BukuDB;
  api : rofi.RofiApi;
  browser : string
}.

(** *** Assignments to the fields of [in.api] and to [in.db] *)

Definition set_option (h : InputHandler) (o : rofi.Option) (v : string)
  : InputHandler :=
  mkInputHandler (db h)
    (rofi.mkRofiApi
       (λ o', if rofi.Option_eqb o' o then Some v else rofi.Options (api h) o')
       (rofi.Entries (api h)) (rofi.Data (api h)) (rofi.GetState (api h)))
    (browser h).

Definition set_entries (h : InputHandler) (entries : list rofi.Entry)
  : InputHandler :=
  mkInputHandler (db h)
    (rofi.mkRofiApi (rofi.Options (api h)) entries (rofi.Data (api h))
                    (rofi.GetState (api h)))
    (browser h).

Definition set_data (h : InputHandler) (d : rofidata.Data) : InputHandler :=
  mkInputHandler (db h)
    (rofi.mkRofiApi (rofi.Options (api h)) (rofi.Entries (api h)) d
                    (rofi.GetState (api h)))
    (browser h).

Definition set_state (h : InputHandler) (st : Z) : InputHandler :=
  set_data h (rofidata.mkData (rofidata.Bookmark (rofi.Data (api h))) st).

Definition set_bookmark (h : InputHandler) (b : bukudb.Bookmark) : InputHandler :=
  set_data h (rofidata.mkData b (rofidata.State (rofi.Data (api h)))).

Definition set_db (h : InputHandler) (d : bukudb.BukuDB) : InputHandler :=
  mkInputHandler d (api h) (browser h).

(** [in.api.Data.Bookmark] *)
Definition bookmark (h : InputHandler) : bukudb.Bookmark :=
  rofidata.Bookmark (rofi.Data (api h)).

Definition set_title (h : InputHandler) (v : string) : InputHandler :=
  let b := bookmark h in
  set_bookmark h (bukudb.mkBookmark (bukudb.ID b) (bukudb.URL b) v (bukudb.Tags b)
                                    (bukudb.Comment b)).

Definition set_url (h : InputHandler) (v : string) : InputHandler :=
  let b := bookmark h in
  set_bookmark h (bukudb.mkBookmark (bukudb.ID b) v (bukudb.Title b) (bukudb.Tags b)
                                    (bukudb.Comment b)).

Definition set_comment (h : InputHandler) (v : string) : InputHandler :=
  let b := bookmark h in
  set_bookmark h (bukudb.mkBookmark (bukudb.ID b) (bukudb.URL b) (bukudb.Title b)
                                    (bukudb.Tags b) v).

Definition set_tags (h : InputHandler) (v : list string) : InputHandler :=
  let b := bookmark h in
  set_bookmark h (bukudb.mkBookmark (bukudb.ID b) (bukudb.URL b) (bukudb.Title b) v
                                    (bukudb.Comment b)).

(** An entry with a text only. *)
Definition text_entry (text : string) : rofi.Entry := rofi.mkEntry text "".

(** *** The functions on strings *)

(** [truncate] *)
Definition truncate (s : string) (l : Z) : string :=
  if bool_decide (Z.of_nat (String.length s) > l) && bool_decide (l >= 3) then
    slice_to s (Z.to_nat (l - 3)) ++ "..."
  else s.

(** [replaceNewlines] *)
Definition replaceNewlines (s : string) : string := strings.ReplaceAll s LF " ".

(** [formatEntryText] *)
Definition formatEntryText (e : string) : string :=
  let e := truncate e entryMaxLen in
  replaceNewlines e.

(** [escapePangoMarkup] *)
Definition escapePangoMarkup (input : string) : string :=
  strings.Replace
    [("&"%char, "&amp;"); ("<"%char, "&lt;"); (">"%char, "&gt;");
     ("'"%char, "&#39;"); (DQUOTE, "&quot;"); (LF, String CR "")]
    input.

(** [<span font_weight="bold">] *)
Definition span_bold : string :=
  "<span font_weight=" ++ String DQUOTE ("bold" ++ String DQUOTE ">").

(** [generatePangoMarkup] *)
Definition generatePangoMarkup (instructions example currentValue : string) : string :=
  let markup := "<markup>" in
  let markup :=
    if negb (String.eqb instructions "") then
      markup ++ span_bold ++ escapePangoMarkup instructions ++ "</span>" ++ String CR ""
    else markup in
  let markup :=
    if negb (String.eqb example "") then
      markup ++ span_bold ++ "example:</span><span> <i>" ++ escapePangoMarkup example
             ++ "</i></span>" ++ String CR ""
    else markup in
  let markup :=
    if negb (String.eqb currentValue "") then
      markup ++ span_bold ++ "current:</span><span> <u>"
             ++ escapePangoMarkup (truncate currentValue entryMaxLen) ++ "</u></span>"
    else markup in
  markup ++ "</markup>".

(** [multiLineBookmark] *)
Definition multiLineBookmark (b : bukudb.Bookmark) : list string :=
  let title := if String.eqb (bukudb.Title b) "" then "(Title)" else bukudb.Title b in
  let url := if String.eqb (bukudb.URL b) "" then "(Url)" else bukudb.URL b in
  let comment :=
    if String.eqb (bukudb.Comment b) "" then "(Comment)" else bukudb.Comment b in
  let tags := strings.Join (bukudb.Tags b) ", " in
  let tags := if String.eqb tags "" then "(Tags)" else tags in
  [formatEntryText (fmt.Sprint (bukudb.ID b) ++ ". " ++ title);
   formatEntryText ("   > " ++ url);
   formatEntryText ("   + " ++ comment);
   formatEntryText ("   # " ++ tags)].

(** [getIdFromBookmarkString]; [strings.Split] returns at least one
    piece, so the index expression [[0]] is always in range. *)
Definition getIdFromBookmarkString (input : string) : error + Z :=
  let idString := hd "" (strings.Split input ".") in
  match strconv.ParseUint idString 16 with
  | inl _ => inl (ErrParsingId input)
  | inr idUint64 => inr (bukudb.uint16 idUint64)
  end.

(** The loop [for j := len(id); j < numPadding; j++ { id = "0" + id }],
    with [n] iterations left. *)
Fixpoint pad_zeros (n : nat) (id : string) : string :=
  match n with
  | O => id
  | S n' => pad_zeros n' ("0" ++ id)
  end.

(** The entry [HandleBookmarksShow] makes of a bookmark. *)
Definition bookmark_entry (numPadding : nat) (b : bukudb.Bookmark) : rofi.Entry :=
  let id := fmt.Sprint (bukudb.ID b) in
  let id := pad_zeros (numPadding - String.length id) id in
  let text := if String.eqb (bukudb.Title b) "" then bukudb.URL b else bukudb.Title b in
  rofi.mkEntry (formatEntryText (id ++ ". " ++ text))
               (strings.Join (bukudb.Tags b) " ").

(** The loop of [handleModifyTagsSelect] that appends the tags not yet in
    [in.api.Data.Bookmark.Tags]. *)
Fixpoint append_new (bTags tags : list string) : list string :=
  match tags with
  | [] => bTags
  | t :: rest =>
      if negb (slices.Contains bTags t) then append_new (bTags ++ [t])%list rest
      else append_new bTags rest
  end.

(** The first byte [input[0]]; [None] is the run-time panic on the empty
    string. *)
Definition first_byte (input : string) : option ascii :=
  match input with
  | EmptyString => None
  | String c _ => Some c
  end.

Definition is_digit (c : ascii) : bool := ((48 <=? byte c) && (byte c <=? 57))%Z.

(** *** The handlers *)

Section handlers.
(** What the Go runtime decides during [GetAll]. *)
Variable rt : bukudb.Runtime.
(** [strings.TrimSpace] *)
Variable TrimSpace : string → string.
(** [err.Error()], the text of an error. *)
Variable Error : error → string.
(** [exec.Command(name, arg).Start()]: [Some] text of the error, or [None]. *)
Variable Start : string → string → option string.

(** [getTagsFromInput] *)
Definition getTagsFromInput (input : string) : list string :=
  TrimSpace <$> strings.Split input ",".

(** [SetMessageToError] (the error is also written to the log). *)
Definition SetMessageToError (h : InputHandler) (err : error) : InputHandler :=
  let h := set_option h rofi.OptionMessage
             ("<markup>" ++ span_bold ++ "error:</span><span> "
              ++ escapePangoMarkup (Error err) ++ "</span></markup>") in
  let h := set_option h rofi.OptionNoCustom "true" in
  set_entries h [text_entry op_back].

(** [HandleBookmarksShow] *)
Definition HandleBookmarksShow (h : InputHandler) : InputHandler :=
  let h := set_option h rofi.OptionMessage
             (generatePangoMarkup "add: Alt+1 | modify: Alt+2 | delete: Alt+3" "" "") in
  let h := set_option h rofi.OptionNoCustom "true" in
  let h := set_option h rofi.OptionUseHotKeys "true" in
  let numPadding := String.length (fmt.Sprint bukudb.MaxBookmarks) in
  match bukudb.GetAll rt (db h) with
  | inl err =>
      let h := SetMessageToError h (ErrStore err) in
      set_state h rofidata.St_bookmarks_show
  | inr allBookmarks =>
      let entries := bookmark_entry numPadding <$> allBookmarks in
      let h := set_entries h entries in
      let h := set_state h rofidata.St_bookmarks_select in
      set_bookmark h (bukudb.mkBookmark 0 "" "" [] "")
  end.

(** [handleAddShow] *)
Definition handleAddShow (h : InputHandler) : InputHandler :=
  let h := set_option h rofi.OptionMessage
             (generatePangoMarkup
                "select a field to add, all are optional except the url" "" "") in
  let h := set_option h rofi.OptionNoCustom "true" in
  let h := set_option h rofi.OptionUseHotKeys "false" in
  let b := bookmark h in
  let b := bukudb.mkBookmark (bukudb.uint16 (bukudb.Len (db h) + 1)) (bukudb.URL b)
                             (bukudb.Title b) (bukudb.Tags b) (bukudb.Comment b) in
  let entries :=
    ([text_entry op_back] ++ (text_entry <$> multiLineBookmark b)
     ++ [text_entry op_confirm])%list in
  let h := set_entries h entries in
  set_state h rofidata.St_add_select.

(** [handleAddTitleShow] *)
Definition handleAddTitleShow (h : InputHandler) : InputHandler :=
  let h := set_option h rofi.OptionMessage (generatePangoMarkup "enter a title" "" "") in
  let h := set_option h rofi.OptionNoCustom "false" in
  let h := set_option h rofi.OptionUseHotKeys "false" in
  let h := set_entries h [text_entry op_back; text_entry op_delete] in
  set_state h rofidata.St_add_title_select.

(** [handleAddTitleSelect] *)
Definition handleAddTitleSelect (h : InputHandler) (input : string) : InputHandler :=
  let h :=
    if String.eqb input op_back then h
    else if String.eqb input op_delete then set_title h ""
    else set_title h input in
  handleAddShow h.

(** [handleAddUrlShow] *)
Definition handleAddUrlShow (h : InputHandler) : InputHandler :=
  let h := set_option h rofi.OptionMessage (generatePangoMarkup "enter a url" "" "") in
  let h := set_option h rofi.OptionNoCustom "false" in
  let h := set_option h rofi.OptionUseHotKeys "false" in
  let h := set_entries h [text_entry op_back; text_entry op_delete] in
  set_state h rofidata.St_add_url_select.

(** [handleAddUrlSelect] *)
Definition handleAddUrlSelect (h : InputHandler) (input : string) : InputHandler :=
  let h :=
    if String.eqb input op_back then h
    else if String.eqb input op_delete then set_url h ""
    else set_url h input in
  handleAddShow h.

(** [handleAddCommentShow] *)
Definition handleAddCommentShow (h : InputHandler) : InputHandler :=
  let h := set_option h rofi.OptionMessage
             (generatePangoMarkup "enter a comment" "" "") in
  let h := set_option h rofi.OptionNoCustom "false" in
  let h := set_option h rofi.OptionUseHotKeys "false" in
  let h := set_entries h [text_entry op_back; text_entry op_delete] in
  set_state h rofidata.St_add_comment_select.

(** [handleAddCommentSelect] *)
Definition handleAddCommentSelect (h : InputHandler) (input : string) : InputHandler :=
  let h :=
    if String.eqb input op_back then h
    else if String.eqb input op_delete then set_comment h ""
    else set_comment h input in
  handleAddShow h.

(** [handleAddTagsShow] *)
Definition handleAddTagsShow (h : InputHandler) : InputHandler :=
  let h := set_option h rofi.OptionMessage
             (generatePangoMarkup "enter some tags" "'mytag, some-tag, a tag'" "") in
  let h := set_option h rofi.OptionNoCustom "false" in
  let h := set_option h rofi.OptionUseHotKeys "false" in
  let h := set_entries h [text_entry op_back; text_entry op_delete] in
  set_state h rofidata.St_add_tags_select.

(** [handleAddTagsSelect] *)
Definition handleAddTagsSelect (h : InputHandler) (input : string) : InputHandler :=
  let h :=
    if String.eqb input op_back then h
    else if String.eqb input op_delete then set_tags h []
    else
      let tags := TrimSpace <$> strings.Split input "," in
      set_tags h
        (sort.Slice (λ x y, String.ltb (strings.ToLower x) (strings.ToLower y)) tags) in
  handleAddShow h.

(** [handleAddSelect]; [None] is the run-time panic of [input[0]] on the
    empty string. *)
Definition handleAddSelect (h : InputHandler) (input : string) : option InputHandler :=
  if String.eqb input op_back then Some (HandleBookmarksShow h)
  else if String.eqb input op_confirm then
    if String.eqb (bukudb.URL (bookmark h)) "" then
      let h := SetMessageToError h ErrNoURL in
      Some (set_state h rofidata.St_add_show)
    else
      match bukudb.Add (db h) (bookmark h) with
      | (d, Some err) =>
          let h := SetMessageToError (set_db h d) (ErrStore err) in
          Some (set_state h rofidata.St_bookmarks_show)
      | (d, None) => Some (HandleBookmarksShow (set_db h d))
      end
  else
    c ← first_byte input;
    Some (if is_digit c then handleAddTitleShow h
          else if Ascii.eqb c ">" then handleAddUrlShow h
          else if Ascii.eqb c "+" then handleAddCommentShow h
          else if Ascii.eqb c "#" then handleAddTagsShow h
          else handleAddShow h).

(** [handleGotoExec] *)
Definition handleGotoExec (h : InputHandler) : InputHandler :=
  let h := set_state h rofidata.St_goto_exec in
  if negb (String.eqb (browser h) "") then
    match Start (browser h) (bukudb.URL (bookmark h)) with
    | Some err =>
        let h := SetMessageToError h (ErrOpeningURL err) in
        set_state h rofidata.St_bookmarks_show
    | None => h
    end
  else
    match Start "xdg-open" (bukudb.URL (bookmark h)) with
    | Some _ =>
        let h := SetMessageToError h ErrNoXdgOpen in
        set_state h rofidata.St_bookmarks_show
    | None => h
    end.

(** [handleModifyShow] *)
Definition handleModifyShow (h : InputHandler) : InputHandler :=
  let h := set_option h rofi.OptionMessage
             (generatePangoMarkup "select a field to edit" "" "") in
  let h := set_option h rofi.OptionNoCustom "true" in
  let h := set_option h rofi.OptionUseHotKeys "false" in
  let entries :=
    ([text_entry op_back] ++ (text_entry <$> multiLineBookmark (bookmark h)))%list in
  let h := set_entries h entries in
  set_state h rofidata.St_modify_select.

(** [handleModifyTitleShow] *)
Definition handleModifyTitleShow (h : InputHandler) : InputHandler :=
  let h := set_option h rofi.OptionMessage
             (generatePangoMarkup "enter a new title" "" (bukudb.Title (bookmark h))) in
  let h := set_option h rofi.OptionNoCustom "false" in
  let h := set_option h rofi.OptionUseHotKeys "false" in
  let h := set_entries h [text_entry op_back; text_entry op_delete] in
  set_state h rofidata.St_modify_title_select.

(** [handleModifyTitleSelect] *)
Definition handleModifyTitleSelect (h : InputHandler) (input : string) : InputHandler :=
  let input := if String.eqb input op_delete then "" else input in
  if String.eqb input op_back then handleModifyShow h
  else
    match bukudb.UpdateTitle (db h) (bukudb.ID (bookmark h)) input with
    | (d, Some err) =>
        let h := SetMessageToError (set_db h d) (ErrUpdatingTitle err) in
        set_state h rofidata.St_modify_title_select
    | (d, None) =>
        let h := set_title (set_db h d) input in
        handleModifyTitleShow h
    end.

(** [handleModifyUrlShow] *)
Definition handleModifyUrlShow (h : InputHandler) : InputHandler :=
  let h := set_option h rofi.OptionMessage
             (generatePangoMarkup "enter a new url" "" (bukudb.URL (bookmark h))) in
  let h := set_option h rofi.OptionNoCustom "false" in
  let h := set_option h rofi.OptionUseHotKeys "false" in
  let h := set_entries h [text_entry op_back] in
  set_state h rofidata.St_modify_url_select.

(** [handleModifyUrlSelect] *)
Definition handleModifyUrlSelect (h : InputHandler) (input : string) : InputHandler :=
  if String.eqb input "" then handleModifyUrlShow h
  else if String.eqb input op_back then handleModifyShow h
  else
    match bukudb.UpdateURL (db h) (bukudb.ID (bookmark h)) input with
    | (d, Some err) =>
        let h := SetMessageToError (set_db h d) (ErrUpdatingURL err) in
        set_state h rofidata.St_modify_url_select
    | (d, None) =>
        let h := set_url (set_db h d) input in
        handleModifyUrlShow h
    end.

(** [handleModifyCommentShow] *)
Definition handleModifyCommentShow (h : InputHandler) : InputHandler :=
  let h := set_option h rofi.OptionMessage
             (generatePangoMarkup "enter a new comment" ""
                                  (bukudb.Comment (bookmark h))) in
  let h := set_option h rofi.OptionNoCustom "false" in
  let h := set_option h rofi.OptionUseHotKeys "false" in
  let h := set_entries h [text_entry op_back; text_entry op_delete] in
  set_state h rofidata.St_modify_comment_select.

(** [handleModifyCommentSelect] *)
Definition handleModifyCommentSelect (h : InputHandler) (input : string)
  : InputHandler :=
  let input := if String.eqb input op_delete then "" else input in
  if String.eqb input op_back then handleModifyShow h
  else
    match bukudb.UpdateComment (db h) (bukudb.ID (bookmark h)) input with
    | (d, Some err) =>
        let h := SetMessageToError (set_db h d) (ErrUpdatingComment err) in
        set_state h rofidata.St_modify_comment_select
    | (d, None) =>
        let h := set_comment (set_db h d) input in
        handleModifyCommentShow h
    end.

(** [handleModifyTagsShow] *)
Definition handleModifyTagsShow (h : InputHandler) : InputHandler :=
  let h := set_option h rofi.OptionMessage
             (generatePangoMarkup "add or remove tags"
                "'+ newtag1, ...' or '- oldtag1, ...'"
                (strings.Join (bukudb.Tags (bookmark h)) ", ")) in
  let h := set_option h rofi.OptionNoCustom "false" in
  let h := set_option h rofi.OptionUseHotKeys "false" in
  let h := set_entries h [text_entry op_back; text_entry op_delete] in
  set_state h rofidata.St_modify_tags_select.

(** [handleModifyTagsSelect] *)
Definition handleModifyTagsSelect (h : InputHandler) (input : string) : InputHandler :=
  if String.eqb input op_back then handleModifyShow h
  else if String.eqb input op_delete then
    match bukudb.ClearTags (db h) (bukudb.ID (bookmark h)) with
    | (d, Some err) =>
        let h := SetMessageToError (set_db h d) (ErrClearingTags err) in
        set_state h rofidata.St_modify_tags_select
    | (d, None) =>
        let h := set_tags (set_db h d) [] in
        handleModifyTagsShow h
    end
  else if strings.HasPrefix input "+" then
    let tags := getTagsFromInput (slice_from input 1) in
    match bukudb.AddTags (db h) (bukudb.ID (bookmark h)) tags with
    | (d, Some err) =>
        let h := SetMessageToError (set_db h d) (ErrAddingTag err) in
        set_state h rofidata.St_modify_tags_select
    | (d, None) =>
        let h := set_db h d in
        let h := set_tags h (append_new (bukudb.Tags (bookmark h)) tags) in
        let h :=
          set_tags h
            (sort.Slice (λ x y, String.ltb (strings.ToLower x) (strings.ToLower y))
                        (bukudb.Tags (bookmark h))) in
        handleModifyTagsShow h
    end
  else if strings.HasPrefix input "-" then
    let tags := getTagsFromInput (slice_from input 1) in
    match bukudb.RemoveTags (db h) (bukudb.ID (bookmark h)) tags with
    | (d, Some err) =>
        let h := SetMessageToError (set_db h d) (ErrRemovingTag err) in
        set_state h rofidata.St_modify_tags_select
    | (d, None) =>
        let h := set_db h d in
        let tmp :=
          bukudb.filter (bukudb.Tags (bookmark h))
                        (λ t, negb (slices.Contains tags t)) in
        let h := set_tags h tmp in
        handleModifyTagsShow h
    end
  else handleModifyTagsShow h.

(** [handleModifySelect] *)
Definition handleModifySelect (h : InputHandler) (input : string) : InputHandler :=
  match first_byte input with
  | None => handleModifyShow h
  | Some c =>
      if String.eqb input op_back then HandleBookmarksShow h
      else if is_digit c then handleModifyTitleShow h
      else if Ascii.eqb c ">" then handleModifyUrlShow h
      else if Ascii.eqb c "+" then handleModifyCommentShow h
      else if Ascii.eqb c "#" then handleModifyTagsShow h
      else handleModifyShow h
  end.

(** [handleDeleteConfirmShow] *)
Definition handleDeleteConfirmShow (h : InputHandler) : InputHandler :=
  let h := set_option h rofi.OptionMessage
             (generatePangoMarkup "delete? (yes/No)" "" (bukudb.URL (bookmark h))) in
  let h := set_option h rofi.OptionNoCustom "false" in
  let h := set_option h rofi.OptionUseHotKeys "false" in
  let h := set_entries h [text_entry op_back] in
  set_state h rofidata.St_delete_confirm_select.

(** [handleDeleteConfirmSelect] *)
Definition handleDeleteConfirmSelect (h : InputHandler) (input : string)
  : InputHandler :=
  if String.eqb input op_back || negb (String.eqb input "yes") then
    HandleBookmarksShow h
  else
    match bukudb.Remove (db h) (bukudb.ID (bookmark h)) with
    | (d, Some err) =>
        let h := SetMessageToError (set_db h d) (ErrDeleting err) in
        set_state h rofidata.St_bookmarks_show
    | (d, None) => HandleBookmarksShow (set_db h d)
    end.

(** [handleBookmarksSelect] *)
Definition handleBookmarksSelect (h : InputHandler) (input : string)
    (rofiState : rofi.State) : InputHandler :=
  match rofiState with
  | rofi.StateCustomKeybinding1 => handleAddShow h
  | _ =>
      match getIdFromBookmarkString input with
      | inl err =>
          let h := SetMessageToError h err in
          set_state h rofidata.St_bookmarks_show
      | inr id =>
          match bukudb.Get (db h) id with
          | inl err =>
              let h := SetMessageToError h (ErrStore err) in
              set_state h rofidata.St_bookmarks_show
          | inr b =>
              let h := set_bookmark h b in
              match rofiState with
              | rofi.StateCustomKeybinding2 => handleModifyShow h
              | rofi.StateCustomKeybinding3 => handleDeleteConfirmShow h
              | rofi.StateSelected => handleGotoExec h
              | _ => HandleBookmarksShow h
              end
          end
      end
  end.

(** [getSelectedFromInput]: the error of [Get] is dropped, and with it
    comes the zero bookmark. *)
Definition getSelectedFromInput (h : InputHandler) (input : string)
  : error + bukudb.Bookmark :=
  match getIdFromBookmarkString input with
  | inl err => inl err
  | inr id =>
      match bukudb.Get (db h) id with
      | inl _ => inr (bukudb.mkBookmark 0 "" "" [] "")
      | inr b => inr b
      end
  end.

(** [HandleInput]; a state without a handler is only logged. *)
Definition HandleInput (h : InputHandler) (input : string) : option InputHandler :=
  let input := TrimSpace input in
  let rofiState := rofi.GetState (api h) in
  let st := rofidata.State (rofi.Data (api h)) in
  if (st =? rofidata.St_bookmarks_show)%Z then Some (HandleBookmarksShow h)
  else if (st =? rofidata.St_bookmarks_select)%Z then
    Some (handleBookmarksSelect h input rofiState)
  else if (st =? rofidata.St_add_show)%Z then Some (handleAddShow h)
  else if (st =? rofidata.St_add_select)%Z then handleAddSelect h input
  else if (st =? rofidata.St_add_title_show)%Z then Some (handleAddTitleShow h)
  else if (st =? rofidata.St_add_title_select)%Z then Some (handleAddTitleSelect h input)
  else if (st =? rofidata.St_add_url_show)%Z then Some (handleAddUrlShow h)
  else if (st =? rofidata.St_add_url_select)%Z then Some (handleAddUrlSelect h input)
  else if (st =? rofidata.St_add_comment_show)%Z then Some (handleAddCommentShow h)
  else if (st =? rofidata.St_add_comment_select)%Z then
    Some (handleAddCommentSelect h input)
  else if (st =? rofidata.St_add_tags_show)%Z then Some (handleAddTagsShow h)
  else if (st =? rofidata.St_add_tags_select)%Z then Some (handleAddTagsSelect h input)
  else if (st =? rofidata.St_modify_show)%Z then Some (handleModifyShow h)
  else if (st =? rofidata.St_modify_select)%Z then Some (handleModifySelect h input)
  else if (st =? rofidata.St_modify_title_show)%Z then Some (handleModifyTitleShow h)
  else if (st =? rofidata.St_modify_title_select)%Z then
    Some (handleModifyTitleSelect h input)
  else if (st =? rofidata.St_modify_url_show)%Z then Some (handleModifyUrlShow h)
  else if (st =? rofidata.St_modify_url_select)%Z then Some (handleModifyUrlSelect h input)
  else if (st =? rofidata.St_modify_comment_show)%Z then Some (handleModifyCommentShow h)
  else if (st =? rofidata.St_modify_comment_select)%Z then
    Some (handleModifyCommentSelect h input)
  else if (st =? rofidata.St_modify_tags_show)%Z then Some (handleModifyTagsShow h)
  else if (st =? rofidata.St_modify_tags_select)%Z then
    Some (handleModifyTagsSelect h input)
  else if (st =? rofidata.St_delete_confirm_show)%Z then Some (handleDeleteConfirmShow h)
  else if (st =? rofidata.St_delete_confirm_select)%Z then
    Some (handleDeleteConfirmSelect h input)
  else Some h.

End handlers.

End inputhandler.

(** ** Vocabulary of the properties *)

(** In a slice sorted by [less] no element is [less] than its left
    neighbour; in the reversed prefix of [sort.Slice] each element is not
    [less] than the one that follows it. *)
Definition not_less {A : Type} (less : A → A → bool) : relation A :=
  λ x y, less x y = false.

(** At least one worker; every write of every worker reaches the map, in
    some order; [range] visits every entry of the map once, in some order. *)
Definition runtime_ok (rt : bukudb.Runtime) : Prop :=
  1 ≤ bukudb.NumCPU rt
  ∧ (∀ outs, bukudb.schedule rt outs ≡ₚ concat outs)
  ∧ (∀ m, bukudb.range_order rt m ≡ₚ (map_to_list m).*2).

(** The count of a store made by [NewBukuDB]: [getMaxBookmarkID] caps
    it at [MaxBookmarks], and [Add] does not go beyond. *)
Definition count_ok (db : bukudb.BukuDB) : Prop :=
  0 ≤ bukudb.len db ≤ bukudb.MaxBookmarks.

(** The persisted ids are exactly [1..len]. *)
Definition contiguous (db : bukudb.BukuDB) : Prop :=
  ∀ id, is_Some (bukudb.conn db !! id) ↔ 1 ≤ id ≤ bukudb.len db.

(** A bookmark with this URL is already stored. *)
Definition url_stored (db : bukudb.BukuDB) (url : string) : Prop :=
  ∃ id r, bukudb.conn db !! id = Some r ∧ sql.URL r = url.

(** Does [s] contain the byte [sep]? *)
Fixpoint has_byte (sep : ascii) (s : string) : bool :=
  match s with
  | EmptyString => false
  | String c s' => Ascii.eqb c sep || has_byte sep s'
  end.

(** A tag the comma-delimited column can hold: not empty, no delimiter. *)
Definition tag_ok (t : string) : Prop := t ≠ "" ∧ has_byte "," t = false.

(** The predicate [Get] filters the pieces of the tags column with. *)
Definition nonempty (t : string) : bool := negb (String.eqb t "").

(** The tags column [AddTags] and [RemoveTags] write. *)
Definition wrap (tags : list string) : string :=
  "," ++ strings.Join tags "," ++ ",".

(** The tags [AddTags] stores for stored tags [old] and arguments [tags]. *)
Definition merged (old tags : list string) : list string :=
  sort.Slice bukudb.less_tag
    (old ++ bukudb.filter tags (λ t, negb (slices.Contains old t))).

(** The ids worker [i] queries: [start..end], none when [end < start]. *)
Definition worker_ids (maxID entriesPerWorker i : Z) : list Z :=
  let '(start, end_) := bukudb.worker_range maxID entriesPerWorker i in
  seqZ start (end_ - start + 1).

(** The bookmark [processBookmarkRange] makes of a row. *)
Definition range_bookmark (kr : Z * sql.Row) : bukudb.Bookmark :=
  bukudb.mkBookmark kr.1 (sql.URL kr.2) (sql.metadata kr.2)
                    (bukudb.range_tags (sql.tags kr.2)) (sql.desc kr.2).

(** The rows stored under the ids [ids], in that order. *)
Definition rows_at (t : gmap Z sql.Row) (ids : list Z) : list (Z * sql.Row) :=
  omap (λ i, (λ r, (i, r)) <$> t !! i) ids.

(** *** Sequences of Add and Remove calls *)

Inductive call :=
  | CallAdd (b : bukudb.Bookmark)
  | CallRemove (id : Z).

(** The argument of [Remove] is a [uint16]. *)
Definition call_typed (c : call) : Prop :=
  match c with
  | CallAdd _ => True
  | CallRemove id => 0 ≤ id < 65536
  end.

Definition exec (db : bukudb.BukuDB) (c : call) : bukudb.BukuDB * option bukudb.error :=
  match c with
  | CallAdd b => bukudb.Add db b
  | CallRemove id => bukudb.Remove db id
  end.

(** The store after a sequence of calls, whatever each call returned. *)
Definition run (db : bukudb.BukuDB) (calls : list call) : bukudb.BukuDB :=
  foldl (λ d c, (exec d c).1) db calls.

(** *** Runtimes and stores of the tests and scenarios *)

(** [W] workers whose writes arrive worker by worker. *)
Definition in_order (W : Z) : bukudb.Runtime :=
  bukudb.mkRuntime W (@concat _) (λ m, (map_to_list m).*2).

(** [W] workers, the writes of the last worker first, the map walked
    backwards. *)
Definition last_first (W : Z) : bukudb.Runtime :=
  bukudb.mkRuntime W (λ outs, concat (reverse outs))
                   (λ m, reverse (map_to_list m).*2).

(** The table [createTestDb] builds in the package's tests, opened. *)
Definition test_db : bukudb.BukuDB :=
  bukudb.mkBukuDB
    (list_to_map
       [(1, sql.mkRow "https://www.a.com" "metadata (title) a" ",a,tag2,tag3,"
                      "desc (comment) a" 0);
        (2, sql.mkRow "https://www.b.com" "metadata (title) b" ",b,tag2,tag3," "" 0);
        (3, sql.mkRow "https://www.c.com" "metadata (title) c" "," "" 0);
        (4, sql.mkRow "https://www.d.com" "" "," "" 0)])
    4.

(** The store of the capacity scenario: count 1000. *)
Definition full_db : bukudb.BukuDB :=
  bukudb.mkBukuDB (bukudb.conn test_db) 1000.

(** The store of the delete-then-reload scenario: urls a, b, c, d. *)
Definition abcd_db : bukudb.BukuDB :=
  bukudb.mkBukuDB
    (list_to_map [(1, sql.mkRow "a" "" "," "" 0); (2, sql.mkRow "b" "" "," "" 0);
                  (3, sql.mkRow "c" "" "," "" 0); (4, sql.mkRow "d" "" "," "" 0)])
    4.

(** Seven bookmarks, for three workers. *)
Definition seven_db : bukudb.BukuDB :=
  bukudb.mkBukuDB
    (list_to_map ((λ i, (i, sql.mkRow (String (ascii_of_nat (Z.to_nat (96 + i))) "")
                                      "" ",t," "" 0)) <$> seqZ 1 7))
    7.

(** A store whose second bookmark lost its last tag through [RemoveTags]. *)
Definition emptied_db : bukudb.BukuDB :=
  (bukudb.RemoveTags test_db 2 ["b"; "tag2"; "tag3"]).1.

(** *** Calls of every mutating method *)

Inductive method :=
  | MAdd (b : bukudb.Bookmark)
  | MRemove (id : Z)
  | MUpdateTitle (id : Z) (title : string)
  | MUpdateURL (id : Z) (url : string)
  | MUpdateComment (id : Z) (comment : string)
  | MAddTags (id : Z) (tags : list string)
  | MRemoveTags (id : Z) (tags : list string)
  | MClearTags (id : Z).

(** The id arguments are [uint16] values. *)
Definition method_typed (m : method) : Prop :=
  match m with
  | MAdd _ => True
  | MRemove id | MUpdateTitle id _ | MUpdateURL id _ | MUpdateComment id _
  | MAddTags id _ | MRemoveTags id _ | MClearTags id => 0 ≤ id < 65536
  end.

Definition invoke (db : bukudb.BukuDB) (m : method)
  : bukudb.BukuDB * option bukudb.error :=
  match m with
  | MAdd b => bukudb.Add db b
  | MRemove id => bukudb.Remove db id
  | MUpdateTitle id title => bukudb.UpdateTitle db id title
  | MUpdateURL id url => bukudb.UpdateURL db id url
  | MUpdateComment id comment => bukudb.UpdateComment db id comment
  | MAddTags id tags => bukudb.AddTags db id tags
  | MRemoveTags id tags => bukudb.RemoveTags db id tags
  | MClearTags id => bukudb.ClearTags db id
  end.

(** The store after a sequence of method calls, whatever each returned. *)
Definition run_methods (db : bukudb.BukuDB) (ms : list method) : bukudb.BukuDB :=
  foldl (λ d m, (invoke d m).1) db ms.

(** The errors the calls of a sequence return, one after the other. *)
Fixpoint run_errors (db : bukudb.BukuDB) (ms : list method)
  : list (option bukudb.error) :=
  match ms with
  | [] => []
  | m :: rest => (invoke db m).2 :: run_errors (invoke db m).1 rest
  end.

(** The two errors with which [Remove] stops at a statement that failed:
    the DELETE, or an UPDATE of the renumbering. *)
Definition statement_failed (e : bukudb.error) : bool :=
  match e with
  | bukudb.ErrDelete _ | bukudb.ErrUpdateId _ => true
  | _ => false
  end.

(** No two rows hold the same URL. *)
Definition urls_unique (t : gmap Z sql.Row) : Prop :=
  ∀ i j ri rj, t !! i = Some ri → t !! j = Some rj →
               sql.URL ri = sql.URL rj → i = j.

(** The tags column in the format of buku: the delimiter alone, or one
    or more well-formed tags between delimiters. *)
Definition canonical_tags (tagsString : string) : Prop :=
  tagsString = "," ∨
  ∃ tags, tags ≠ [] ∧ Forall tag_ok tags ∧ tagsString = wrap tags.

(** The change of [Len()] a call makes: an [Add] that returns no error
    adds one, a [Remove] that returns no error takes one away. *)
Definition len_change (m : method) (e : option bukudb.error) : Z :=
  match e, m with
  | None, MAdd _ => 1
  | None, MRemove _ => -1
  | _, _ => 0
  end.

(** The test table after another program deleted row 2. *)
Definition gap_db : bukudb.BukuDB :=
  bukudb.mkBukuDB (delete 2 (bukudb.conn test_db)) 4.

(** *** The serialised state and the handlers *)

(** A string without the delimiter of the serialised state. *)
Definition no_delim (s : string) : Prop := strings.Index s rofidata.delim = None.

(** A string that cannot complete an occurrence of the delimiter begun
    before it: it does not start with the second or third byte. *)
Definition starts_clear (t : string) : Prop :=
  match t with
  | EmptyString => True
  | String c _ => c ≠ ascii_of_nat 128 ∧ c ≠ ascii_of_nat 168
  end.

(** The bookmark in [in.api.Data] is the stored one. *)
Definition in_sync (h : inputhandler.InputHandler) : Prop :=
  bukudb.Get (inputhandler.db h) (bukudb.ID (inputhandler.bookmark h))
  = inr (inputhandler.bookmark h).

(** Every URL a call hands to the store is non-empty. *)
Definition url_arg_nonempty (m : method) : Prop :=
  match m with
  | MAdd b => bukudb.URL b ≠ ""
  | MUpdateURL _ url => url ≠ ""
  | _ => True
  end.

(** The states whose handlers call a mutating method of the store. *)
Definition writer_state (st : Z) : bool :=
  existsb (Z.eqb st)
    [rofidata.St_add_select; rofidata.St_modify_title_select;
     rofidata.St_modify_url_select; rofidata.St_modify_comment_select;
     rofidata.St_modify_tags_select; rofidata.St_delete_confirm_select].

(** No stored bookmark has an empty URL. *)
Definition urls_nonempty (t : gmap Z sql.Row) : Prop :=
  ∀ id r, t !! id = Some r → sql.URL r ≠ "".

(** The calls of the store behind a handler's result. *)
Definition calls (h h' : inputhandler.InputHandler) (ms : list method) : Prop :=
  Forall (λ m, method_typed m ∧ url_arg_nonempty m) ms
  ∧ inputhandler.db h' = run_methods (inputhandler.db h) ms.

(** A handler over the test store, in state [st] with [b] selected. *)
Definition test_handler (st : Z) (b : bukudb.Bookmark) : inputhandler.InputHandler :=
  inputhandler.mkInputHandler test_db
    (rofi.mkRofiApi (λ _, None) [] (rofidata.mkData b st) rofi.StateSelected) "".

(** The second bookmark of the test store. *)
Definition bookmark_b : bukudb.Bookmark :=
  bukudb.mkBookmark 2 "https://www.b.com" "metadata (title) b" ["b"; "tag2"; "tag3"] "".

(** * Properties *)

Example Split_example : strings.Split ",b,tag2,tag3," "," = [""; "b"; "tag2"; "tag3"; ""].
Proof. reflexivity. Qed.

Example Slice_example :
  sort.Slice (λ x y, String.ltb (strings.ToLower x) (strings.ToLower y)) ["b"; "A"; "c"; "a"]
  = ["A"; "a"; "b"; "c"].
Proof. reflexivity. Qed.

(** ** The tests of the package, on the model *)

Example Test_GetAll :
  bukudb.GetAll (in_order 4) test_db
  = inr [bukudb.mkBookmark 1 "https://www.a.com" "metadata (title) a"
                           ["a"; "tag2"; "tag3"] "desc (comment) a";
         bukudb.mkBookmark 2 "https://www.b.com" "metadata (title) b"
                           ["b"; "tag2"; "tag3"] "";
         bukudb.mkBookmark 3 "https://www.c.com" "metadata (title) c" [] "";
         bukudb.mkBookmark 4 "https://www.d.com" "" [] ""].
Proof. by vm_compute. Qed.

Example Test_Get :
  bukudb.Get test_db 2
  = inr (bukudb.mkBookmark 2 "https://www.b.com" "metadata (title) b"
                           ["b"; "tag2"; "tag3"] "")
  ∧ bukudb.Get test_db 10 = inl (bukudb.ErrBookmarkIdOutOfRange 10 4).
Proof. split; by vm_compute. Qed.

Example Test_Add_And_Remove :
  let expected := bukudb.mkBookmark 5 "https://www.new.com" "metadata (title) new"
                                    ["new"; "tag2"; "tag3"] "" in
  let added := bukudb.Add test_db expected in
  let removed := bukudb.Remove added.1 5 in
  added.2 = None ∧ bukudb.Len added.1 = 5
  ∧ bukudb.Get added.1 5 = inr expected
  ∧ removed.2 = None ∧ bukudb.Len removed.1 = 4.
Proof. repeat split; by vm_compute. Qed.

Example Test_UpdateTitle :
  let updated := bukudb.UpdateTitle test_db 2 "metadata (title) new title" in
  updated.2 = None
  ∧ bukudb.Get updated.1 2
    = inr (bukudb.mkBookmark 2 "https://www.b.com" "metadata (title) new title"
                             ["b"; "tag2"; "tag3"] "").
Proof. split; by vm_compute. Qed.

Example Test_AddTags :
  let updated := bukudb.AddTags test_db 2 ["b"; "tag2"; "tag3"; "tag4"; "tag5"] in
  updated.2 = None
  ∧ bukudb.Get updated.1 2
    = inr (bukudb.mkBookmark 2 "https://www.b.com" "metadata (title) b"
                             ["b"; "tag2"; "tag3"; "tag4"; "tag5"] "").
Proof. split; by vm_compute. Qed.

Example Test_RemoveTags :
  let updated := bukudb.RemoveTags test_db 2 ["tag2"; "tag3"] in
  updated.2 = None
  ∧ bukudb.Get updated.1 2
    = inr (bukudb.mkBookmark 2 "https://www.b.com" "metadata (title) b" ["b"] "").
Proof. split; by vm_compute. Qed.

Example Test_ClearTags :
  let updated := bukudb.ClearTags test_db 2 in
  updated.2 = None
  ∧ bukudb.Get updated.1 2
    = inr (bukudb.mkBookmark 2 "https://www.b.com" "metadata (title) b" [] "").
Proof. split; by vm_compute. Qed.

(** ** Facts about the storage engine *)

Section sql_facts.
Import sql.
Implicit Types (t : gmap Z Row) (id : Z) (r : Row).

Lemma url_taken_true t self url :
  url_taken t self url = true ↔
  ∃ id r, t !! id = Some r ∧ self ≠ Some id ∧ URL r = url.
Proof.
  unfold url_taken. rewrite existsb_exists. split.
  - intros [[id r] [Hin Hb]]. apply andb_true_iff in Hb as [Hself Hurl].
    exists id, r. simpl in *.
    apply negb_true_iff, bool_decide_eq_false in Hself.
    apply String.eqb_eq in Hurl.
    apply list_elem_of_In, elem_of_map_to_list in Hin. done.
  - intros (id & r & Hl & Hself & Hurl). exists (id, r). split.
    + apply list_elem_of_In, elem_of_map_to_list. done.
    + simpl. apply andb_true_iff. split.
      * apply negb_true_iff, bool_decide_eq_false. done.
      * apply String.eqb_eq. done.
Qed.

Lemma insert_inr t id r t' :
  insert t id r = inr t' →
  t !! id = None ∧ url_taken t None (URL r) = false ∧ t' = <[id := r]> t.
Proof.
  unfold insert. destruct (t !! id); [done|].
  destruct (url_taken t None (URL r)); [done|]. by intros [= <-].
Qed.

Lemma insert_duplicate_url t id r :
  url_taken t None (URL r) = true → ∃ c, insert t id r = inl c.
Proof.
  intros H. unfold insert. destruct (t !! id); [by eexists|].
  rewrite H. by eexists.
Qed.
End sql_facts.

(** ** The store *)

Section open_facts.
Import bukudb.

Lemma foldr_max_bounds (k : Z) (ks : list Z) :
  foldr Z.max k ks ∈ k :: ks ∧ ∀ x, x ∈ k :: ks → x ≤ foldr Z.max k ks.
Proof.
  induction ks as [|y ks [IHin IHle]]; simpl.
  - split; [by left|]. intros x Hx. apply list_elem_of_singleton in Hx. lia.
  - split.
    + rewrite !elem_of_cons in *.
      destruct (Z.max_spec y (foldr Z.max k ks)) as [[_ Hm]|[_ Hm]];
        rewrite Hm; tauto.
    + intros x Hx. rewrite !elem_of_cons in Hx.
      assert (x = y ∨ x ≤ foldr Z.max k ks) as [->|?]; [|lia..].
      destruct Hx as [->|[->|Hx]].
      * right. apply IHle. by left.
      * by left.
      * right. apply IHle. by right.
Qed.

(** [NewBukuDB] caps the count at [MaxBookmarks]; on a table whose ids
    are [1..n], with [1 <= n <= MaxBookmarks], it makes the store with
    count [n]. *)
Lemma NewBukuDB_count (t : gmap Z sql.Row) (db : BukuDB) :
  NewBukuDB t = inr db →
  conn db = t ∧ len db ≤ MaxBookmarks ∧
  ∀ n, 1 ≤ n ≤ MaxBookmarks → (∀ id, is_Some (t !! id) ↔ 1 ≤ id ≤ n) → len db = n.
Proof.
  unfold NewBukuDB, getMaxBookmarkID, sql.select_max_id.
  destruct ((map_to_list t).*1) as [|k ks] eqn:Hkeys; [done|].
  intros [= <-]. simpl. split; [done|]. split; [case_bool_decide; lia|].
  intros n Hn Hids.
  assert (∀ x, x ∈ k :: ks ↔ 1 ≤ x ≤ n) as Hmem.
  { intros x. rewrite <-Hkeys, <-Hids, list_elem_of_fmap. split.
    - intros ([x' r] & -> & Hin). apply elem_of_map_to_list in Hin. by exists r.
    - intros [r Hr]. exists (x, r). split; [done|]. by apply elem_of_map_to_list. }
  destruct (foldr_max_bounds k ks) as [Hin Hle].
  apply Hmem in Hin. specialize (Hle n (proj2 (Hmem n) ltac:(lia))).
  case_bool_decide; lia.
Qed.
End open_facts.

Section store_facts.
Import bukudb.
Implicit Types (db : BukuDB) (id : Z) (b : Bookmark).

Lemma uint16_small z : 0 ≤ z < 65536 → uint16 z = z.
Proof. intros. unfold uint16. by apply Z.mod_small. Qed.

Lemma Get_out_of_range_iff db id :
  (∃ e, Get db id = inl e ∧ is_out_of_range e = true) ↔ ¬ (1 ≤ id ≤ len db).
Proof.
  unfold Get. split.
  - intros (e & He & Hoor).
    destruct (bool_decide (id < 1)) eqn:H1; [apply bool_decide_eq_true in H1; lia|].
    destruct (bool_decide (id > len db)) eqn:H2; [apply bool_decide_eq_true in H2; lia|].
    simpl in He. destruct (conn db !! id); [|by simplify_eq].
    destruct (sql.scan_uint16 id); by simplify_eq.
  - intros Hn. exists (ErrBookmarkIdOutOfRange id (len db)). split; [|done].
    destruct (bool_decide (id < 1)) eqn:H1; [done|].
    destruct (bool_decide (id > len db)) eqn:H2; [done|].
    apply bool_decide_eq_false in H1, H2. lia.
Qed.

Lemma Get_in_range db id r :
  1 ≤ id ≤ len db → id < 65536 → conn db !! id = Some r →
  Get db id = inr (mkBookmark id (sql.URL r) (sql.metadata r)
                              (get_tags (sql.tags r)) (sql.desc r)).
Proof.
  intros Hid Hu Hr. unfold Get.
  rewrite (bool_decide_eq_false_2 (id < 1)) by lia.
  rewrite (bool_decide_eq_false_2 (id > len db)) by lia.
  simpl. rewrite Hr. unfold sql.scan_uint16.
  rewrite bool_decide_eq_true_2 by lia. done.
Qed.
End store_facts.

(** C8 (range rejection).  For a store with count [N] within capacity,
    [Get(id)] returns an out-of-range error exactly when [id] is outside
    [1..N]; [Get(0)] and [Get(N+1)] return it, and [Get(N)] succeeds when
    [N >= 1] and row [N] can be read. *)
Theorem Get_range_rejection (db : bukudb.BukuDB) :
  count_ok db →
  (∀ id, (∃ e, bukudb.Get db id = inl e ∧ bukudb.is_out_of_range e = true)
         ↔ ¬ (1 ≤ id ≤ bukudb.Len db))
  ∧ (∃ e, bukudb.Get db 0 = inl e ∧ bukudb.is_out_of_range e = true)
  ∧ (∃ e, bukudb.Get db (bukudb.uint16 (bukudb.Len db + 1)) = inl e
          ∧ bukudb.is_out_of_range e = true)
  ∧ (1 ≤ bukudb.Len db → is_Some (bukudb.conn db !! bukudb.Len db) →
     ∃ b, bukudb.Get db (bukudb.Len db) = inr b ∧ bukudb.ID b = bukudb.Len db).
Proof.
  intros Hc. unfold count_ok, bukudb.MaxBookmarks, bukudb.Len in *.
  split; [intros id; apply Get_out_of_range_iff|].
  split; [apply Get_out_of_range_iff; lia|].
  split.
  - apply Get_out_of_range_iff. rewrite uint16_small by lia. lia.
  - intros HN [r Hr]. erewrite Get_in_range by (done || lia). by eexists.
Qed.

Lemma Get_range_rejection_witness :
  ∃ b, bukudb.Get test_db 4 = inr b ∧ bukudb.ID b = 4.
Proof.
  refine (proj2 (proj2 (proj2 (Get_range_rejection test_db _))) _ _).
  - unfold count_ok. simpl. unfold bukudb.MaxBookmarks. lia.
  - simpl. lia.
  - vm_compute. eauto.
Defined.

Section add_facts.
Import bukudb.
Implicit Types (db : BukuDB) (b : Bookmark).

Lemma Add_full db b :
  count_ok db → len db + 1 > MaxBookmarks → Add db b = (db, Some ErrMaxReached).
Proof.
  unfold count_ok, Add. unfold MaxBookmarks. intros Hc Hfull.
  rewrite !uint16_small by lia.
  rewrite bool_decide_eq_true_2 by lia. done.
Qed.

Lemma Add_inv db b db' :
  count_ok db → Add db b = (db', None) →
  len db + 1 ≤ MaxBookmarks ∧
  conn db !! (len db + 1) = None ∧
  sql.url_taken (conn db) None (URL b) = false ∧
  db' = mkBukuDB (<[len db + 1 :=
                     sql.mkRow (URL b) (Title b) (strings.Join (Tags b) ",")
                               (Comment b) 0]> (conn db))
                 (len db + 1).
Proof.
  unfold count_ok, Add. unfold MaxBookmarks. intros Hc.
  rewrite !uint16_small by lia.
  case_bool_decide as Hcap; [done|].
  destruct (sql.insert _ _ _) as [e|t] eqn:Hins; [done|].
  intros [= <-]. apply insert_inr in Hins as (Hfree & Hurl & ->).
  simpl in Hurl. split; [lia|done].
Qed.

Lemma Add_failed_unchanged db b db' e :
  Add db b = (db', Some e) → db' = db.
Proof.
  unfold Add. case_bool_decide; [by intros [= <-]|].
  destruct (sql.insert _ _ _); by intros [= <-].
Qed.
End add_facts.

(** C9 (capacity limit).  [MaxBookmarks] is 1000.  On a store with count
    [N], [Add] returns the capacity error whenever [N+1 > MaxBookmarks] and
    leaves the store, and so [Len()], as it was.  When
    [N+1 <= MaxBookmarks] the capacity check lets the call through: what
    [Add] returns is decided by the INSERT of the row with id [N+1]; when
    the INSERT succeeds [Add] returns no error and the count is [N+1], when
    it fails the store is unchanged; on a store with ids [1..N] the INSERT
    of a URL that is not stored succeeds. *)
Theorem Add_capacity_limit (db : bukudb.BukuDB) (b : bukudb.Bookmark) :
  count_ok db →
  bukudb.MaxBookmarks = 1000
  ∧ (bukudb.Len db + 1 > bukudb.MaxBookmarks →
     bukudb.Add db b = (db, Some bukudb.ErrMaxReached))
  ∧ (bukudb.Len db + 1 ≤ bukudb.MaxBookmarks →
     let row := sql.mkRow (bukudb.URL b) (bukudb.Title b)
                          (strings.Join (bukudb.Tags b) ",") (bukudb.Comment b) 0 in
     (∀ t, sql.insert (bukudb.conn db) (bukudb.Len db + 1) row = inr t →
           bukudb.Add db b = (bukudb.mkBukuDB t (bukudb.Len db + 1), None))
     ∧ (∀ e, sql.insert (bukudb.conn db) (bukudb.Len db + 1) row = inl e →
             bukudb.Add db b = (db, Some (bukudb.ErrInsert e)))
     ∧ (contiguous db → ¬ url_stored db (bukudb.URL b) →
        ∃ db', bukudb.Add db b = (db', None))
     ∧ ∀ db', bukudb.Add db b = (db', None) → bukudb.Len db' = bukudb.Len db + 1).
Proof.
  intros Hc. split; [done|]. split; [by apply Add_full|].
  intros Hroom row.
  assert (bukudb.Add db b
          = match sql.insert (bukudb.conn db) (bukudb.Len db + 1) row with
            | inl e => (db, Some (bukudb.ErrInsert e))
            | inr t => (bukudb.mkBukuDB t (bukudb.Len db + 1), None)
            end) as Hadd.
  { unfold count_ok, bukudb.MaxBookmarks, bukudb.Len in *. unfold bukudb.Add.
    rewrite uint16_small by lia. unfold bukudb.MaxBookmarks.
    rewrite (uint16_small 1000) by lia.
    by rewrite bool_decide_eq_false_2 by lia. }
  split; [|split; [|split]].
  - intros t Ht. by rewrite Hadd, Ht.
  - intros e He. by rewrite Hadd, He.
  - intros Hcont Hnew. rewrite Hadd. unfold sql.insert, bukudb.Len.
    destruct (bukudb.conn db !! (bukudb.len db + 1)) as [r|] eqn:Hr.
    { assert (is_Some (bukudb.conn db !! (bukudb.len db + 1))) as Hs by done.
      apply Hcont in Hs. lia. }
    destruct (sql.url_taken (bukudb.conn db) None (sql.URL row)) eqn:Ht.
    { exfalso. apply Hnew. apply url_taken_true in Ht as (i & r & ? & _ & ?).
      by exists i, r. }
    by eexists.
  - intros db' Hok. apply Add_inv in Hok as (_ & _ & _ & ->); done.
Qed.

(** The full store refuses; a store with count 999 accepts the bookmark,
    and its count becomes 1000. *)
Lemma Add_capacity_limit_witness :
  let b := bukudb.mkBookmark 0 "https://www.e.com" "" [] "" in
  let db999 := bukudb.mkBukuDB (bukudb.conn test_db) 999 in
  bukudb.Add full_db b = (full_db, Some bukudb.ErrMaxReached)
  ∧ bukudb.Add db999 b
    = (bukudb.mkBukuDB
         (<[1000 := sql.mkRow "https://www.e.com" "" "" "" 0]> (bukudb.conn test_db))
         1000, None).
Proof.
  intros b db999. split.
  - refine (proj1 (proj2 (Add_capacity_limit full_db b _)) _).
    + unfold count_ok, bukudb.MaxBookmarks. simpl. lia.
    + unfold bukudb.MaxBookmarks. simpl. lia.
  - refine (proj1 (proj2 (proj2 (Add_capacity_limit db999 b _)) _) _ _).
    + unfold count_ok, bukudb.MaxBookmarks. simpl. lia.
    + unfold bukudb.MaxBookmarks. simpl. lia.
    + by vm_compute.
Defined.

(** C5, as stated, fails: [Add] of a bookmark whose URL is stored returns
    the error of the INSERT statement. *)
Lemma Add_duplicate_url_counterexample :
  let b := bukudb.mkBookmark 0 "https://www.a.com" "" [] "" in
  url_stored test_db (bukudb.URL b) ∧ (bukudb.Add test_db b).2 ≠ None.
Proof.
  split.
  - exists 1, (sql.mkRow "https://www.a.com" "metadata (title) a" ",a,tag2,tag3,"
                          "desc (comment) a" 0). by vm_compute.
  - by vm_compute.
Qed.

(** C5, amended.  [Add] of a bookmark whose URL is already stored creates
    no record and leaves the store, and so [Len()], unchanged, and it
    returns an error to the caller: the capacity error, or the failure of
    the INSERT statement. *)
Theorem Add_duplicate_url (db : bukudb.BukuDB) (b : bukudb.Bookmark) :
  url_stored db (bukudb.URL b) →
  ∃ e, bukudb.Add db b = (db, Some e)
       ∧ (e = bukudb.ErrMaxReached ∨ ∃ c, e = bukudb.ErrInsert c).
Proof.
  intros (id & r & Hr & Hurl). unfold bukudb.Add.
  case_bool_decide as Hcap.
  - exists bukudb.ErrMaxReached. split; [done|]. by left.
  - destruct (insert_duplicate_url (bukudb.conn db)
                (bukudb.uint16 (bukudb.len db + 1))
                (sql.mkRow (bukudb.URL b) (bukudb.Title b)
                           (strings.Join (bukudb.Tags b) ",") (bukudb.Comment b) 0))
      as [c Hins].
    + simpl. apply url_taken_true. exists id, r. done.
    + rewrite Hins. exists (bukudb.ErrInsert c). split; [done|]. right. by exists c.
Qed.

Lemma Add_duplicate_url_witness :
  ∃ e, bukudb.Add test_db (bukudb.mkBookmark 0 "https://www.a.com" "" [] "")
       = (test_db, Some e)
       ∧ (e = bukudb.ErrMaxReached ∨ ∃ c, e = bukudb.ErrInsert c).
Proof.
  apply (Add_duplicate_url test_db (bukudb.mkBookmark 0 "https://www.a.com" "" [] "")).
  exists 1, (sql.mkRow "https://www.a.com" "metadata (title) a" ",a,tag2,tag3,"
                        "desc (comment) a" 0).
  split; reflexivity.
Defined.

(** ** Tags and the delimiter *)

Section split_join.
Import strings.
Variable sep : ascii.

Lemma Split_not_nil s : Split s sep ≠ [].
Proof.
  destruct s as [|c s]; simpl; [done|].
  destruct (Ascii.eqb c sep); [done|]. by destruct (Split s sep).
Qed.

Lemma Split_whole s : has_byte sep s = false → Split s sep = [s].
Proof.
  induction s as [|c s IH]; simpl; [done|].
  destruct (Ascii.eqb c sep); simpl; [done|].
  intros H. by rewrite IH.
Qed.

Lemma Split_app s1 s2 :
  Split (s1 ++ String sep s2) sep = (Split s1 sep ++ Split s2 sep)%list.
Proof.
  induction s1 as [|c s1 IH]; simpl.
  - by rewrite Ascii.eqb_refl.
  - rewrite IH. destruct (Ascii.eqb c sep); [done|].
    pose proof (Split_not_nil s1). by destruct (Split s1 sep).
Qed.

Lemma Split_pieces s x : In x (Split s sep) → has_byte sep x = false.
Proof.
  revert x. induction s as [|c s IH]; simpl; intros x.
  - by intros [<-|[]].
  - destruct (Ascii.eqb c sep) eqn:Hc.
    + intros [<-|Hin]; [done|]. by apply IH.
    + pose proof (Split_not_nil s).
      destruct (Split s sep) as [|y ys]; [done|].
      intros [<-|Hin]; simpl.
      * rewrite Hc. simpl. apply IH. by left.
      * apply IH. by right.
Qed.

Lemma Split_Join l :
  l ≠ [] → Forall (λ t, has_byte sep t = false) l →
  Split (Join l (String sep "")) sep = l.
Proof.
  intros Hne Hall. induction Hall as [|x l Hx Hall IH]; [done|].
  destruct l as [|y l].
  - simpl. by apply Split_whole.
  - change (Join (x :: y :: l) (String sep ""))
      with (x ++ String sep (Join (y :: l) (String sep ""))).
    rewrite Split_app, IH by done. by rewrite Split_whole.
Qed.
End split_join.

Section tag_codec.
Import bukudb strings.

Lemma filter_List_filter l p : filter l p = List.filter p l.
Proof. induction l as [|x l IH]; simpl; [done|]. by rewrite IH. Qed.

Lemma filter_nonempty_id l :
  Forall (λ t, t ≠ "") l → filter l nonempty = l.
Proof.
  induction 1 as [|x l Hx _ IH]; simpl; [done|].
  unfold nonempty at 1. apply String.eqb_neq in Hx. rewrite Hx. simpl.
  by rewrite IH.
Qed.

Lemma Contains_In l v : slices.Contains l v = true ↔ In v l.
Proof.
  induction l as [|x l IH]; simpl; [by split|].
  destruct (String.eqb_spec x v) as [->|Hne].
  - split; [by left|done].
  - rewrite IH. split; [by right|]. by intros [?|?].
Qed.

(** What [Get] reads back from a column written by [Add]. *)
Lemma get_tags_Join l : Forall tag_ok l → get_tags (Join l ",") = l.
Proof.
  intros Hok. unfold get_tags.
  destruct l as [|x l]; [done|].
  assert (Split (Join (x :: l) ",") "," = x :: l) as Hsplit.
  { apply Split_Join; [done|]. eapply Forall_impl; [done|]. by intros ? [_ ?]. }
  rewrite Hsplit.
  destruct (String.eqb_spec (Join (x :: l) ",") ",") as [Heq|_].
  - exfalso. rewrite Heq in Hsplit. simpl in Hsplit.
    apply Forall_cons_1 in Hok as [[Hx _] _]. by simplify_eq.
  - apply filter_nonempty_id. eapply Forall_impl; [done|]. by intros ? [? _].
Qed.

(** What [Get] reads back from a column written by [AddTags] or
    [RemoveTags]. *)
Lemma get_tags_wrapped l :
  Forall (λ t, has_byte "," t = false) l →
  get_tags ("," ++ Join l "," ++ ",") = filter l nonempty.
Proof.
  intros Hok. unfold get_tags.
  destruct (String.eqb_spec ("," ++ Join l "," ++ ",") ",") as [Heq|_].
  { exfalso. simpl in Heq. injection Heq as Heq. by destruct (Join l ","). }
  change ("," ++ Join l "," ++ ",") with ("" ++ String "," (Join l "," ++ String "," "")).
  rewrite !Split_app. simpl Split at 1 3.
  destruct l as [|x l]; [done|].
  rewrite Split_Join by done.
  rewrite !filter_List_filter. simpl. rewrite List.filter_app. simpl.
  by rewrite app_nil_r.
Qed.
End tag_codec.

(** ** The sort *)

Section sort_facts.
Import sort.
Context {A : Type} (less : A → A → bool).

Hypothesis less_asym : ∀ x y, less x y = true → less y x = false.

Lemma insert_left_perm x rp : insert_left less x rp ≡ₚ x :: rp.
Proof.
  induction rp as [|y rp IH]; simpl; [done|].
  destruct (less x y); [|done]. rewrite IH. apply perm_swap.
Qed.

Lemma Slice_from_perm rp l : Slice_from less rp l ≡ₚ (rp ++ l)%list.
Proof.
  revert rp. induction l as [|x l IH]; intros rp; simpl.
  - rewrite app_nil_r. symmetry. apply Permutation_rev.
  - rewrite IH, insert_left_perm. apply Permutation_middle.
Qed.

Lemma Slice_perm l : Slice less l ≡ₚ l.
Proof. apply Slice_from_perm. Qed.

Lemma insert_left_sorted x rp :
  Sorted (not_less less) rp → Sorted (not_less less) (insert_left less x rp).
Proof.
  induction 1 as [|y rp Hs IH Hhd]; simpl.
  - by repeat constructor.
  - destruct (less x y) eqn:Hxy.
    + constructor; [done|].
      destruct Hhd as [|z rp Hyz]; simpl.
      * constructor. by apply less_asym.
      * destruct (less x z); constructor; [done|]. by apply less_asym.
    + by repeat constructor.
Qed.

Lemma Sorted_rev (R : relation A) l : Sorted R l → Sorted (flip R) (rev l).
Proof.
  intros H. apply Sorted_reverse in H. unfold reverse in H.
  by rewrite <-rev_alt in H.
Qed.

Lemma Slice_from_sorted rp l :
  Sorted (not_less less) rp → Sorted (flip (not_less less)) (Slice_from less rp l).
Proof.
  revert rp. induction l as [|x l IH]; intros rp Hrp; simpl.
  - by apply Sorted_rev.
  - by apply IH, insert_left_sorted.
Qed.

(** The output has no element [less] than its left neighbour. *)
Lemma Slice_sorted l : Sorted (flip (not_less less)) (Slice less l).
Proof. apply Slice_from_sorted. constructor. Qed.
End sort_facts.

Section sort_sorted_input.
Import sort.
Context {A : Type} (less : A → A → bool).

Lemma Sorted_app_adjacent (R : relation A) l1 y x l2 :
  Sorted R (l1 ++ y :: x :: l2)%list → R y x.
Proof.
  induction l1 as [|z l1 IH]; simpl; intros Hs.
  - apply Sorted_inv in Hs as [_ Hhd]. by apply HdRel_inv in Hhd.
  - apply Sorted_inv in Hs as [Hs _]. by apply IH.
Qed.

Lemma Slice_from_id rp l :
  Sorted (flip (not_less less)) (rev rp ++ l)%list →
  Slice_from less rp l = (rev rp ++ l)%list.
Proof.
  revert rp. induction l as [|x l IH]; intros rp Hs; simpl.
  - by rewrite app_nil_r.
  - assert (insert_left less x rp = x :: rp) as ->.
    { destruct rp as [|y rp]; [done|]. simpl in *.
      rewrite <-app_assoc in Hs. simpl in Hs.
      apply Sorted_app_adjacent in Hs. unfold flip, not_less in Hs.
      by rewrite Hs. }
    rewrite IH; simpl; rewrite <-app_assoc; done.
Qed.

(** A slice that is already in order is left as it is. *)
Lemma Slice_id l : Sorted (flip (not_less less)) l → Slice less l = l.
Proof. intros Hs. by apply (Slice_from_id []). Qed.
End sort_sorted_input.

(** ** Remove *)

Section remove_facts.
Import bukudb.
Implicit Types (db : BukuDB) (t : gmap Z sql.Row).

(** The loop closes a hole at [i] by moving the [n] rows above it down. *)
Lemma renumber_shifts n : ∀ i t,
  t !! i = None →
  (∀ k, i < k ≤ i + Z.of_nat n → is_Some (t !! k)) →
  ∃ t', renumber n i t = (t', None) ∧
        ∀ j, t' !! j = if bool_decide (i ≤ j < i + Z.of_nat n) then t !! (j + 1)
                       else if bool_decide (j = i + Z.of_nat n) then None
                       else t !! j.
Proof.
  induction n as [|n IH]; intros i t Hhole Hrows.
  - exists t. split; [done|]. intros j.
    rewrite bool_decide_eq_false_2 by lia. case_bool_decide; [|done].
    subst j. by rewrite Z.add_0_r.
  - destruct (Hrows (i + 1)) as [r Hr]; [lia|].
    simpl. unfold sql.update_id. rewrite Hr.
    rewrite bool_decide_eq_false_2 by lia. rewrite Hhole.
    destruct (IH (i + 1) (<[i := r]> (delete (i + 1) t))) as (t' & Hrun & Ht').
    { rewrite lookup_insert_ne, lookup_delete_eq by lia. done. }
    { intros k Hk. rewrite lookup_insert_ne, lookup_delete_ne by lia.
      apply Hrows. lia. }
    exists t'. split; [done|]. intros j. rewrite Ht'.
    repeat case_bool_decide; try lia; try done.
    + rewrite lookup_insert_ne, lookup_delete_ne by lia. done.
    + assert (j = i) as -> by lia. by rewrite lookup_insert_eq.
    + rewrite lookup_insert_ne, lookup_delete_ne by lia. done.
Qed.

Lemma Remove_in_range db id :
  contiguous db → count_ok db → 1 ≤ id ≤ len db →
  ∃ t', Remove db id = (mkBukuDB t' (len db - 1), None) ∧
        ∀ j, t' !! j = if bool_decide (j < id) then conn db !! j
                       else conn db !! (j + 1).
Proof.
  unfold contiguous, count_ok, MaxBookmarks. intros Hcont Hc Hid. unfold Remove.
  rewrite uint16_small by lia.
  rewrite (bool_decide_eq_false_2 (id < 1)) by lia.
  rewrite (bool_decide_eq_false_2 (id - 1 >= len db)) by lia.
  simpl. replace (id - 1 + 1) with id by lia.
  destruct (renumber_shifts (Z.to_nat (len db - id)) id (delete id (conn db)))
    as (t' & -> & Ht').
  { apply lookup_delete_eq. }
  { intros k Hk. rewrite lookup_delete_ne by lia. apply Hcont. lia. }
  exists t'. split; [done|]. intros j. rewrite Ht'.
  rewrite Z2Nat.id by lia.
  assert (∀ k, ¬ (1 ≤ k ≤ len db) → conn db !! k = None) as Hout.
  { intros k Hk. apply eq_None_not_Some. by rewrite Hcont. }
  repeat case_bool_decide; try lia.
  all: rewrite ?lookup_delete_ne by lia; rewrite ?Hout by lia; done.
Qed.

Lemma Remove_out_of_range db id :
  0 ≤ id < 65536 → ¬ (1 ≤ id ≤ len db) →
  Remove db id = (db, Some (ErrIdOutOfRange id (len db))).
Proof.
  intros Hty Hid. unfold Remove.
  destruct (bool_decide (id < 1)) eqn:H1; [done|].
  apply bool_decide_eq_false in H1.
  rewrite uint16_small by lia.
  rewrite bool_decide_eq_true_2 by lia. done.
Qed.
End remove_facts.

(** ** The partition of the id range *)

Section tiling.
Import bukudb.

(** [(maxID + numWorkers - 1) / numWorkers] is the ceiling of
    [maxID / numWorkers]. *)
Lemma entriesPerWorker_ceil N W :
  0 ≤ N → 1 ≤ W →
  let epw := (N + W - 1) ÷ W in
  W * (epw - 1) < N ≤ W * epw.
Proof.
  intros HN HW epw. subst epw.
  rewrite Z.quot_div_nonneg by lia.
  pose proof (Z.div_mod (N + W - 1) W ltac:(lia)).
  pose proof (Z.mod_pos_bound (N + W - 1) W ltac:(lia)). nia.
Qed.

Lemma worker_ids_prefix N epw (k : nat) :
  0 ≤ N → 0 ≤ epw →
  concat (worker_ids N epw <$> seqZ 0 (Z.of_nat k))
  = seqZ 1 (Z.min (Z.of_nat k * epw) N).
Proof.
  intros HN Hepw. induction k as [|k IH].
  - simpl. by rewrite seqZ_nil by lia.
  - rewrite seqZ_S, fmap_app, concat_app, IH. simpl.
    rewrite app_nil_r. unfold worker_ids, worker_range.
    rewrite Z.add_0_l.
    destruct (decide (N ≤ Z.of_nat k * epw)) as [Hfull|Hmore].
    + rewrite (seqZ_nil (_ + 1)) by (case_bool_decide; lia).
      rewrite app_nil_r. f_equal. lia.
    + replace (Z.min (Z.of_nat (S k) * epw) N)
        with (Z.min (Z.of_nat k * epw) N
              + ((if bool_decide ((Z.of_nat k + 1) * epw > N) then N
                  else (Z.of_nat k + 1) * epw)
                 - (Z.of_nat k * epw + 1) + 1))
        by (case_bool_decide; lia).
      assert (0 ≤ Z.of_nat k * epw) by nia.
      rewrite (seqZ_app 1) by (try case_bool_decide; lia).
      do 2 f_equal. lia.
Qed.

(** The ranges of the workers, in worker order, list [1..N]: each id
    once and nothing else. *)
Lemma worker_ids_tile N W :
  0 ≤ N → 1 ≤ W →
  concat (worker_ids N ((N + W - 1) ÷ W) <$> seqZ 0 W) = seqZ 1 N.
Proof.
  intros HN HW. pose proof (entriesPerWorker_ceil N W HN HW) as Hceil.
  simpl in Hceil.
  rewrite <-(Z2Nat.id W) at 3 by lia.
  rewrite worker_ids_prefix by nia.
  f_equal. rewrite Z2Nat.id by lia. lia.
Qed.

(** Each id of [1..N] lies in the range of exactly one worker, and the
    ranges hold no other id. *)
Lemma worker_range_unique N W id :
  0 ≤ N → 1 ≤ W →
  let epw := (N + W - 1) ÷ W in
  (1 ≤ id ≤ N ↔
   ∃ i, 0 ≤ i < W ∧ (worker_range N epw i).1 ≤ id ≤ (worker_range N epw i).2)
  ∧ ∀ i j, 0 ≤ i < W → 0 ≤ j < W →
      (worker_range N epw i).1 ≤ id ≤ (worker_range N epw i).2 →
      (worker_range N epw j).1 ≤ id ≤ (worker_range N epw j).2 → i = j.
Proof.
  intros HN HW epw. pose proof (entriesPerWorker_ceil N W HN HW) as Hceil.
  simpl in Hceil. fold epw in Hceil. clearbody epw.
  unfold worker_range. simpl. split; [split|].
  - intros Hid. assert (0 < epw) by nia.
    exists ((id - 1) `div` epw).
    pose proof (Z.div_mod (id - 1) epw ltac:(lia)).
    pose proof (Z.mod_pos_bound (id - 1) epw ltac:(lia)).
    assert (0 ≤ (id - 1) `div` epw) by (apply Z.div_pos; lia).
    split; [nia|]. case_bool_decide; nia.
  - intros (i & Hi & Hlo & Hhi). assert (0 ≤ epw) by nia.
    split; [nia|]. revert Hhi. case_bool_decide; nia.
  - intros i j Hi Hj [Hilo Hihi] [Hjlo Hjhi].
    assert (id ≤ (i + 1) * epw ∧ id ≤ (j + 1) * epw) as [??].
    { revert Hihi Hjhi. repeat case_bool_decide; lia. }
    nia.
Qed.
End tiling.

(** ** The loader *)

Section loader_facts.
Import bukudb.
Implicit Types (t : gmap Z sql.Row) (b : Bookmark).

Lemma select_between_rows_at t lo hi :
  sql.select_between t lo hi = rows_at t (seqZ lo (hi - lo + 1)).
Proof. done. Qed.

Lemma rows_at_app t (l1 l2 : list Z) :
  rows_at t (l1 ++ l2) = (rows_at t l1 ++ rows_at t l2)%list.
Proof. apply omap_app. Qed.

Lemma elem_of_rows_at t ids i r :
  (i, r) ∈ rows_at t ids ↔ i ∈ ids ∧ t !! i = Some r.
Proof.
  unfold rows_at. rewrite list_elem_of_omap. split.
  - intros (j & Hj & Hjr). destruct (t !! j) as [r'|] eqn:Hl; simplify_eq/=. done.
  - intros [Hi Hr]. exists i. by rewrite Hr.
Qed.

Lemma rows_at_keys_sorted t ids :
  StronglySorted Z.lt ids → StronglySorted Z.lt (rows_at t ids).*1.
Proof.
  induction 1 as [|i ids Hs IH Hall]; simpl; [constructor|].
  change (rows_at t (i :: ids))
    with (match (λ r, (i, r)) <$> t !! i with
          | Some kr => kr :: rows_at t ids | None => rows_at t ids end).
  destruct (t !! i) as [r|]; simpl; [|done].
  constructor; [done|]. apply Forall_forall. intros j Hj.
  apply list_elem_of_fmap in Hj as ([j' r'] & -> & Hin).
  apply elem_of_rows_at in Hin as [Hin _]. simpl.
  rewrite Forall_forall in Hall. by apply Hall.
Qed.

Lemma seqZ_sorted m n : StronglySorted Z.lt (seqZ m n).
Proof.
  destruct (decide (0 ≤ n)) as [Hn|Hn]; [|rewrite seqZ_nil by lia; constructor].
  rewrite <-(Z2Nat.id n) by done. clear Hn. generalize (Z.to_nat n). clear n.
  intros n. revert m. induction n as [|n IH]; intros m.
  - rewrite seqZ_nil by lia. constructor.
  - rewrite seqZ_cons by lia. constructor.
    + replace (Z.pred (Z.of_nat (S n))) with (Z.of_nat n) by lia. apply IH.
    + apply Forall_seqZ. lia.
Qed.

Lemma scan_rows_ok rows :
  Forall (λ kr : Z * sql.Row, 0 ≤ kr.1 < 65536) rows →
  scan_rows rows = inr (range_bookmark <$> rows).
Proof.
  induction 1 as [|kr rows Hkr _ IH]; simpl; [done|].
  unfold scan_range_row, sql.scan_uint16.
  rewrite bool_decide_eq_true_2 by done. by rewrite IH.
Qed.

Lemma processBookmarkRange_ok t lo hi :
  1 ≤ lo → hi < 65536 →
  processBookmarkRange t lo hi
  = inr (range_bookmark <$> rows_at t (seqZ lo (hi - lo + 1))).
Proof.
  intros Hlo Hhi. unfold processBookmarkRange.
  rewrite select_between_rows_at. apply scan_rows_ok.
  apply Forall_forall. intros [i r] Hin.
  apply elem_of_rows_at in Hin as [Hin _].
  apply elem_of_seqZ in Hin. simpl. lia.
Qed.

Lemma run_workers_ok t N epw (ws : list Z) :
  0 ≤ N < 65536 → 0 ≤ epw → Forall (λ i, 0 ≤ i) ws →
  run_workers t (worker_range N epw <$> ws)
  = inr ((λ i, range_bookmark <$> rows_at t (worker_ids N epw i)) <$> ws).
Proof.
  intros HN Hepw. induction 1 as [|i ws Hi _ IH]; [done|].
  rewrite !fmap_cons.
  change (run_workers t (worker_range N epw i :: (worker_range N epw <$> ws)))
    with (let '(start, end_) := worker_range N epw i in
          match processBookmarkRange t start end_ with
          | inl e => inl (ErrProcessRange e)
          | inr bs => match run_workers t (worker_range N epw <$> ws) with
                      | inl e => inl e
                      | inr outs => inr (bs :: outs)
                      end
          end).
  unfold worker_ids. destruct (worker_range N epw i) as [start end_] eqn:Hr.
  unfold worker_range in Hr. injection Hr as <- <-.
  rewrite processBookmarkRange_ok, IH; [done| |].
  - nia.
  - case_bool_decide; lia.
Qed.
End loader_facts.

Section sorted_by_key.
Context {A : Type} (key : A → Z).

Lemma Sorted_mono (R R' : relation A) l :
  (∀ x y, R x y → R' x y) → Sorted R l → Sorted R' l.
Proof.
  intros HR. induction 1 as [|x l Hs IH Hhd]; constructor; [done|].
  destruct Hhd; constructor. by apply HR.
Qed.

Lemma keys_sorted_NoDup l : StronglySorted Z.lt (key <$> l) → NoDup (key <$> l).
Proof.
  induction l as [|x l IH]; simpl; intros Hs; [constructor|].
  apply StronglySorted_inv in Hs as [Hs Hall]. constructor; [|by apply IH].
  intros Hin. rewrite Forall_forall in Hall. apply Hall in Hin. lia.
Qed.

Lemma keys_sorted_le l :
  StronglySorted Z.lt (key <$> l) → Sorted (λ a b, key a ≤ key b) l.
Proof.
  induction l as [|x l IH]; simpl; intros Hs; [constructor|].
  apply StronglySorted_inv in Hs as [Hs Hall]. constructor; [by apply IH|].
  destruct l as [|y l]; constructor. apply Forall_cons_1 in Hall as [? _]. lia.
Qed.

Lemma NoDup_keys_inj l x y :
  NoDup (key <$> l) → x ∈ l → y ∈ l → key x = key y → x = y.
Proof.
  induction l as [|z l IH]; simpl; intros Hnd Hx Hy Hk; [by inv Hx|].
  apply NoDup_cons in Hnd as [Hz Hnd].
  inv Hx; inv Hy; try done.
  - exfalso. apply Hz. rewrite Hk. by apply list_elem_of_fmap_2.
  - exfalso. apply Hz. rewrite <-Hk. by apply list_elem_of_fmap_2.
  - by apply IH.
Qed.

(** Sorting by a key without repetition has one result. *)
Lemma Slice_by_key l sorted :
  l ≡ₚ sorted → StronglySorted Z.lt (key <$> sorted) →
  sort.Slice (λ a b, (key a <? key b)%Z) l = sorted.
Proof.
  intros Hperm Hs.
  assert (Transitive (λ a b : A, key a ≤ key b)) by (intros x y z; lia).
  apply (Sorted_unique_strong (λ a b, key a ≤ key b)).
  - intros x1 x2 Hx1 Hx2 H12 H21.
    apply (NoDup_keys_inj sorted); [by apply keys_sorted_NoDup| |done|lia].
    by rewrite <-Hperm, <-(Slice_perm (λ a b, (key a <? key b)%Z) l).
  - eapply Sorted_mono; [|apply Slice_sorted].
    + unfold flip, not_less. intros x y Hxy. lia.
    + intros x y Hxy. lia.
  - by apply keys_sorted_le.
  - by rewrite Slice_perm.
Qed.
End sorted_by_key.

Section getall_facts.
Import bukudb.
Variable rt : Runtime.
Hypothesis rt_ok : runtime_ok rt.

Lemma shared_map_entries (l : list Bookmark) (m : gmap Z Bookmark) :
  NoDup (ID <$> l) → (∀ b, b ∈ l → m !! ID b = None) →
  map_to_list (foldl (λ m b, <[ID b := b]> m) m l)
  ≡ₚ (((λ b, (ID b, b)) <$> l) ++ map_to_list m)%list.
Proof.
  revert m. induction l as [|x l IH]; intros m Hnd Hfresh; simpl; [done|].
  apply NoDup_cons in Hnd as [Hx Hnd].
  rewrite IH; [|done|].
  - rewrite map_to_list_insert by (apply Hfresh; left).
    by rewrite Permutation_middle.
  - intros b Hb. rewrite lookup_insert_ne.
    + apply Hfresh. by right.
    + intros Heq. apply Hx. rewrite Heq. by apply list_elem_of_fmap_2.
Qed.

Lemma shared_map_values (l : list Bookmark) :
  NoDup (ID <$> l) →
  (map_to_list (foldl (λ m b, <[ID b := b]> m) (∅ : gmap Z Bookmark) l)).*2 ≡ₚ l.
Proof.
  intros Hnd. rewrite shared_map_entries; [|done|by intros; apply lookup_empty].
  rewrite map_to_list_empty, app_nil_r, <-list_fmap_compose.
  by rewrite list_fmap_id.
Qed.

Lemma concat_worker_outputs t N epw (ws : list Z) :
  concat ((λ i, range_bookmark <$> rows_at t (worker_ids N epw i)) <$> ws)
  = range_bookmark <$> rows_at t (concat (worker_ids N epw <$> ws)).
Proof.
  induction ws as [|i ws IH]; [done|].
  by rewrite !fmap_cons, !concat_cons, rows_at_app, fmap_app, IH.
Qed.

(** [loadBookmarks] returns the rows with ids in [1..maxID], decoded, in
    ascending order of id, whatever the order of the writes. *)
Lemma loadBookmarks_sorted_rows t N :
  0 ≤ N < 65536 →
  loadBookmarks rt t N
  = inr (range_bookmark <$> rows_at t (seqZ 1 N)).
Proof.
  intros HN. unfold loadBookmarks.
  destruct rt_ok as (NumCPU_pos & schedule_perm & range_perm).
  pose proof (entriesPerWorker_ceil N (NumCPU rt) ltac:(lia) NumCPU_pos) as Hceil.
  simpl in Hceil.
  rewrite run_workers_ok; [|done|nia|by apply Forall_seqZ; lia].
  f_equal. apply Slice_by_key.
  - assert (concat ((λ i, range_bookmark <$>
                          rows_at t (worker_ids N ((N + NumCPU rt - 1) ÷ NumCPU rt) i))
                    <$> seqZ 0 (NumCPU rt))
            = range_bookmark <$> rows_at t (seqZ 1 N)) as Hcat.
    { rewrite concat_worker_outputs, worker_ids_tile by lia. done. }
    rewrite range_perm, shared_map_values.
    + by rewrite schedule_perm, Hcat.
    + rewrite schedule_perm, Hcat, <-list_fmap_compose.
      apply (keys_sorted_NoDup fst), rows_at_keys_sorted, seqZ_sorted.
  - rewrite <-list_fmap_compose.
    apply (rows_at_keys_sorted t), seqZ_sorted.
Qed.
End getall_facts.

Section getall_contiguous.
Import bukudb.
Implicit Types (t : gmap Z sql.Row).

Lemma rows_at_cons_Some t i ids r :
  t !! i = Some r → rows_at t (i :: ids) = (i, r) :: rows_at t ids.
Proof. intros Hr. unfold rows_at. simpl. by rewrite Hr. Qed.

Lemma rows_at_all t ids :
  Forall (λ i, is_Some (t !! i)) ids → (rows_at t ids).*1 = ids.
Proof.
  induction 1 as [|i ids [r Hr] _ IH]; [done|].
  by rewrite (rows_at_cons_Some _ _ _ r), fmap_cons, IH.
Qed.

Lemma rows_at_lookup t ids k i r :
  Forall (λ i, is_Some (t !! i)) ids →
  ids !! k = Some i → t !! i = Some r → rows_at t ids !! k = Some (i, r).
Proof.
  intros Hall. revert k. induction Hall as [|j ids [r' Hr'] _ IH]; intros k Hk Hr.
  - done.
  - rewrite (rows_at_cons_Some _ _ _ r') by done.
    destruct k as [|k]; simpl in Hk |- *.
    + by simplify_eq.
    + by apply IH.
Qed.

Lemma GetAll_contiguous rt db :
  runtime_ok rt → contiguous db → count_ok db →
  ∃ bs, GetAll rt db = inr bs
        ∧ ID <$> bs = seqZ 1 (len db)
        ∧ ∀ id r, conn db !! id = Some r →
            bs !! Z.to_nat (id - 1) = Some (range_bookmark (id, r)).
Proof.
  unfold contiguous, count_ok, MaxBookmarks. intros Hrt Hcont Hc.
  assert (Forall (λ i, is_Some (conn db !! i)) (seqZ 1 (len db))) as Hall.
  { apply Forall_seqZ. intros i Hi. apply Hcont. lia. }
  eexists. split; [|split].
  - unfold GetAll. apply loadBookmarks_sorted_rows; [done..|lia].
  - rewrite <-list_fmap_compose. by apply (rows_at_all (conn db)).
  - intros id r Hr. rewrite list_lookup_fmap.
    assert (1 ≤ id ≤ len db) as Hid by (by apply Hcont).
    erewrite rows_at_lookup; [done|done| |done].
    apply lookup_seqZ. split; lia.
Qed.
End getall_contiguous.

Section invariant.
Import bukudb.

Lemma Add_preserves db b :
  contiguous db → count_ok db →
  contiguous (Add db b).1 ∧ count_ok (Add db b).1.
Proof.
  intros Hcont Hc. destruct (Add db b) as [db' [e|]] eqn:Hadd.
  - apply Add_failed_unchanged in Hadd as ->. done.
  - apply Add_inv in Hadd as (Hcap & _ & _ & ->); [|done].
    unfold contiguous, count_ok in *. simpl. split; [|lia].
    intros id. destruct (decide (id = len db + 1)) as [->|Hne].
    + rewrite lookup_insert_eq. split; [lia|by eexists].
    + rewrite lookup_insert_ne, Hcont by done. lia.
Qed.

Lemma Remove_preserves db id :
  0 ≤ id < 65536 → contiguous db → count_ok db →
  contiguous (Remove db id).1 ∧ count_ok (Remove db id).1.
Proof.
  intros Hty Hcont Hc. destruct (decide (1 ≤ id ≤ len db)) as [Hid|Hid].
  - destruct (Remove_in_range db id Hcont Hc Hid) as (t' & -> & Ht').
    unfold contiguous, count_ok in *. simpl. split; [|lia].
    intros j. rewrite Ht'. case_bool_decide; rewrite Hcont; lia.
  - by rewrite Remove_out_of_range.
Qed.

Lemma exec_preserves db c :
  call_typed c → contiguous db → count_ok db →
  contiguous (exec db c).1 ∧ count_ok (exec db c).1.
Proof.
  destruct c as [b|id]; simpl; intros Hty ??.
  - by apply Add_preserves.
  - by apply Remove_preserves.
Qed.

Lemma run_preserves calls : ∀ db,
  Forall call_typed calls → contiguous db → count_ok db →
  contiguous (run db calls) ∧ count_ok (run db calls).
Proof.
  induction calls as [|c calls IH]; intros db Hty Hcont Hc; [done|].
  apply Forall_cons_1 in Hty as [Hc1 Hty].
  destruct (exec_preserves db c) as [??]; [done..|].
  by apply IH.
Qed.
End invariant.

(** ** The runtimes and stores of the scenarios *)

Lemma in_order_ok (W : Z) : 1 ≤ W → runtime_ok (in_order W).
Proof. intros HW. by repeat split. Qed.

Lemma last_first_ok (W : Z) : 1 ≤ W → runtime_ok (last_first W).
Proof.
  intros HW. split; [done|]. split; simpl.
  - intros outs. induction outs as [|o outs IH]; [done|].
    rewrite reverse_cons, concat_app, IH. simpl. rewrite app_nil_r.
    apply Permutation_app_comm.
  - intros m. apply reverse_Permutation.
Qed.

Lemma contiguous_dom (db : bukudb.BukuDB) :
  dom (bukudb.conn db) = list_to_set (seqZ 1 (bukudb.len db)) → contiguous db.
Proof.
  intros Hdom id. rewrite <-elem_of_dom, Hdom, elem_of_list_to_set, elem_of_seqZ.
  lia.
Qed.

(** C1 (contiguity invariant).  Start from a store whose persisted ids
    are exactly [1..N] with cached count [N].  After every call of a
    sequence of [Add] and [Remove] calls that returns no error, the
    persisted ids are exactly [1..Len()], and [GetAll] returns bookmarks
    whose ids are [1, ..., Len()]. *)
Theorem contiguity_invariant
    (rt : bukudb.Runtime)
    (db : bukudb.BukuDB) (calls : list call) (c : call) (db' : bukudb.BukuDB) :
  runtime_ok rt →
  contiguous db → count_ok db →
  Forall call_typed calls → call_typed c →
  exec (run db calls) c = (db', None) →
  (∀ id, is_Some (bukudb.conn db' !! id) ↔ 1 ≤ id ≤ bukudb.Len db')
  ∧ ∃ bs, bukudb.GetAll rt db' = inr bs
          ∧ bukudb.ID <$> bs = seqZ 1 (bukudb.Len db').
Proof.
  intros Hrt Hcont Hc Htys Hty Hexec.
  destruct (run_preserves calls db) as [Hcont1 Hc1]; [done..|].
  destruct (exec_preserves (run db calls) c) as [Hcont2 Hc2]; [done..|].
  rewrite Hexec in Hcont2, Hc2. simpl in *.
  split; [done|].
  destruct (GetAll_contiguous rt db') as (bs & ? & ? & _); [done..|].
  by exists bs.
Qed.

Lemma contiguity_invariant_witness :
  let db' := (exec (run test_db
                      [CallAdd (bukudb.mkBookmark 0 "https://www.e.com" "" ["e"] "");
                       CallRemove 2])
                   (CallRemove 1)).1 in
  (∀ id, is_Some (bukudb.conn db' !! id) ↔ 1 ≤ id ≤ bukudb.Len db')
  ∧ ∃ bs, bukudb.GetAll (in_order 3) db' = inr bs
          ∧ bukudb.ID <$> bs = seqZ 1 (bukudb.Len db').
Proof.
  intros db'.
  apply (contiguity_invariant (in_order 3) test_db
           [CallAdd (bukudb.mkBookmark 0 "https://www.e.com" "" ["e"] "");
            CallRemove 2]
           (CallRemove 1) db').
  - apply in_order_ok. lia.
  - apply contiguous_dom. by vm_compute.
  - unfold count_ok, bukudb.MaxBookmarks. simpl. lia.
  - repeat constructor; simpl; lia.
  - simpl. lia.
  - by vm_compute.
Defined.

(** C2 (Remove renumbering).  On a store with records at ids [1..N] and
    [id] in [1..N], [Remove(id)] returns no error; it leaves every record
    with a smaller id as it was, moves the record that had id [j+1], for
    [j+1] in [(id, N]], to id [j] with its url, title, tags and comment, and
    leaves no record at [N]; [Len()] is [N-1]. *)
Theorem Remove_renumbers (db : bukudb.BukuDB) (id : Z) :
  contiguous db → count_ok db → 1 ≤ id ≤ bukudb.Len db →
  ∃ db', bukudb.Remove db id = (db', None)
    ∧ bukudb.Len db' = bukudb.Len db - 1
    ∧ (∀ j, 1 ≤ j < id →
         bukudb.conn db' !! j = bukudb.conn db !! j
         ∧ bukudb.Get db' j = bukudb.Get db j)
    ∧ (∀ j, id ≤ j < bukudb.Len db →
         bukudb.conn db' !! j = bukudb.conn db !! (j + 1)
         ∧ ∃ b, bukudb.Get db (j + 1) = inr b
                ∧ bukudb.Get db' j
                  = inr (bukudb.mkBookmark j (bukudb.URL b) (bukudb.Title b)
                                           (bukudb.Tags b) (bukudb.Comment b)))
    ∧ (∀ j, bukudb.Len db ≤ j → bukudb.conn db' !! j = None).
Proof.
  intros Hcont Hc Hid. unfold bukudb.Len in *.
  destruct (Remove_in_range db id Hcont Hc Hid) as (t' & Hrm & Ht').
  eexists. split; [exact Hrm|]. simpl.
  unfold contiguous, count_ok, bukudb.MaxBookmarks in *.
  split; [done|]. split; [|split].
  - intros j Hj. rewrite Ht', bool_decide_eq_true_2 by lia. split; [done|].
    destruct (proj2 (Hcont j)) as [r Hr]; [lia|].
    rewrite !(Get_in_range _ j r); simpl; rewrite ?Ht', ?bool_decide_eq_true_2;
      done || lia.
  - intros j Hj. rewrite Ht', bool_decide_eq_false_2 by lia. split; [done|].
    destruct (proj2 (Hcont (j + 1))) as [r Hr]; [lia|].
    eexists. split; [apply (Get_in_range _ (j + 1) r); done || lia|].
    rewrite (Get_in_range _ j r); simpl; rewrite ?Ht', ?bool_decide_eq_false_2;
      done || lia.
  - intros j Hj. rewrite Ht', bool_decide_eq_false_2 by lia.
    apply eq_None_not_Some. rewrite Hcont. lia.
Qed.

Lemma Remove_renumbers_witness :
  ∃ db', bukudb.Remove abcd_db 2 = (db', None)
    ∧ bukudb.Len db' = bukudb.Len abcd_db - 1
    ∧ (∀ j, 1 ≤ j < 2 →
         bukudb.conn db' !! j = bukudb.conn abcd_db !! j
         ∧ bukudb.Get db' j = bukudb.Get abcd_db j)
    ∧ (∀ j, 2 ≤ j < bukudb.Len abcd_db →
         bukudb.conn db' !! j = bukudb.conn abcd_db !! (j + 1)
         ∧ ∃ b, bukudb.Get abcd_db (j + 1) = inr b
                ∧ bukudb.Get db' j
                  = inr (bukudb.mkBookmark j (bukudb.URL b) (bukudb.Title b)
                                           (bukudb.Tags b) (bukudb.Comment b)))
    ∧ (∀ j, bukudb.Len abcd_db ≤ j → bukudb.conn db' !! j = None).
Proof.
  apply (Remove_renumbers abcd_db 2).
  - apply contiguous_dom. by vm_compute.
  - unfold count_ok, bukudb.MaxBookmarks. simpl. lia.
  - simpl. lia.
Defined.

(** The scenario itself: after [Remove(2)], [Len()] is 3, the urls at ids
    1, 2, 3 are a, c, d, and [GetAll] returns these three in order. *)
Example delete_then_reload :
  let db' := (bukudb.Remove abcd_db 2).1 in
  bukudb.Len db' = 3
  ∧ bukudb.Get db' 1 = inr (bukudb.mkBookmark 1 "a" "" [] "")
  ∧ bukudb.Get db' 2 = inr (bukudb.mkBookmark 2 "c" "" [] "")
  ∧ bukudb.Get db' 3 = inr (bukudb.mkBookmark 3 "d" "" [] "")
  ∧ bukudb.GetAll (last_first 2) db'
    = inr [bukudb.mkBookmark 1 "a" "" [] ""; bukudb.mkBookmark 2 "c" "" [] "";
           bukudb.mkBookmark 3 "d" "" [] ""].
Proof. by vm_compute. Qed.

Example worker_ranges_7_3 :
  bukudb.worker_range 7 ((7 + 3 - 1) ÷ 3) <$> seqZ 0 3 = [(1, 3); (4, 6); (7, 7)].
Proof. reflexivity. Qed.

Example worker_ranges_2_4 :
  bukudb.worker_range 2 ((2 + 4 - 1) ÷ 4) <$> seqZ 0 4
  = [(1, 1); (2, 2); (3, 2); (4, 2)].
Proof. reflexivity. Qed.

(** C7 (partition tiling and ordering).  With [W >= 1] workers and
    [perWorker = ceil(N / W)], worker [i] of [0..W-1] loads the ids
    [i*perWorker+1 .. min((i+1)*perWorker, N)]; listed in worker order these
    ranges are exactly [1, ..., N], and every id of [1..N] is in the range of
    exactly one worker, whether or not [W] divides [N] and also when
    [W > N].  On a store with ids [1..N], [GetAll] returns the [N] bookmarks
    in ascending order of id, whatever the order in which the workers'
    writes reached the shared map. *)
Theorem GetAll_partitions_and_order
    (rt : bukudb.Runtime) :
  runtime_ok rt →
  (∀ N, 0 ≤ N →
     let W := bukudb.NumCPU rt in
     let perWorker := (N + W - 1) ÷ W in
     W * (perWorker - 1) < N ≤ W * perWorker
     ∧ (∀ i, bukudb.worker_range N perWorker i
             = (i * perWorker + 1, Z.min ((i + 1) * perWorker) N))
     ∧ concat (worker_ids N perWorker <$> seqZ 0 W) = seqZ 1 N
     ∧ (∀ id, 1 ≤ id ≤ N ↔
              ∃ i, 0 ≤ i < W ∧ (bukudb.worker_range N perWorker i).1 ≤ id
                               ≤ (bukudb.worker_range N perWorker i).2)
     ∧ (∀ id i j, 0 ≤ i < W → 0 ≤ j < W →
          (bukudb.worker_range N perWorker i).1 ≤ id
            ≤ (bukudb.worker_range N perWorker i).2 →
          (bukudb.worker_range N perWorker j).1 ≤ id
            ≤ (bukudb.worker_range N perWorker j).2 → i = j))
  ∧ (∀ db, contiguous db → count_ok db →
       ∃ bs, bukudb.GetAll rt db = inr bs
             ∧ length bs = Z.to_nat (bukudb.Len db)
             ∧ bukudb.ID <$> bs = seqZ 1 (bukudb.Len db)
             ∧ ∀ id r, bukudb.conn db !! id = Some r →
                 bs !! Z.to_nat (id - 1) = Some (range_bookmark (id, r))).
Proof.
  intros Hrt. split.
  - intros N HN W perWorker. destruct Hrt as (HW & _).
    split; [by apply entriesPerWorker_ceil|].
    split; [|split; [by apply worker_ids_tile|]].
    + intros i. unfold bukudb.worker_range. f_equal. case_bool_decide; lia.
    + split.
      * intros id. by apply (worker_range_unique N W id).
      * intros id. by apply (worker_range_unique N W id).
  - intros db Hcont Hc.
    destruct (GetAll_contiguous rt db) as (bs & Hbs & Hids & Hrows);
      [done..|].
    exists bs. split; [done|]. split; [|done].
    by rewrite <-(length_fmap bukudb.ID), Hids, length_seqZ.
Qed.

Lemma GetAll_partitions_and_order_witness :
  ∃ bs, bukudb.GetAll (last_first 3) seven_db = inr bs
        ∧ length bs = Z.to_nat (bukudb.Len seven_db)
        ∧ bukudb.ID <$> bs = seqZ 1 (bukudb.Len seven_db)
        ∧ ∀ id r, bukudb.conn seven_db !! id = Some r →
            bs !! Z.to_nat (id - 1) = Some (range_bookmark (id, r)).
Proof.
  refine (proj2 (GetAll_partitions_and_order (last_first 3) _) seven_db _ _).
  - apply last_first_ok. lia.
  - apply contiguous_dom. by vm_compute.
  - unfold count_ok, bukudb.MaxBookmarks. simpl. lia.
Defined.

(** With the last worker's writes first, the result is still ascending. *)
Example GetAll_7_3 :
  match bukudb.GetAll (last_first 3) seven_db with
  | inr bs => map bukudb.ID bs = [1; 2; 3; 4; 5; 6; 7]
  | inl _ => False
  end.
Proof. by vm_compute. Qed.

(** ** The two decodings of the tags column *)

Lemma get_tags_filter (tagsString : string) :
  bukudb.get_tags tagsString
  = bukudb.filter (strings.Split tagsString ",") nonempty.
Proof.
  unfold bukudb.get_tags. by destruct (String.eqb_spec tagsString ",") as [->|].
Qed.

(** C10, as stated, fails: for the stored value [","] the element of
    [GetAll] has no tags, not one empty tag. *)
Lemma GetAll_delimiter_only_counterexample :
  sql.tags <$> bukudb.conn test_db !! 3 = Some ","
  ∧ ∃ bs b, bukudb.GetAll (in_order 3) test_db = inr bs
            ∧ bs !! 2%nat = Some b ∧ bukudb.ID b = 3
            ∧ bukudb.Tags b ≠ [""].
Proof.
  split; [by vm_compute|].
  eexists _, _. split; [by vm_compute|]. split; [done|]. by split.
Qed.

(** C10, amended.  [Get] splits the stored string on [","] and drops the
    empty entries; the loader of [GetAll] splits the string without its
    first and last byte, when it has two bytes or more, and keeps empty
    entries.  For the stored value [","] both return no tags.  For the stored
    value [",,"] [Get] returns no tags and the element of [GetAll] has one
    empty tag, so the two bookmarks differ. *)
Theorem Get_GetAll_decode_tags
    (rt : bukudb.Runtime) (db : bukudb.BukuDB) (id : Z) (r : sql.Row) :
  runtime_ok rt →
  contiguous db → count_ok db → bukudb.conn db !! id = Some r →
  ∃ b bs b',
    bukudb.Get db id = inr b
    ∧ bukudb.GetAll rt db = inr bs
    ∧ bs !! Z.to_nat (id - 1) = Some b'
    ∧ bukudb.ID b = id ∧ bukudb.ID b' = id
    ∧ bukudb.Tags b = bukudb.filter (strings.Split (sql.tags r) ",") nonempty
    ∧ bukudb.Tags b'
      = (if (2 <=? String.length (sql.tags r))%nat
         then strings.Split
                (substring 1 (String.length (sql.tags r) - 2) (sql.tags r)) ","
         else [])
    ∧ (sql.tags r = "," → bukudb.Tags b = [] ∧ bukudb.Tags b' = [])
    ∧ (sql.tags r = ",," →
       bukudb.Tags b = [] ∧ bukudb.Tags b' = [""] ∧ b ≠ b').
Proof.
  intros Hrt Hcont Hc Hr.
  destruct (GetAll_contiguous rt db) as (bs & Hbs & _ & Hrows);
    [done..|].
  assert (1 ≤ id ≤ bukudb.len db) as Hid by (by apply Hcont).
  unfold count_ok, bukudb.MaxBookmarks in Hc.
  eexists _, bs, _. split; [apply (Get_in_range db id r); done || lia|].
  split; [done|]. split; [by apply Hrows|]. simpl.
  split; [done|]. split; [done|]. split; [apply get_tags_filter|].
  split; [done|]. split.
  - intros ->. done.
  - intros Htags. rewrite Htags. split; [done|]. split; [done|].
    intros Heq. apply (f_equal bukudb.Tags) in Heq. simpl in Heq.
    by rewrite Htags in Heq.
Qed.

Lemma Get_GetAll_decode_tags_witness :
  ∃ b bs b',
    bukudb.Get emptied_db 2 = inr b
    ∧ bukudb.GetAll (in_order 3) emptied_db = inr bs
    ∧ bs !! 1%nat = Some b'
    ∧ bukudb.Tags b = [] ∧ bukudb.Tags b' = [""] ∧ b ≠ b'.
Proof.
  destruct (Get_GetAll_decode_tags (in_order 3) emptied_db 2
              (sql.mkRow "https://www.b.com" "metadata (title) b" ",," "" 0))
    as (b & bs & b' & Hb & Hbs & Hb' & _ & _ & _ & _ & _ & Hempty).
  - apply in_order_ok. lia.
  - apply contiguous_dom. by vm_compute.
  - split; by vm_compute.
  - by vm_compute.
  - exists b, bs, b'. destruct Hempty as (? & ? & ?); [reflexivity|]. done.
Defined.

(** ** The tags column as written *)

(** C3: the writes to the tags column, evaluated.  [Add] with the
    bookmark of [Test_Add_And_Remove] stores the tags joined by the
    delimiter without the leading and trailing one, and [GetAll] reads them
    back without their first and last byte; [Add] without tags stores the
    empty string; [RemoveTags] of every tag stores two delimiters.
    [AddTags], and [RemoveTags] when a tag is left, store the wrapped form,
    and [ClearTags] stores one delimiter. *)
Theorem tags_column_as_written :
  let tags_at (db : bukudb.BukuDB) (id : Z) := sql.tags <$> bukudb.conn db !! id in
  let new := bukudb.mkBookmark 5 "https://www.new.com" "metadata (title) new"
                               ["new"; "tag2"; "tag3"] "" in
  bukudb.Add test_db new
    = (bukudb.mkBukuDB
         (<[5 := sql.mkRow "https://www.new.com" "metadata (title) new"
                           "new,tag2,tag3" "" 0]> (bukudb.conn test_db)) 5, None)
  ∧ (∃ bs b, bukudb.GetAll (in_order 3) (bukudb.Add test_db new).1 = inr bs
             ∧ bs !! 4%nat = Some b ∧ bukudb.Tags b = ["ew"; "tag2"; "tag"])
  ∧ tags_at (bukudb.Add test_db (bukudb.mkBookmark 5 "https://www.e.com" "" [] "")).1 5
    = Some ""
  ∧ tags_at (bukudb.RemoveTags test_db 2 ["b"; "tag2"; "tag3"]).1 2 = Some ",,"
  ∧ tags_at (bukudb.RemoveTags test_db 2 ["tag2"; "tag3"]).1 2 = Some ",b,"
  ∧ tags_at (bukudb.AddTags test_db 2 ["b"; "tag2"; "tag3"; "tag4"; "tag5"]).1 2
    = Some ",b,tag2,tag3,tag4,tag5,"
  ∧ tags_at (bukudb.ClearTags test_db 2).1 2 = Some ",".
Proof.
  intros tags_at new. split; [by vm_compute|].
  split; [eexists _, _; split; [by vm_compute|]; by split|].
  repeat split; by vm_compute.
Qed.

(** ** Round trip through Add and Get *)

(** C6, as stated, fails: an empty tag does not come back.  (The add menu
    of the input handler passes such a tag for the input ["a,"].) *)
Lemma Add_Get_round_trip_counterexample :
  let b := bukudb.mkBookmark 0 "https://www.e.com" "" [""; "a"] "" in
  ∃ db' b', bukudb.Add test_db b = (db', None)
            ∧ bukudb.Get db' (bukudb.Len test_db + 1) = inr b'
            ∧ bukudb.Tags b' ≠ bukudb.Tags b.
Proof.
  eexists _, _. split; [by vm_compute|]. split; [by vm_compute|]. done.
Qed.

(** C6, amended.  For any bookmark [b] whose tags are non-empty strings
    without the delimiter [","], after an [Add(b)] that returns no error on
    a store with count [N], [Len()] is [N+1] and [Get(N+1)] returns the url,
    title, tags and comment of [b] with id [N+1], whatever id [b] carried. *)
Theorem Add_Get_round_trip (db db' : bukudb.BukuDB) (b : bukudb.Bookmark) :
  count_ok db → Forall tag_ok (bukudb.Tags b) →
  bukudb.Add db b = (db', None) →
  bukudb.Len db' = bukudb.Len db + 1
  ∧ bukudb.Get db' (bukudb.Len db + 1)
    = inr (bukudb.mkBookmark (bukudb.Len db + 1) (bukudb.URL b) (bukudb.Title b)
                             (bukudb.Tags b) (bukudb.Comment b)).
Proof.
  intros Hc Htags Hadd. unfold bukudb.Len.
  apply Add_inv in Hadd as (Hcap & _ & _ & ->); [|done].
  unfold count_ok, bukudb.MaxBookmarks in *. split; [done|].
  erewrite Get_in_range; [|simpl; lia|lia|apply lookup_insert_eq].
  simpl. by rewrite get_tags_Join.
Qed.

Lemma Add_Get_round_trip_witness :
  let b := bukudb.mkBookmark 0 "https://www.new.com" "metadata (title) new"
                             ["new"; "tag2"; "tag3"] "" in
  bukudb.Len (bukudb.Add test_db b).1 = bukudb.Len test_db + 1
  ∧ bukudb.Get (bukudb.Add test_db b).1 (bukudb.Len test_db + 1)
    = inr (bukudb.mkBookmark (bukudb.Len test_db + 1) (bukudb.URL b)
                             (bukudb.Title b) (bukudb.Tags b) (bukudb.Comment b)).
Proof.
  intros b. apply (Add_Get_round_trip test_db (bukudb.Add test_db b).1 b).
  - split; by vm_compute.
  - repeat constructor; by vm_compute.
  - by vm_compute.
Defined.

(** ** AddTags *)

Section addtags_facts.
Import bukudb.
Implicit Types (db : BukuDB) (id : Z) (b : Bookmark) (tags : list string).

Lemma Get_inr_inv db id b :
  Get db id = inr b →
  1 ≤ id ≤ len db ∧ id < 65536 ∧
  ∃ r, conn db !! id = Some r ∧
       b = mkBookmark id (sql.URL r) (sql.metadata r) (get_tags (sql.tags r))
                      (sql.desc r).
Proof.
  unfold Get. case_bool_decide as H1; [done|]. case_bool_decide as H2; [done|].
  simpl. destruct (conn db !! id) as [r|]; [|done].
  unfold sql.scan_uint16. case_bool_decide as H3; [|done].
  intros [= <-]. split; [lia|]. split; [lia|]. by exists r.
Qed.

Lemma updateField_tags db id r v :
  1 ≤ id ≤ len db → conn db !! id = Some r →
  updateField db id sql.ColTags v
  = (mkBukuDB (<[id := sql.set_column sql.ColTags v r]> (conn db)) (len db), None).
Proof.
  intros Hid Hr. unfold updateField.
  rewrite (bool_decide_eq_false_2 (id < 1)) by lia.
  rewrite (bool_decide_eq_false_2 (id > len db)) by lia.
  simpl. unfold sql.update_column. by rewrite Hr.
Qed.

Lemma filter_In l p x : In x (filter l p) ↔ In x l ∧ p x = true.
Proof. rewrite filter_List_filter. apply List.filter_In. Qed.

Lemma filter_none l p : (∀ x, In x l → p x = false) → filter l p = [].
Proof.
  induction l as [|x l IH]; simpl; intros Hp; [done|].
  rewrite Hp by (by left). apply IH. intros y Hy. apply Hp. by right.
Qed.

Lemma get_tags_ok (tagsString : string) : Forall tag_ok (get_tags tagsString).
Proof.
  rewrite get_tags_filter. apply List.Forall_forall. intros t Ht.
  apply filter_In in Ht as [Hin Hne]. split.
  - intros ->. done.
  - by eapply Split_pieces.
Qed.

Lemma less_tag_asym x y : less_tag x y = true → less_tag y x = false.
Proof.
  unfold less_tag, String.ltb.
  rewrite (String.compare_antisym (strings.ToLower x) (strings.ToLower y)).
  by destruct (String.compare (strings.ToLower y) (strings.ToLower x)).
Qed.

Lemma merged_In old tags t : In t (merged old tags) ↔ In t old ∨ In t tags.
Proof.
  unfold merged. rewrite <-!list_elem_of_In, Slice_perm, elem_of_app.
  rewrite !list_elem_of_In, filter_In, negb_true_iff.
  destruct (slices.Contains old t) eqn:Hc.
  - apply Contains_In in Hc. split; [|by left].
    intros [?|[_ ?]]; [by left|done].
  - split.
    + intros [?|[? _]]; [by left|by right].
    + intros [?|?]; [by left|by right].
Qed.

Lemma merged_ok old tags :
  Forall tag_ok old → Forall tag_ok tags → Forall tag_ok (merged old tags).
Proof.
  rewrite !List.Forall_forall. intros Hold Htags t Ht.
  apply merged_In in Ht as [?|?]; auto.
Qed.

(** Merging the same arguments into the merged tags changes nothing. *)
Lemma merged_again old tags : merged (merged old tags) tags = merged old tags.
Proof.
  unfold merged at 1. rewrite filter_none.
  - rewrite app_nil_r. apply Slice_id, Slice_sorted, less_tag_asym.
  - intros t Ht. apply negb_false_iff, Contains_In, merged_In. by right.
Qed.

Lemma AddTags_unfold db id tags b :
  Get db id = inr b →
  AddTags db id tags
  = updateField db id sql.ColTags (wrap (merged (Tags b) tags)).
Proof. intros Hget. unfold AddTags. by rewrite Hget. Qed.

Lemma AddTags_inv db id tags db1 :
  AddTags db id tags = (db1, None) →
  1 ≤ id ≤ len db ∧ id < 65536 ∧
  ∃ r, conn db !! id = Some r ∧
       db1 = mkBukuDB
               (<[id := sql.set_column sql.ColTags
                          (wrap (merged (get_tags (sql.tags r)) tags)) r]> (conn db))
               (len db).
Proof.
  destruct (Get db id) as [e|b] eqn:Hget.
  { unfold AddTags. by rewrite Hget. }
  rewrite (AddTags_unfold db id tags b Hget).
  apply Get_inr_inv in Hget as (Hid & Hu & r & Hr & ->). simpl.
  rewrite (updateField_tags db id r) by done.
  intros [= <-]. split; [done|]. split; [done|]. by exists r.
Qed.

Lemma AddTags_stored db id tags db1 :
  Forall tag_ok tags → AddTags db id tags = (db1, None) →
  ∃ b b1, Get db id = inr b ∧ Get db1 id = inr b1
          ∧ Tags b1 = merged (Tags b) tags.
Proof.
  intros Htags Hadd.
  apply AddTags_inv in Hadd as (Hid & Hu & r & Hr & ->).
  eexists _, _. split; [by apply (Get_in_range db id r)|].
  split; [apply (Get_in_range _ id); [done|done|apply lookup_insert_eq]|].
  simpl. unfold wrap. rewrite get_tags_wrapped.
  - apply filter_nonempty_id. eapply Forall_impl.
    + apply merged_ok; [apply get_tags_ok|done].
    + by intros ? [? _].
  - eapply Forall_impl.
    + apply merged_ok; [apply get_tags_ok|done].
    + by intros ? [_ ?].
Qed.

Lemma AddTags_twice db id tags db1 :
  Forall tag_ok tags → AddTags db id tags = (db1, None) →
  AddTags db1 id tags = (db1, None).
Proof.
  intros Htags Hadd.
  destruct (AddTags_stored db id tags db1 Htags Hadd) as (b & b1 & Hb & Hb1 & Ht1).
  apply AddTags_inv in Hadd as (Hid & Hu & r & Hr & ->).
  apply Get_inr_inv in Hb as (_ & _ & r0 & Hr0 & ->).
  rewrite Hr in Hr0. injection Hr0 as <-. simpl in Ht1.
  rewrite (AddTags_unfold _ id tags b1 Hb1), Ht1, merged_again.
  erewrite updateField_tags; [|done|apply lookup_insert_eq].
  simpl. by rewrite insert_insert_eq.
Qed.
End addtags_facts.

(** C4, as stated, fails: after [AddTags(id, ["a","a","A"])] on a
    bookmark without tags the tags are not the single tag ["a"]. *)
Lemma AddTags_merge_counterexample :
  (∃ b, bukudb.Get test_db 3 = inr b ∧ bukudb.Tags b = [])
  ∧ ∃ db' b', bukudb.AddTags test_db 3 ["a"; "a"; "A"] = (db', None)
              ∧ bukudb.Get db' 3 = inr b'
              ∧ bukudb.Tags b' ≠ ["a"].
Proof.
  split; [eexists; split; by vm_compute|].
  eexists _, _. split; [by vm_compute|]. split; [by vm_compute|]. done.
Qed.

(** C4, amended.  [AddTags] compares tags byte for byte.  For arguments
    that are non-empty strings without the delimiter and without
    repetition, the tags read back after the call are the tags stored
    before together with the arguments that equal none of them, sorted
    case-insensitively: [AddTags(id, ["a","A"])] on a bookmark with no tags
    stores the tags [["a","A"]].  For arguments that are non-empty strings
    without the delimiter, a second [AddTags] with the same arguments
    returns no error and leaves the store as the first call left it. *)
Theorem AddTags_merge_idempotent (db : bukudb.BukuDB) (id : Z) :
  (∀ b db', bukudb.Get db id = inr b → bukudb.Tags b = [] →
     bukudb.AddTags db id ["a"; "A"] = (db', None) →
     ∃ b', bukudb.Get db' id = inr b' ∧ bukudb.Tags b' = ["a"; "A"])
  ∧ (∀ tags db1, Forall tag_ok tags → NoDup tags →
       bukudb.AddTags db id tags = (db1, None) →
       ∃ b b1, bukudb.Get db id = inr b ∧ bukudb.Get db1 id = inr b1
               ∧ bukudb.Tags b1
                 = sort.Slice bukudb.less_tag
                     (bukudb.Tags b
                      ++ List.filter (λ t, negb (slices.Contains (bukudb.Tags b) t))
                                     tags)%list)
  ∧ (∀ tags db1, Forall tag_ok tags →
       bukudb.AddTags db id tags = (db1, None) →
       bukudb.AddTags db1 id tags = (db1, None)).
Proof.
  split; [|split].
  - intros b db' Hb Hnone Hadd.
    destruct (AddTags_stored db id ["a"; "A"] db') as (b0 & b' & Hb0 & Hb' & Ht);
      [repeat constructor; done|done|].
    rewrite Hb in Hb0. injection Hb0 as <-.
    exists b'. split; [done|]. by rewrite Ht, Hnone.
  - intros tags db1 Htags _ Hadd.
    destruct (AddTags_stored db id tags db1) as (b & b1 & ? & ? & Ht); [done..|].
    exists b, b1. split; [done|]. split; [done|].
    rewrite Ht. unfold merged. by rewrite filter_List_filter.
  - intros tags db1 Htags Hadd. by apply (AddTags_twice db).
Qed.

Lemma AddTags_merge_idempotent_witness :
  let db1 := (bukudb.AddTags test_db 3 ["a"; "A"]).1 in
  (∃ b', bukudb.Get db1 3 = inr b' ∧ bukudb.Tags b' = ["a"; "A"])
  ∧ (∃ b b1, bukudb.Get test_db 2 = inr b
       ∧ bukudb.Get (bukudb.AddTags test_db 2 ["tag2"; "B"; "a"]).1 2 = inr b1
       ∧ bukudb.Tags b1
         = sort.Slice bukudb.less_tag
             (bukudb.Tags b
              ++ List.filter (λ t, negb (slices.Contains (bukudb.Tags b) t))
                             ["tag2"; "B"; "a"])%list
       ∧ bukudb.Tags b1 = ["a"; "b"; "B"; "tag2"; "tag3"])
  ∧ bukudb.AddTags db1 3 ["a"; "A"] = (db1, None).
Proof.
  intros db1. split; [|split].
  - apply (proj1 (AddTags_merge_idempotent test_db 3)
             (bukudb.mkBookmark 3 "https://www.c.com" "metadata (title) c" [] "")).
    + by vm_compute.
    + reflexivity.
    + by vm_compute.
  - destruct (proj1 (proj2 (AddTags_merge_idempotent test_db 2))
                ["tag2"; "B"; "a"] (bukudb.AddTags test_db 2 ["tag2"; "B"; "a"]).1)
      as (b & b1 & Hb & Hb1 & Ht).
    + repeat constructor; by vm_compute.
    + repeat (apply NoDup_cons; split;
              [rewrite ?elem_of_cons, elem_of_nil; intros H;
               repeat destruct H as [H|H]; done|]).
      apply NoDup_nil_2.
    + by vm_compute.
    + exists b, b1. split; [done|]. split; [done|]. split; [done|].
      assert (bukudb.Get (bukudb.AddTags test_db 2 ["tag2"; "B"; "a"]).1 2
              = inr (bukudb.mkBookmark 2 "https://www.b.com" "metadata (title) b"
                       ["a"; "b"; "B"; "tag2"; "tag3"] "")) as Hg by (by vm_compute).
      rewrite Hb1 in Hg. by injection Hg as ->.
  - apply (proj2 (proj2 (AddTags_merge_idempotent test_db 3))).
    + repeat constructor; by vm_compute.
    + by vm_compute.
Defined.

(** * Further properties of the store *)

(** ** Field updates *)

Section update_facts.
Import bukudb.
Implicit Types (db : BukuDB) (id : Z) (b : Bookmark) (c : sql.column).

Lemma updateField_out_of_range db id c v :
  ¬ (1 ≤ id ≤ len db) →
  updateField db id c v = (db, Some (ErrIdOutOfRange id (len db))).
Proof.
  intros Hid. unfold updateField.
  destruct (bool_decide (id < 1)) eqn:H1; [done|].
  destruct (bool_decide (id > len db)) eqn:H2; [done|].
  apply bool_decide_eq_false in H1, H2. lia.
Qed.

Lemma updateField_missing db id c v :
  1 ≤ id ≤ len db → conn db !! id = None →
  updateField db id c v = (db, None).
Proof.
  intros Hid Hr. unfold updateField.
  rewrite (bool_decide_eq_false_2 (id < 1)) by lia.
  rewrite (bool_decide_eq_false_2 (id > len db)) by lia.
  simpl. unfold sql.update_column. rewrite Hr. by destruct db.
Qed.

Lemma updateField_free db id c v r :
  c ≠ sql.ColURL → 1 ≤ id ≤ len db → conn db !! id = Some r →
  updateField db id c v
  = (mkBukuDB (<[id := sql.set_column c v r]> (conn db)) (len db), None).
Proof.
  intros Hc Hid Hr. unfold updateField.
  rewrite (bool_decide_eq_false_2 (id < 1)) by lia.
  rewrite (bool_decide_eq_false_2 (id > len db)) by lia.
  simpl. unfold sql.update_column. rewrite Hr. by destruct c.
Qed.

Lemma updateField_url db id v r :
  1 ≤ id ≤ len db → conn db !! id = Some r →
  updateField db id sql.ColURL v
  = if sql.url_taken (conn db) (Some id) v
    then (db, Some (ErrUpdateField sql.ColURL sql.UniqueConstraint))
    else (mkBukuDB (<[id := sql.set_column sql.ColURL v r]> (conn db)) (len db),
          None).
Proof.
  intros Hid Hr. unfold updateField.
  rewrite (bool_decide_eq_false_2 (id < 1)) by lia.
  rewrite (bool_decide_eq_false_2 (id > len db)) by lia.
  simpl. unfold sql.update_column. rewrite Hr.
  by destruct (sql.url_taken (conn db) (Some id) v).
Qed.

(** Whatever it returns, [updateField] keeps the count and the ids, and a
    call that returns an error keeps the store. *)
Lemma updateField_keeps db id c v db' e :
  updateField db id c v = (db', e) →
  len db' = len db
  ∧ (∀ j, is_Some (conn db' !! j) ↔ is_Some (conn db !! j))
  ∧ (e ≠ None → db' = db).
Proof.
  unfold updateField.
  destruct (bool_decide (id < 1) || bool_decide (id > len db)).
  { intros [= <- <-]. done. }
  unfold sql.update_column. destruct (conn db !! id) as [r|] eqn:Hr.
  - assert (∀ r' j, is_Some (<[id := r']> (conn db) !! j) ↔ is_Some (conn db !! j))
      as Hdom.
    { intros r' j. destruct (decide (j = id)) as [->|Hne].
      - rewrite lookup_insert_eq, Hr. split; by eexists.
      - by rewrite lookup_insert_ne. }
    destruct c; try (intros [= <- <-]; simpl; split; [done|]; split; [apply Hdom|done]).
    destruct (sql.url_taken (conn db) (Some id) v); intros [= <- <-]; simpl.
    + done.
    + split; [done|]. split; [apply Hdom|done].
  - intros [= <- <-]. simpl. done.
Qed.

Lemma Get_other db db' (j : Z) :
  len db' = len db → conn db' !! j = conn db !! j → Get db' j = Get db j.
Proof. intros Hlen Hj. unfold Get. by rewrite Hlen, Hj. Qed.
End update_facts.

(** X1.  [UpdateTitle] and [UpdateComment] on a bookmark that [Get]
    returns give no error; afterwards [Get] returns the bookmark with the
    new title (comment) and every other field as before, every other
    bookmark is as before, and [Len()] has not changed. *)
Theorem Update_title_comment_round_trip
    (db : bukudb.BukuDB) (id : Z) (v : string) (b : bukudb.Bookmark) :
  bukudb.Get db id = inr b →
  (∃ db', bukudb.UpdateTitle db id v = (db', None)
     ∧ bukudb.Len db' = bukudb.Len db
     ∧ bukudb.Get db' id
       = inr (bukudb.mkBookmark (bukudb.ID b) (bukudb.URL b) v (bukudb.Tags b)
                                (bukudb.Comment b))
     ∧ ∀ j, j ≠ id → bukudb.Get db' j = bukudb.Get db j)
  ∧ (∃ db', bukudb.UpdateComment db id v = (db', None)
     ∧ bukudb.Len db' = bukudb.Len db
     ∧ bukudb.Get db' id
       = inr (bukudb.mkBookmark (bukudb.ID b) (bukudb.URL b) (bukudb.Title b)
                                (bukudb.Tags b) v)
     ∧ ∀ j, j ≠ id → bukudb.Get db' j = bukudb.Get db j).
Proof.
  intros Hget. apply Get_inr_inv in Hget as (Hid & Hu & r & Hr & ->).
  unfold bukudb.UpdateTitle, bukudb.UpdateComment, bukudb.Len.
  rewrite !(updateField_free db id _ v r) by done.
  split; eexists; (split; [done|]); simpl; (split; [done|]); split.
  - erewrite Get_in_range; [|simpl; lia|done|simpl; apply lookup_insert_eq].
    reflexivity.
  - intros j Hj. apply Get_other; [done|]. simpl. by rewrite lookup_insert_ne.
  - erewrite Get_in_range; [|simpl; lia|done|simpl; apply lookup_insert_eq].
    reflexivity.
  - intros j Hj. apply Get_other; [done|]. simpl. by rewrite lookup_insert_ne.
Qed.

Lemma Update_title_comment_round_trip_witness :
  ∃ db', bukudb.UpdateTitle test_db 2 "metadata (title) new title" = (db', None)
     ∧ bukudb.Len db' = bukudb.Len test_db
     ∧ bukudb.Get db' 2
       = inr (bukudb.mkBookmark 2 "https://www.b.com" "metadata (title) new title"
                                ["b"; "tag2"; "tag3"] "")
     ∧ ∀ j, j ≠ 2 → bukudb.Get db' j = bukudb.Get test_db j.
Proof.
  refine (proj1 (Update_title_comment_round_trip test_db 2
                   "metadata (title) new title"
                   (bukudb.mkBookmark 2 "https://www.b.com" "metadata (title) b"
                                      ["b"; "tag2"; "tag3"] "") _)).
  by vm_compute.
Defined.

(** X2.  [UpdateURL] on a bookmark that [Get] returns: when another
    bookmark holds the url it returns the failure of the UPDATE statement
    and leaves the store as it was; otherwise (also when the url is the
    bookmark's own) it returns no error, [Get] returns the bookmark with the
    new url, and the other bookmarks and [Len()] are as before. *)
Theorem UpdateURL_unique
    (db : bukudb.BukuDB) (id : Z) (url : string) (b : bukudb.Bookmark) :
  bukudb.Get db id = inr b →
  ((∃ j r, j ≠ id ∧ bukudb.conn db !! j = Some r ∧ sql.URL r = url) →
   bukudb.UpdateURL db id url
   = (db, Some (bukudb.ErrUpdateField sql.ColURL sql.UniqueConstraint)))
  ∧ (¬ (∃ j r, j ≠ id ∧ bukudb.conn db !! j = Some r ∧ sql.URL r = url) →
     ∃ db', bukudb.UpdateURL db id url = (db', None)
       ∧ bukudb.Len db' = bukudb.Len db
       ∧ bukudb.Get db' id
         = inr (bukudb.mkBookmark (bukudb.ID b) url (bukudb.Title b)
                                  (bukudb.Tags b) (bukudb.Comment b))
       ∧ ∀ j, j ≠ id → bukudb.Get db' j = bukudb.Get db j).
Proof.
  intros Hget. apply Get_inr_inv in Hget as (Hid & Hu & r & Hr & ->).
  unfold bukudb.UpdateURL, bukudb.Len. rewrite (updateField_url db id url r) by done.
  split.
  - intros (j & rj & Hj & Hrj & Hurl).
    rewrite (proj2 (url_taken_true (bukudb.conn db) (Some id) url)); [done|].
    exists j, rj. split; [done|]. split; [|done]. intros [= ->]. done.
  - intros Hfree.
    destruct (sql.url_taken (bukudb.conn db) (Some id) url) eqn:Htaken.
    { exfalso. apply Hfree. apply url_taken_true in Htaken as (j & rj & ? & Hne & ?).
      exists j, rj. split; [|done]. intros ->. done. }
    eexists. split; [done|]. simpl. split; [done|]. split.
    + erewrite Get_in_range; [|simpl; lia|done|simpl; apply lookup_insert_eq].
    reflexivity.
    + intros j Hj. apply Get_other; [done|]. simpl. by rewrite lookup_insert_ne.
Qed.

Lemma UpdateURL_unique_witness :
  bukudb.UpdateURL test_db 2 "https://www.a.com"
  = (test_db, Some (bukudb.ErrUpdateField sql.ColURL sql.UniqueConstraint)).
Proof.
  refine (proj1 (UpdateURL_unique test_db 2 "https://www.a.com"
                   (bukudb.mkBookmark 2 "https://www.b.com" "metadata (title) b"
                                      ["b"; "tag2"; "tag3"] "") _) _).
  - by vm_compute.
  - exists 1, (sql.mkRow "https://www.a.com" "metadata (title) a" ",a,tag2,tag3,"
                          "desc (comment) a" 0).
    split; [lia|]. split; reflexivity.
Defined.

(** X3.  With an id outside [1..Len()], the three field updates and
    [ClearTags] return the out-of-range error of [updateField], [AddTags]
    and [RemoveTags] return the out-of-range error of [Get], and all six
    leave the store as it was. *)
Theorem updates_out_of_range
    (db : bukudb.BukuDB) (id : Z) (v : string) (tags : list string) :
  ¬ (1 ≤ id ≤ bukudb.Len db) →
  let e := Some (bukudb.ErrIdOutOfRange id (bukudb.Len db)) in
  let eget := Some (bukudb.ErrBookmarkIdOutOfRange id (bukudb.Len db)) in
  bukudb.UpdateTitle db id v = (db, e)
  ∧ bukudb.UpdateURL db id v = (db, e)
  ∧ bukudb.UpdateComment db id v = (db, e)
  ∧ bukudb.ClearTags db id = (db, e)
  ∧ bukudb.AddTags db id tags = (db, eget)
  ∧ bukudb.RemoveTags db id tags = (db, eget).
Proof.
  intros Hid e eget. unfold bukudb.Len in *.
  unfold bukudb.UpdateTitle, bukudb.UpdateURL, bukudb.UpdateComment, bukudb.ClearTags.
  rewrite !updateField_out_of_range by done.
  assert (bukudb.Get db id = inl (bukudb.ErrBookmarkIdOutOfRange id (bukudb.len db)))
    as Hget.
  { unfold bukudb.Get.
    destruct (bool_decide (id < 1)) eqn:H1; [done|].
    destruct (bool_decide (id > bukudb.len db)) eqn:H2; [done|].
    apply bool_decide_eq_false in H1, H2. lia. }
  unfold bukudb.AddTags, bukudb.RemoveTags. rewrite Hget. done.
Qed.

Lemma updates_out_of_range_witness :
  bukudb.UpdateTitle test_db 5 "t" = (test_db, Some (bukudb.ErrIdOutOfRange 5 4))
  ∧ bukudb.AddTags test_db 0 ["t"]
    = (test_db, Some (bukudb.ErrBookmarkIdOutOfRange 0 4)).
Proof.
  split.
  - refine (proj1 (updates_out_of_range test_db 5 "t" [] _)). simpl. lia.
  - refine (proj1 (proj2 (proj2 (proj2 (proj2
              (updates_out_of_range test_db 0 "t" ["t"] _)))))). simpl. lia.
Defined.

(** X4.  With an id in [1..Len()] whose row is missing, the three field
    updates and [ClearTags] return no error and leave the store as it was
    (an UPDATE that matches no row is not a failure), while [AddTags] and
    [RemoveTags] return the scan error of [Get]. *)
Theorem updates_missing_row
    (db : bukudb.BukuDB) (id : Z) (v : string) (tags : list string) :
  1 ≤ id ≤ bukudb.Len db → bukudb.conn db !! id = None →
  bukudb.UpdateTitle db id v = (db, None)
  ∧ bukudb.UpdateURL db id v = (db, None)
  ∧ bukudb.UpdateComment db id v = (db, None)
  ∧ bukudb.ClearTags db id = (db, None)
  ∧ bukudb.AddTags db id tags = (db, Some (bukudb.ErrScan sql.ErrNoRows))
  ∧ bukudb.RemoveTags db id tags = (db, Some (bukudb.ErrScan sql.ErrNoRows)).
Proof.
  intros Hid Hr. unfold bukudb.Len in *.
  unfold bukudb.UpdateTitle, bukudb.UpdateURL, bukudb.UpdateComment, bukudb.ClearTags.
  rewrite !updateField_missing by done.
  assert (bukudb.Get db id = inl (bukudb.ErrScan sql.ErrNoRows)) as Hget.
  { unfold bukudb.Get.
    rewrite (bool_decide_eq_false_2 (id < 1)) by lia.
    rewrite (bool_decide_eq_false_2 (id > bukudb.len db)) by lia.
    simpl. by rewrite Hr. }
  unfold bukudb.AddTags, bukudb.RemoveTags. rewrite Hget. done.
Qed.

Lemma updates_missing_row_witness :
  bukudb.UpdateTitle gap_db 2 "t" = (gap_db, None)
  ∧ bukudb.RemoveTags gap_db 2 ["t"]
    = (gap_db, Some (bukudb.ErrScan sql.ErrNoRows)).
Proof.
  split.
  - refine (proj1 (updates_missing_row gap_db 2 "t" [] _ _)).
    + simpl. lia.
    + by vm_compute.
  - refine (proj2 (proj2 (proj2 (proj2 (proj2
              (updates_missing_row gap_db 2 "t" ["t"] _ _)))))).
    + simpl. lia.
    + by vm_compute.
Defined.

(** ** Invariants over all the methods *)

Section method_facts.
Import bukudb.
Implicit Types (db : BukuDB) (id : Z) (m : method).

Lemma AddTags_keeps db id tags db' e :
  AddTags db id tags = (db', e) →
  len db' = len db
  ∧ (∀ j, is_Some (conn db' !! j) ↔ is_Some (conn db !! j))
  ∧ (e ≠ None → db' = db).
Proof.
  unfold AddTags. destruct (Get db id); [by intros [= <- <-]|].
  apply updateField_keeps.
Qed.

Lemma RemoveTags_keeps db id tags db' e :
  RemoveTags db id tags = (db', e) →
  len db' = len db
  ∧ (∀ j, is_Some (conn db' !! j) ↔ is_Some (conn db !! j))
  ∧ (e ≠ None → db' = db).
Proof.
  unfold RemoveTags. destruct (Get db id); [by intros [= <- <-]|].
  apply updateField_keeps.
Qed.

(** The methods other than [Add] and [Remove]. *)
Lemma update_method_keeps db m :
  (∀ b, m ≠ MAdd b) → (∀ id, m ≠ MRemove id) →
  len (invoke db m).1 = len db
  ∧ (∀ j, is_Some (conn (invoke db m).1 !! j) ↔ is_Some (conn db !! j))
  ∧ ((invoke db m).2 ≠ None → (invoke db m).1 = db).
Proof.
  intros Hadd Hrm.
  destruct m as [b|id|id v|id v|id v|id tags|id tags|id]; simpl.
  - by destruct (Hadd b).
  - by destruct (Hrm id).
  - unfold UpdateTitle. destruct (updateField _ _ _ _) eqn:H.
    by apply updateField_keeps in H.
  - unfold UpdateURL. destruct (updateField _ _ _ _) eqn:H.
    by apply updateField_keeps in H.
  - unfold UpdateComment. destruct (updateField _ _ _ _) eqn:H.
    by apply updateField_keeps in H.
  - destruct (AddTags _ _ _) eqn:H. by apply AddTags_keeps in H.
  - destruct (RemoveTags _ _ _) eqn:H. by apply RemoveTags_keeps in H.
  - unfold ClearTags. destruct (updateField _ _ _ _) eqn:H.
    by apply updateField_keeps in H.
Qed.

Lemma invoke_preserves db m :
  method_typed m → contiguous db → count_ok db →
  contiguous (invoke db m).1 ∧ count_ok (invoke db m).1.
Proof.
  intros Hty Hcont Hc.
  destruct m as [b|id|id v|id v|id v|id tags|id tags|id];
    try (by apply Add_preserves); try (by apply Remove_preserves);
    (edestruct (update_method_keeps db) as (Hlen & Hdom & _); [| |
       unfold contiguous, count_ok in *; split;
       [intros j; rewrite Hdom, Hlen; apply Hcont|rewrite Hlen; apply Hc]]);
    done.
Qed.

Lemma run_methods_preserves ms : ∀ db,
  Forall method_typed ms → contiguous db → count_ok db →
  contiguous (run_methods db ms) ∧ count_ok (run_methods db ms).
Proof.
  induction ms as [|m ms IH]; intros db Hty Hcont Hc; [done|].
  apply Forall_cons_1 in Hty as [Hm Hty].
  destruct (invoke_preserves db m) as [??]; [done..|].
  by apply IH.
Qed.

Lemma Remove_len db id db' e :
  Remove db id = (db', e) →
  len db' = len db + match e with Some _ => 0 | None => -1 end.
Proof.
  unfold Remove.
  destruct (bool_decide (id < 1) || bool_decide (uint16 (id - 1) >= len db)).
  { intros [= <- <-]. lia. }
  simpl. destruct (renumber _ _ _) as [t' [e'|]]; intros [= <- <-]; simpl; lia.
Qed.
End method_facts.

(** X5.  Every mutating method of the store (Add, Remove, the three
    field updates, AddTags, RemoveTags, ClearTags), called any number of
    times in any order on a store whose ids are [1..Len()] within capacity,
    leaves a store whose ids are [1..Len()] within capacity, as long as no
    [Remove] of the sequence stops at a statement that failed (returns
    "failed to delete bookmark" or "failed to update bookmark id").  The
    calls may return any other error: of the range checks, of the capacity
    check, of a constraint of the table, of a scan. *)
Theorem methods_keep_contiguity (db : bukudb.BukuDB) (ms : list method) :
  contiguous db → count_ok db → Forall method_typed ms →
  Forall (λ r, ∀ e, r = Some e → statement_failed e = false) (run_errors db ms) →
  (∀ id, is_Some (bukudb.conn (run_methods db ms) !! id)
         ↔ 1 ≤ id ≤ bukudb.Len (run_methods db ms))
  ∧ 0 ≤ bukudb.Len (run_methods db ms) ≤ bukudb.MaxBookmarks.
Proof.
  intros Hcont Hc Hty _.
  destruct (run_methods_preserves ms db) as [H1 H2]; done.
Qed.

(** A sequence in which three calls return an error: the URL is taken,
    the id is beyond the count after the removal, the id is out of
    range. *)
Lemma methods_keep_contiguity_witness :
  let ms := [MUpdateURL 1 "https://www.b.com"; MRemove 3; MAddTags 4 ["x"];
             MAdd (bukudb.mkBookmark 0 "https://www.e.com" "" [] "");
             MClearTags 9] in
  run_errors test_db ms
  = [Some (bukudb.ErrUpdateField sql.ColURL sql.UniqueConstraint); None;
     Some (bukudb.ErrBookmarkIdOutOfRange 4 3); None;
     Some (bukudb.ErrIdOutOfRange 9 4)]
  ∧ (∀ id, is_Some (bukudb.conn (run_methods test_db ms) !! id)
           ↔ 1 ≤ id ≤ bukudb.Len (run_methods test_db ms))
  ∧ 0 ≤ bukudb.Len (run_methods test_db ms) ≤ bukudb.MaxBookmarks.
Proof.
  intros ms. split; [by vm_compute|].
  apply (methods_keep_contiguity test_db).
  - apply contiguous_dom. by vm_compute.
  - unfold count_ok, bukudb.MaxBookmarks. simpl. lia.
  - repeat constructor; simpl; lia.
  - assert (run_errors test_db ms
            = [Some (bukudb.ErrUpdateField sql.ColURL sql.UniqueConstraint); None;
               Some (bukudb.ErrBookmarkIdOutOfRange 4 3); None;
               Some (bukudb.ErrIdOutOfRange 9 4)]) as -> by (by vm_compute).
    repeat constructor; by intros e [= <-].
Defined.

(** X6.  On a store within capacity a call changes [Len()] only when it is
    an [Add] or a [Remove] that returns no error: by one up and by one
    down.  Every other call, and every call that returns an error, leaves
    [Len()] as it was. *)
Theorem Len_changes_by_Add_and_Remove (db : bukudb.BukuDB) (m : method) :
  count_ok db →
  bukudb.Len (invoke db m).1 = bukudb.Len db + len_change m (invoke db m).2.
Proof.
  intros Hc. unfold bukudb.Len.
  destruct m as [b|id|id v|id v|id v|id tags|id tags|id].
  1: { simpl. destruct (bukudb.Add db b) as [db' [e|]] eqn:Hadd; simpl.
       - apply Add_failed_unchanged in Hadd as ->. lia.
       - apply Add_inv in Hadd as (_ & _ & _ & ->); [|done]. simpl. lia. }
  1: { simpl. destruct (bukudb.Remove db id) as [db' e] eqn:Hrm.
       apply Remove_len in Hrm. destruct e; simpl in *; lia. }
  all: match goal with
       | |- context [invoke ?d ?m] =>
           destruct (update_method_keeps d m) as (Hlen & _); [done|done|];
           rewrite Hlen; unfold len_change; destruct (invoke d m).2; simpl; lia
       end.
Qed.

Lemma Len_changes_by_Add_and_Remove_witness :
  bukudb.Len (invoke test_db (MRemove 2)).1 = bukudb.Len test_db + -1.
Proof.
  apply (Len_changes_by_Add_and_Remove test_db (MRemove 2)).
  unfold count_ok, bukudb.MaxBookmarks. simpl. lia.
Defined.

(** ** URLs stay unique *)

Section url_facts.
Import bukudb.
Implicit Types (db : BukuDB) (t : gmap Z sql.Row) (id : Z).

Lemma url_taken_false t self url j r :
  sql.url_taken t self url = false → t !! j = Some r → self ≠ Some j →
  sql.URL r ≠ url.
Proof.
  intros Hfree Hj Hself Hurl.
  assert (sql.url_taken t self url = true) as Htaken; [|congruence].
  apply url_taken_true. by exists j, r.
Qed.

Lemma urls_unique_insert_row t id r r0 :
  urls_unique t → t !! id = Some r0 →
  (∀ j rj, j ≠ id → t !! j = Some rj → sql.URL rj ≠ sql.URL r) →
  urls_unique (<[id := r]> t).
Proof.
  intros Hu Hr0 Hfresh i j ri rj Hi Hj Hurl.
  destruct (decide (i = id)) as [->|Hi'], (decide (j = id)) as [->|Hj']; [done|..].
  - rewrite lookup_insert_eq in Hi. rewrite lookup_insert_ne in Hj by done.
    simplify_eq. by destruct (Hfresh j rj).
  - rewrite lookup_insert_eq in Hj. rewrite lookup_insert_ne in Hi by done.
    simplify_eq. by destruct (Hfresh i ri).
  - rewrite lookup_insert_ne in Hi, Hj by done. by eapply Hu.
Qed.

Lemma updateField_urls_unique db id c v :
  urls_unique (conn db) → urls_unique (conn (updateField db id c v).1).
Proof.
  intros Hu. unfold updateField.
  destruct (bool_decide (id < 1) || bool_decide (id > len db)); [done|].
  unfold sql.update_column. destruct (conn db !! id) as [r|] eqn:Hr; [|done].
  assert (c ≠ sql.ColURL →
          urls_unique (<[id := sql.set_column c v r]> (conn db))) as Hkeep.
  { intros Hc. apply (urls_unique_insert_row _ _ _ r); [done..|].
    intros j rj Hj Hrj Hurl. apply Hj. apply (Hu j id rj r); [done..|].
    rewrite Hurl. by destruct c. }
  destruct c; try (simpl; by apply Hkeep).
  destruct (sql.url_taken (conn db) (Some id) v) eqn:Hfree; [done|]. simpl.
  apply (urls_unique_insert_row _ _ _ r); [done..|].
  intros j rj Hj Hrj. simpl. eapply url_taken_false; [done..|].
  intros [= ->]. done.
Qed.

Lemma Add_urls_unique db b :
  count_ok db → urls_unique (conn db) → urls_unique (conn (Add db b).1).
Proof.
  intros Hc Hu. destruct (Add db b) as [db' [e|]] eqn:Hadd.
  - apply Add_failed_unchanged in Hadd as ->. done.
  - apply Add_inv in Hadd as (_ & Hnew & Hfree & ->); [|done]. simpl.
    intros i j ri rj Hi Hj Hurl.
    destruct (decide (i = len db + 1)) as [->|Hi'],
             (decide (j = len db + 1)) as [->|Hj']; [done|..].
    + rewrite lookup_insert_eq in Hi. rewrite lookup_insert_ne in Hj by done.
      simplify_eq. simpl in Hurl.
      by destruct (url_taken_false _ _ _ j rj Hfree Hj).
    + rewrite lookup_insert_eq in Hj. rewrite lookup_insert_ne in Hi by done.
      simplify_eq. simpl in Hurl.
      by destruct (url_taken_false _ _ _ i ri Hfree Hi).
    + rewrite lookup_insert_ne in Hi, Hj by done. by eapply Hu.
Qed.

Lemma Remove_urls_unique db id :
  0 ≤ id < 65536 → contiguous db → count_ok db →
  urls_unique (conn db) → urls_unique (conn (Remove db id).1).
Proof.
  intros Hty Hcont Hc Hu. destruct (decide (1 ≤ id ≤ len db)) as [Hid|Hid].
  - destruct (Remove_in_range db id Hcont Hc Hid) as (t' & -> & Ht'). simpl.
    intros i j ri rj Hi Hj Hurl. rewrite Ht' in Hi, Hj.
    repeat case_bool_decide.
    + by eapply Hu.
    + pose proof (Hu _ _ _ _ Hi Hj Hurl). lia.
    + pose proof (Hu _ _ _ _ Hi Hj Hurl). lia.
    + pose proof (Hu _ _ _ _ Hi Hj Hurl). lia.
  - by rewrite Remove_out_of_range.
Qed.

Lemma invoke_urls_unique db m :
  method_typed m → contiguous db → count_ok db →
  urls_unique (conn db) → urls_unique (conn (invoke db m).1).
Proof.
  intros Hty Hcont Hc Hu.
  destruct m as [b|id|id v|id v|id v|id tags|id tags|id]; simpl.
  - by apply Add_urls_unique.
  - by apply Remove_urls_unique.
  - by apply updateField_urls_unique.
  - by apply updateField_urls_unique.
  - by apply updateField_urls_unique.
  - unfold AddTags. destruct (Get db id); [done|]. by apply updateField_urls_unique.
  - unfold RemoveTags. destruct (Get db id); [done|].
    by apply updateField_urls_unique.
  - by apply updateField_urls_unique.
Qed.
End url_facts.

(** X7.  No sequence of calls of the mutating methods makes two
    bookmarks share a URL: starting from a store of distinct URLs with ids
    [1..Len()] within capacity, the URLs are distinct after every call. *)
Theorem methods_keep_urls_unique (db : bukudb.BukuDB) (ms : list method) :
  contiguous db → count_ok db → urls_unique (bukudb.conn db) →
  Forall method_typed ms →
  ∀ i j bi bj,
    bukudb.Get (run_methods db ms) i = inr bi →
    bukudb.Get (run_methods db ms) j = inr bj →
    bukudb.URL bi = bukudb.URL bj → i = j.
Proof.
  intros Hcont Hc Hu Hty.
  assert (contiguous (run_methods db ms) ∧ count_ok (run_methods db ms)
          ∧ urls_unique (bukudb.conn (run_methods db ms))) as (_ & _ & Hu').
  { revert db Hcont Hc Hu. induction Hty as [|m ms Hm _ IH]; intros db Hcont Hc Hu.
    - done.
    - destruct (invoke_preserves db m) as [??]; [done..|].
      apply IH; [done..|]. by apply invoke_urls_unique. }
  intros i j bi bj Hi Hj Hurl.
  apply Get_inr_inv in Hi as (_ & _ & ri & Hri & ->).
  apply Get_inr_inv in Hj as (_ & _ & rj & Hrj & ->).
  by eapply Hu'.
Qed.

Lemma methods_keep_urls_unique_witness :
  let db' := run_methods abcd_db [MUpdateURL 1 "b"; MRemove 2; MUpdateURL 1 "b"] in
  bukudb.Len db' = 3
  ∧ ∀ i j bi bj,
      bukudb.Get db' i = inr bi → bukudb.Get db' j = inr bj →
      bukudb.URL bi = bukudb.URL bj → i = j.
Proof.
  split; [by vm_compute|].
  apply (methods_keep_urls_unique abcd_db).
  - apply contiguous_dom. by vm_compute.
  - unfold count_ok, bukudb.MaxBookmarks. simpl. lia.
  - intros i j ri rj Hi Hj Hurl.
    assert (∀ k r, bukudb.conn abcd_db !! k = Some r →
                   (k = 1 ∧ sql.URL r = "a") ∨ (k = 2 ∧ sql.URL r = "b")
                   ∨ (k = 3 ∧ sql.URL r = "c") ∨ (k = 4 ∧ sql.URL r = "d")) as Hrows.
    { intros k r Hk. apply elem_of_map_to_list in Hk.
      vm_compute in Hk. repeat (apply elem_of_cons in Hk as [Hk|Hk]);
        [simplify_eq; tauto..|by apply not_elem_of_nil in Hk]. }
    destruct (Hrows i ri Hi) as [[-> Ei]|[[-> Ei]|[[-> Ei]|[-> Ei]]]],
             (Hrows j rj Hj) as [[-> Ej]|[[-> Ej]|[[-> Ej]|[-> Ej]]]];
      try done; rewrite Ei, Ej in Hurl; discriminate Hurl.
  - repeat constructor; simpl; lia.
Defined.

(** ** Tags read back *)

Section tags_read_back.
Import bukudb.
Implicit Types (db : BukuDB) (id : Z) (b : Bookmark) (tags : list string).

Lemma filter_ok l p : Forall tag_ok l → Forall tag_ok (filter l p).
Proof.
  rewrite !List.Forall_forall. intros Hl t Ht.
  apply filter_In in Ht as [Ht _]. by apply Hl.
Qed.

Lemma filter_twice l p : filter (filter l p) p = filter l p.
Proof.
  induction l as [|x l IH]; simpl; [done|].
  destruct (p x) eqn:Hp; simpl; [|done]. by rewrite Hp, IH.
Qed.

(** What [Get] reads back from a wrapped column of well-formed tags. *)
Lemma get_tags_wrap l : Forall tag_ok l → get_tags (wrap l) = l.
Proof.
  intros Hok. unfold wrap. rewrite get_tags_wrapped.
  - apply filter_nonempty_id. eapply Forall_impl; [done|]. by intros ? [? _].
  - eapply Forall_impl; [done|]. by intros ? [_ ?].
Qed.

Lemma RemoveTags_unfold db id tags b :
  Get db id = inr b →
  RemoveTags db id tags
  = updateField db id sql.ColTags
      (wrap (filter (Tags b) (λ t, negb (slices.Contains tags t)))).
Proof. intros Hget. unfold RemoveTags. by rewrite Hget. Qed.
End tags_read_back.

(** X8.  [RemoveTags] on a bookmark that [Get] returns gives no error,
    whatever the arguments.  Afterwards [Get] returns the bookmark with the
    tags that equal no argument, in their old order, and the other fields as
    before; the other bookmarks and [Len()] are as before; and a second
    [RemoveTags] with the same arguments leaves the store as it is. *)
Theorem RemoveTags_read_back
    (db : bukudb.BukuDB) (id : Z) (tags : list string) (b : bukudb.Bookmark) :
  bukudb.Get db id = inr b →
  ∃ db' kept,
    bukudb.RemoveTags db id tags = (db', None)
    ∧ bukudb.Len db' = bukudb.Len db
    ∧ bukudb.Get db' id
      = inr (bukudb.mkBookmark (bukudb.ID b) (bukudb.URL b) (bukudb.Title b) kept
                               (bukudb.Comment b))
    ∧ kept = bukudb.filter (bukudb.Tags b) (λ t, negb (slices.Contains tags t))
    ∧ (∀ t, In t kept ↔ In t (bukudb.Tags b) ∧ ¬ In t tags)
    ∧ (∀ j, j ≠ id → bukudb.Get db' j = bukudb.Get db j)
    ∧ bukudb.RemoveTags db' id tags = (db', None).
Proof.
  intros Hget. pose proof Hget as Hget0.
  apply Get_inr_inv in Hget as (Hid & Hu & r & Hr & ->). simpl.
  set (kept := bukudb.filter (bukudb.get_tags (sql.tags r))
                             (λ t, negb (slices.Contains tags t))).
  assert (Forall tag_ok kept) as Hkept by apply filter_ok, get_tags_ok.
  set (r' := sql.set_column sql.ColTags (wrap kept) r).
  set (db' := bukudb.mkBukuDB (<[id := r']> (bukudb.conn db)) (bukudb.len db)).
  assert (bukudb.Get db' id
          = inr (bukudb.mkBookmark id (sql.URL r) (sql.metadata r) kept (sql.desc r)))
    as Hget'.
  { erewrite Get_in_range; [|simpl; lia|done|simpl; apply lookup_insert_eq].
    simpl. by rewrite get_tags_wrap. }
  exists db', kept.
  split. { rewrite (RemoveTags_unfold db id tags _ Hget0). simpl.
           by apply updateField_tags. }
  split; [done|]. split; [done|]. split; [done|]. split; [|split].
  - intros t. unfold kept. rewrite filter_In, negb_true_iff.
    destruct (slices.Contains tags t) eqn:Hc.
    + apply Contains_In in Hc. split; [by intros [_ ?]|]. by intros [_ []].
    + split; [|by intros [? _]]. intros [? _]. split; [done|].
      intros Hin. apply Contains_In in Hin. congruence.
  - intros j Hj. apply Get_other; [done|]. simpl. by rewrite lookup_insert_ne.
  - rewrite (RemoveTags_unfold db' id tags _ Hget'). simpl.
    unfold kept at 1. rewrite filter_twice. fold kept.
    erewrite updateField_tags; [|done|simpl; apply lookup_insert_eq].
    unfold db'. simpl. by rewrite insert_insert_eq.
Qed.

Lemma RemoveTags_read_back_witness :
  ∃ db' kept,
    bukudb.RemoveTags test_db 2 ["tag2"; "tag3"; "x,y"; ""] = (db', None)
    ∧ bukudb.Get db' 2
      = inr (bukudb.mkBookmark 2 "https://www.b.com" "metadata (title) b" kept "")
    ∧ kept = ["b"].
Proof.
  destruct (RemoveTags_read_back test_db 2 ["tag2"; "tag3"; "x,y"; ""]
              (bukudb.mkBookmark 2 "https://www.b.com" "metadata (title) b"
                                 ["b"; "tag2"; "tag3"] ""))
    as (db' & kept & Hrm & _ & Hget & Hkept & _).
  - by vm_compute.
  - exists db', kept. split; [done|]. split; [done|]. rewrite Hkept. reflexivity.
Defined.

(** X9.  [ClearTags] on a bookmark of a store with ids [1..Len()]: it
    returns no error; afterwards [Get] returns the bookmark without tags and
    otherwise as before, the element of [GetAll] for the id is that same
    bookmark, and the other bookmarks are as before. *)
Theorem ClearTags_read_back
    (rt : bukudb.Runtime) (db : bukudb.BukuDB) (id : Z) (b : bukudb.Bookmark) :
  runtime_ok rt → contiguous db → count_ok db →
  bukudb.Get db id = inr b →
  let cleared := bukudb.mkBookmark (bukudb.ID b) (bukudb.URL b) (bukudb.Title b) []
                                   (bukudb.Comment b) in
  ∃ db' bs,
    bukudb.ClearTags db id = (db', None)
    ∧ bukudb.Get db' id = inr cleared
    ∧ bukudb.GetAll rt db' = inr bs
    ∧ bs !! Z.to_nat (id - 1) = Some cleared
    ∧ (∀ j, j ≠ id → bukudb.Get db' j = bukudb.Get db j).
Proof.
  intros Hrt Hcont Hc Hget cleared. subst cleared.
  apply Get_inr_inv in Hget as (Hid & Hu & r & Hr & ->). simpl.
  set (r' := sql.set_column sql.ColTags "," r).
  set (db' := bukudb.mkBukuDB (<[id := r']> (bukudb.conn db)) (bukudb.len db)).
  assert (contiguous db' ∧ count_ok db') as [Hcont' Hc'].
  { split; [|done]. intros j. simpl. destruct (decide (j = id)) as [->|Hne].
    - rewrite lookup_insert_eq. split; [done|by eexists].
    - rewrite lookup_insert_ne by done. apply Hcont. }
  destruct (GetAll_contiguous rt db' Hrt Hcont' Hc') as (bs & Hbs & _ & Hrows).
  exists db', bs.
  split. { unfold bukudb.ClearTags. by apply updateField_tags. }
  split. { erewrite Get_in_range; [|simpl; lia|done|simpl; apply lookup_insert_eq].
           reflexivity. }
  split; [done|]. split.
  - rewrite (Hrows id r'); [reflexivity|]. simpl. apply lookup_insert_eq.
  - intros j Hj. apply Get_other; [done|]. simpl. by rewrite lookup_insert_ne.
Qed.

Lemma ClearTags_read_back_witness :
  ∃ db' bs,
    bukudb.ClearTags test_db 2 = (db', None)
    ∧ bukudb.Get db' 2
      = inr (bukudb.mkBookmark 2 "https://www.b.com" "metadata (title) b" [] "")
    ∧ bukudb.GetAll (last_first 3) db' = inr bs
    ∧ bs !! 1%nat
      = Some (bukudb.mkBookmark 2 "https://www.b.com" "metadata (title) b" [] "").
Proof.
  destruct (ClearTags_read_back (last_first 3) test_db 2
              (bukudb.mkBookmark 2 "https://www.b.com" "metadata (title) b"
                                 ["b"; "tag2"; "tag3"] ""))
    as (db' & bs & ? & ? & ? & ? & _).
  - apply last_first_ok. lia.
  - apply contiguous_dom. by vm_compute.
  - unfold count_ok, bukudb.MaxBookmarks. simpl. lia.
  - by vm_compute.
  - by exists db', bs.
Defined.

(** X10.  After an [AddTags] with well-formed arguments that returns no
    error, the tags [Get] returns are in case-insensitive order (no tag is
    below its left neighbour), they hold every tag that was stored and every
    argument and nothing else, the other fields of the bookmark, the other
    bookmarks and [Len()] are as before. *)
Theorem AddTags_read_back
    (db db1 : bukudb.BukuDB) (id : Z) (tags : list string) :
  Forall tag_ok tags → bukudb.AddTags db id tags = (db1, None) →
  ∃ b b1,
    bukudb.Get db id = inr b ∧ bukudb.Get db1 id = inr b1
    ∧ (∀ t, In t (bukudb.Tags b1) ↔ In t (bukudb.Tags b) ∨ In t tags)
    ∧ Sorted (λ x y, bukudb.less_tag y x = false) (bukudb.Tags b1)
    ∧ bukudb.ID b1 = bukudb.ID b ∧ bukudb.URL b1 = bukudb.URL b
    ∧ bukudb.Title b1 = bukudb.Title b ∧ bukudb.Comment b1 = bukudb.Comment b
    ∧ bukudb.Len db1 = bukudb.Len db
    ∧ (∀ j, j ≠ id → bukudb.Get db1 j = bukudb.Get db j).
Proof.
  intros Htags Hadd.
  destruct (AddTags_stored db id tags db1 Htags Hadd) as (b & b1 & Hb & Hb1 & Ht).
  apply AddTags_inv in Hadd as (Hid & Hu & r & Hr & ->).
  exists b, b1. split; [done|]. split; [done|].
  split. { intros t. rewrite Ht. apply merged_In. }
  split. { rewrite Ht. apply (Slice_sorted bukudb.less_tag), less_tag_asym. }
  apply Get_inr_inv in Hb as (_ & _ & r0 & Hr0 & ->).
  apply Get_inr_inv in Hb1 as (_ & _ & r1 & Hr1 & ->).
  simpl in Hr1. rewrite lookup_insert_eq in Hr1. simplify_eq. simpl.
  repeat (split; [done|]).
  intros j Hj. apply Get_other; [done|]. simpl. by rewrite lookup_insert_ne.
Qed.

Lemma AddTags_read_back_witness :
  ∃ b b1,
    bukudb.Get test_db 2 = inr b
    ∧ bukudb.Get (bukudb.AddTags test_db 2 ["Tag1"; "b"]).1 2 = inr b1
    ∧ (∀ t, In t (bukudb.Tags b1) ↔ In t (bukudb.Tags b) ∨ In t ["Tag1"; "b"])
    ∧ Sorted (λ x y, bukudb.less_tag y x = false) (bukudb.Tags b1).
Proof.
  destruct (AddTags_read_back test_db (bukudb.AddTags test_db 2 ["Tag1"; "b"]).1 2
              ["Tag1"; "b"])
    as (b & b1 & ? & ? & ? & ? & _).
  - repeat constructor; by vm_compute.
  - by vm_compute.
  - by exists b, b1.
Defined.

(** ** Add and Remove *)

(** X11.  [Remove(Len())] right after an [Add] that returned no error
    gives back the store as it was before the [Add]. *)
Theorem Remove_undoes_Add (db db1 : bukudb.BukuDB) (b : bukudb.Bookmark) :
  count_ok db → bukudb.Add db b = (db1, None) →
  bukudb.Remove db1 (bukudb.Len db1) = (db, None).
Proof.
  intros Hc Hadd. apply Add_inv in Hadd as (Hcap & Hnew & _ & ->); [|done].
  unfold count_ok, bukudb.MaxBookmarks, bukudb.Len in *. simpl.
  unfold bukudb.Remove. simpl.
  rewrite uint16_small by lia.
  rewrite (bool_decide_eq_false_2 (bukudb.len db + 1 < 1)) by lia.
  rewrite (bool_decide_eq_false_2 (bukudb.len db + 1 - 1 >= bukudb.len db + 1)) by lia.
  simpl. replace (bukudb.len db + 1 - (bukudb.len db + 1 - 1 + 1)) with 0 by lia.
  simpl. rewrite delete_insert_id by done.
  replace (bukudb.len db + 1 - 1) with (bukudb.len db) by lia. by destruct db.
Qed.

Lemma Remove_undoes_Add_witness :
  let b := bukudb.mkBookmark 0 "https://www.new.com" "" ["new"] "" in
  bukudb.Remove (bukudb.Add test_db b).1 (bukudb.Len (bukudb.Add test_db b).1)
  = (test_db, None).
Proof.
  intros b. apply (Remove_undoes_Add test_db (bukudb.Add test_db b).1 b).
  - unfold count_ok, bukudb.MaxBookmarks. simpl. lia.
  - by vm_compute.
Defined.

(** X12.  [Remove] returns the out-of-range error exactly when the id
    is outside [1..Len()] (for [Remove(0)] the index [id - 1] wraps around
    to 65535, and the test [id < 1] rejects it), and then it leaves the
    store as it was.  With an id inside [1..Len()] the only errors [Remove]
    can return are those of a statement that failed: "failed to delete
    bookmark" and "failed to update bookmark id". *)
Theorem Remove_out_of_range_iff (db : bukudb.BukuDB) (id : Z) :
  count_ok db → 0 ≤ id < 65536 →
  (¬ (1 ≤ id ≤ bukudb.Len db) →
   bukudb.Remove db id = (db, Some (bukudb.ErrIdOutOfRange id (bukudb.Len db))))
  ∧ (1 ≤ id ≤ bukudb.Len db →
     ∀ e, (bukudb.Remove db id).2 = Some e →
          bukudb.is_out_of_range e = false ∧ statement_failed e = true).
Proof.
  intros Hc Hty. unfold bukudb.Len. split.
  - intros Hid. by apply Remove_out_of_range.
  - intros Hid e. unfold count_ok, bukudb.MaxBookmarks in Hc. unfold bukudb.Remove.
    rewrite uint16_small by lia.
    rewrite (bool_decide_eq_false_2 (id < 1)) by lia.
    rewrite (bool_decide_eq_false_2 (id - 1 >= bukudb.len db)) by lia.
    cbn [orb]. destruct (sql.delete_id _ _) as [f|t]; [by intros [= <-]|].
    destruct (bukudb.renumber _ _ _) as [t' [f|]]; [by intros [= <-]|done].
Qed.

Lemma Remove_out_of_range_iff_witness :
  bukudb.Remove test_db 0 = (test_db, Some (bukudb.ErrIdOutOfRange 0 4))
  ∧ bukudb.Remove test_db 5 = (test_db, Some (bukudb.ErrIdOutOfRange 5 4)).
Proof.
  split.
  - refine (proj1 (Remove_out_of_range_iff test_db 0 _ _) _).
    + unfold count_ok, bukudb.MaxBookmarks. simpl. lia.
    + lia.
    + simpl. lia.
  - refine (proj1 (Remove_out_of_range_iff test_db 5 _ _) _).
    + unfold count_ok, bukudb.MaxBookmarks. simpl. lia.
    + lia.
    + simpl. lia.
Defined.

(** ** Opening a store *)

Section open_more.
Import bukudb.
Implicit Types (t : gmap Z sql.Row).

Lemma select_max_id_empty t : sql.select_max_id t = None ↔ t = ∅.
Proof.
  unfold sql.select_max_id. split.
  - destruct (map_to_list t) as [|[k r] l] eqn:Hl; [|done].
    intros _. by apply map_to_list_empty_iff.
  - intros ->. by rewrite map_to_list_empty.
Qed.

(** [SELECT MAX(id)] on a table whose ids are [1..n]. *)
Lemma select_max_id_range t n :
  1 ≤ n → (∀ id, is_Some (t !! id) ↔ 1 ≤ id ≤ n) → sql.select_max_id t = Some n.
Proof.
  intros Hn Hids. unfold sql.select_max_id.
  destruct ((map_to_list t).*1) as [|k ks] eqn:Hkeys.
  - exfalso. apply fmap_nil_inv, map_to_list_empty_iff in Hkeys. subst t.
    destruct (proj2 (Hids 1)) as [r Hr]; [lia|]. by rewrite lookup_empty in Hr.
  - f_equal.
    assert (∀ x, x ∈ k :: ks ↔ 1 ≤ x ≤ n) as Hmem.
    { intros x. rewrite <-Hkeys, <-Hids, list_elem_of_fmap. split.
      - intros ([x' r] & -> & Hin). apply elem_of_map_to_list in Hin. by exists r.
      - intros [r Hr]. exists (x, r). split; [done|]. by apply elem_of_map_to_list. }
    destruct (foldr_max_bounds k ks) as [Hin Hle].
    apply Hmem in Hin. specialize (Hle n (proj2 (Hmem n) ltac:(lia))). lia.
Qed.
End open_more.

(** X13.  [NewBukuDB] fails on an empty table (the maximal id is NULL,
    which [Scan] cannot store in an [int]).  On a table whose ids are
    [1..n] with [1 <= n] it returns the store over that table with count
    [min(n, MaxBookmarks)]; when [n <= MaxBookmarks] this store has ids
    [1..Len()] and is within capacity. *)
Theorem NewBukuDB_opens (t : gmap Z sql.Row) (n : Z) :
  bukudb.NewBukuDB ∅ = inl (bukudb.ErrLength (bukudb.ErrMaxId sql.ConversionError))
  ∧ (1 ≤ n → (∀ id, is_Some (t !! id) ↔ 1 ≤ id ≤ n) →
     bukudb.NewBukuDB t = inr (bukudb.mkBukuDB t (Z.min n bukudb.MaxBookmarks))
     ∧ (n ≤ bukudb.MaxBookmarks →
        contiguous (bukudb.mkBukuDB t (Z.min n bukudb.MaxBookmarks))
        ∧ count_ok (bukudb.mkBukuDB t (Z.min n bukudb.MaxBookmarks)))).
Proof.
  split.
  - unfold bukudb.NewBukuDB, bukudb.getMaxBookmarkID.
    by rewrite (proj2 (select_max_id_empty ∅)).
  - intros Hn Hids. split.
    + unfold bukudb.NewBukuDB, bukudb.getMaxBookmarkID.
      rewrite (select_max_id_range t n) by done.
      do 2 f_equal. unfold bukudb.MaxBookmarks. case_bool_decide; lia.
    + intros Hcap. unfold contiguous, count_ok, bukudb.MaxBookmarks in *. simpl.
      rewrite Z.min_l by done. split; [done|lia].
Qed.

Lemma NewBukuDB_opens_witness :
  bukudb.NewBukuDB (bukudb.conn test_db) = inr test_db.
Proof.
  refine (proj1 (proj2 (NewBukuDB_opens (bukudb.conn test_db) 4) _ _)).
  - lia.
  - apply (contiguous_dom test_db). by vm_compute.
Defined.

(** X14.  A table with more rows than [MaxBookmarks] (ids [1..n],
    [n > MaxBookmarks]) is opened with count [MaxBookmarks]: the rows above
    are out of reach.  [Get(MaxBookmarks + 1)] returns the out-of-range
    error, [Add] returns the capacity error, and [GetAll] returns the
    bookmarks with ids [1..MaxBookmarks]. *)
Theorem NewBukuDB_caps
    (rt : bukudb.Runtime) (t : gmap Z sql.Row) (n : Z) (b : bukudb.Bookmark) :
  runtime_ok rt →
  bukudb.MaxBookmarks < n → (∀ id, is_Some (t !! id) ↔ 1 ≤ id ≤ n) →
  ∃ db, bukudb.NewBukuDB t = inr db
    ∧ bukudb.Len db = bukudb.MaxBookmarks
    ∧ is_Some (bukudb.conn db !! (bukudb.MaxBookmarks + 1))
    ∧ bukudb.Get db (bukudb.MaxBookmarks + 1)
      = inl (bukudb.ErrBookmarkIdOutOfRange (bukudb.MaxBookmarks + 1)
                                            bukudb.MaxBookmarks)
    ∧ bukudb.Add db b = (db, Some bukudb.ErrMaxReached)
    ∧ ∃ bs, bukudb.GetAll rt db = inr bs
            ∧ bukudb.ID <$> bs = seqZ 1 bukudb.MaxBookmarks.
Proof.
  intros Hrt Hn Hids. unfold bukudb.MaxBookmarks in *.
  exists (bukudb.mkBukuDB t 1000).
  split. { unfold bukudb.NewBukuDB, bukudb.getMaxBookmarkID.
           rewrite (select_max_id_range t n) by (done || lia).
           unfold bukudb.MaxBookmarks. by rewrite bool_decide_eq_true_2 by lia. }
  split; [done|]. split; [simpl; apply Hids; lia|].
  split; [done|]. split.
  - apply Add_full; unfold count_ok, bukudb.MaxBookmarks; simpl; lia.
  - eexists. split.
    + unfold bukudb.GetAll. simpl. apply loadBookmarks_sorted_rows; [done|lia].
    + rewrite <-list_fmap_compose. apply (rows_at_all t).
      apply Forall_seqZ. intros i Hi. apply Hids. lia.
Qed.

(** A table of 1001 rows. *)
Lemma NewBukuDB_caps_witness :
  let t : gmap Z sql.Row :=
    list_to_map ((λ i, (i, sql.mkRow (String (ascii_of_nat (Z.to_nat (i `mod` 256)))
                                       (String (ascii_of_nat (Z.to_nat (i `div` 256))) ""))
                                     "" "," "" 0)) <$> seqZ 1 1001) in
  ∃ db, bukudb.NewBukuDB t = inr db ∧ bukudb.Len db = bukudb.MaxBookmarks.
Proof.
  intros t.
  destruct (NewBukuDB_caps (in_order 2) t 1001
              (bukudb.mkBookmark 0 "u" "" [] "")) as (db & ? & ? & _).
  - apply in_order_ok. lia.
  - unfold bukudb.MaxBookmarks. lia.
  - intros k. rewrite <-elem_of_dom. unfold t.
    rewrite dom_list_to_map_L, <-list_fmap_compose.
    change (list_to_set _) with (list_to_set (C:=gset Z) (id <$> seqZ 1 1001)).
    rewrite list_fmap_id, elem_of_list_to_set, elem_of_seqZ. lia.
  - exists db. split; assumption.
Defined.

(** ** GetAll on any store *)

Section getall_general.
Import bukudb.

Lemma substring_prefix (a b : string) : substring 0 (String.length a) (a ++ b) = a.
Proof.
  induction a as [|c a IH]; simpl.
  - by destruct b.
  - by rewrite IH.
Qed.

Lemma length_append (a b : string) :
  String.length (a ++ b) = (String.length a + String.length b)%nat.
Proof. induction a as [|c a IH]; simpl; [done|]. by rewrite IH. Qed.

(** The loader strips the two delimiters of a wrapped column. *)
Lemma range_tags_wrap l :
  l ≠ [] → Forall (λ t, has_byte "," t = false) l → range_tags (wrap l) = l.
Proof.
  intros Hne Hl. unfold range_tags.
  change (wrap l) with (String "," (strings.Join l "," ++ ",")).
  assert (String.length (String "," (strings.Join l "," ++ ","))
          = S (S (String.length (strings.Join l ",")))) as ->.
  { simpl. rewrite length_append. simpl. lia. }
  change (2 <=? S (S (String.length (strings.Join l ","))))%nat with true.
  replace (S (S (String.length (strings.Join l ","))) - 2)%nat
    with (String.length (strings.Join l ",")) by lia.
  change (substring 1 ?n (String ?c ?s)) with (substring 0 n s).
  rewrite substring_prefix. by apply Split_Join.
Qed.

Lemma rows_at_length (t : gmap Z sql.Row) ids :
  (length (rows_at t ids) ≤ length ids)%nat.
Proof.
  induction ids as [|i ids IH]; simpl; [done|].
  unfold rows_at in *. simpl. destruct (t !! i); simpl; lia.
Qed.

Lemma canonical_tags_agree (tagsString : string) :
  canonical_tags tagsString → range_tags tagsString = get_tags tagsString.
Proof.
  intros [->|(l & Hne & Hok & ->)]; [done|].
  rewrite get_tags_wrap by done. apply range_tags_wrap; [done|].
  eapply Forall_impl; [done|]. by intros ? [_ ?].
Qed.
End getall_general.

(** X15.  On any store with a count in [0..65535], also one with missing
    rows or with rows above the count, [GetAll] returns no error; the ids of
    the bookmarks it returns are strictly ascending, and a bookmark is
    returned exactly when its row is stored under an id of [1..Len()]. *)
Theorem GetAll_rows_in_range (rt : bukudb.Runtime) (db : bukudb.BukuDB) :
  runtime_ok rt → 0 ≤ bukudb.Len db < 65536 →
  ∃ bs, bukudb.GetAll rt db = inr bs
    ∧ StronglySorted Z.lt (bukudb.ID <$> bs)
    ∧ (length bs ≤ Z.to_nat (bukudb.Len db))%nat
    ∧ ∀ b, b ∈ bs ↔ ∃ id r, 1 ≤ id ≤ bukudb.Len db
                            ∧ bukudb.conn db !! id = Some r
                            ∧ b = range_bookmark (id, r).
Proof.
  intros Hrt Hlen. unfold bukudb.Len in *. eexists.
  split; [by apply loadBookmarks_sorted_rows|]. split; [|split].
  - rewrite <-list_fmap_compose.
    apply (rows_at_keys_sorted (bukudb.conn db)), seqZ_sorted.
  - rewrite length_fmap.
    etrans; [apply rows_at_length|]. by rewrite length_seqZ.
  - intros b. rewrite list_elem_of_fmap. split.
    + intros ([id r] & -> & Hin). apply elem_of_rows_at in Hin as [Hin Hr].
      apply elem_of_seqZ in Hin. exists id, r. split; [lia|done].
    + intros (id & r & Hid & Hr & ->). exists (id, r). split; [done|].
      apply elem_of_rows_at. split; [|done]. apply elem_of_seqZ. lia.
Qed.

Lemma GetAll_rows_in_range_witness :
  ∃ bs, bukudb.GetAll (last_first 3) gap_db = inr bs
    ∧ StronglySorted Z.lt (bukudb.ID <$> bs)
    ∧ (length bs ≤ 4)%nat.
Proof.
  destruct (GetAll_rows_in_range (last_first 3) gap_db) as (bs & ? & ? & ? & _).
  - apply last_first_ok. lia.
  - simpl. lia.
  - by exists bs.
Defined.

(** X16.  On a store with ids [1..Len()] whose tags columns are all in the
    format of buku (the delimiter alone, or one or more well-formed tags
    between delimiters), [GetAll] returns for every id of [1..Len()], at
    position [id - 1], the bookmark that [Get(id)] returns. *)
Theorem GetAll_agrees_with_Get (rt : bukudb.Runtime) (db : bukudb.BukuDB) :
  runtime_ok rt → contiguous db → count_ok db →
  (∀ id r, bukudb.conn db !! id = Some r → canonical_tags (sql.tags r)) →
  ∃ bs, bukudb.GetAll rt db = inr bs
    ∧ length bs = Z.to_nat (bukudb.Len db)
    ∧ ∀ id, 1 ≤ id ≤ bukudb.Len db →
        ∃ b, bukudb.Get db id = inr b ∧ bs !! Z.to_nat (id - 1) = Some b.
Proof.
  intros Hrt Hcont Hc Hcanon.
  destruct (GetAll_contiguous rt db Hrt Hcont Hc) as (bs & Hbs & Hids & Hrows).
  exists bs. split; [done|]. split.
  { by rewrite <-(length_fmap bukudb.ID), Hids, length_seqZ. }
  intros id Hid. unfold bukudb.Len in *.
  destruct (proj2 (Hcont id) Hid) as [r Hr].
  unfold count_ok, bukudb.MaxBookmarks in Hc.
  eexists. split; [apply (Get_in_range db id r); done || lia|].
  rewrite (Hrows id r Hr). unfold range_bookmark. simpl.
  by rewrite canonical_tags_agree by eauto.
Qed.

Lemma GetAll_agrees_with_Get_witness :
  ∃ bs, bukudb.GetAll (in_order 3) test_db = inr bs
    ∧ length bs = 4%nat
    ∧ ∀ id, 1 ≤ id ≤ 4 →
        ∃ b, bukudb.Get test_db id = inr b ∧ bs !! Z.to_nat (id - 1) = Some b.
Proof.
  apply (GetAll_agrees_with_Get (in_order 3) test_db).
  - apply in_order_ok. lia.
  - apply contiguous_dom. by vm_compute.
  - unfold count_ok, bukudb.MaxBookmarks. simpl. lia.
  - intros id r Hr. apply elem_of_map_to_list in Hr. vm_compute in Hr.
    repeat (apply elem_of_cons in Hr as [Hr|Hr]);
      [| | | |by apply not_elem_of_nil in Hr]; simplify_eq; simpl.
    + by left.
    + by left.
    + right. exists ["b"; "tag2"; "tag3"]. split; [done|]. split; [|done].
      repeat constructor; by vm_compute.
    + right. exists ["a"; "tag2"; "tag3"]. split; [done|]. split; [|done].
      repeat constructor; by vm_compute.
Defined.

(** * The serialised state and the input handlers *)

Section decimal.
Import strconv fmt.

Lemma digit_digit_byte d : 0 ≤ d < 10 → digit (digit_byte d) = Some d.
Proof.
  intros Hd.
  assert (d = 0 ∨ d = 1 ∨ d = 2 ∨ d = 3 ∨ d = 4 ∨ d = 5 ∨ d = 6 ∨ d = 7
          ∨ d = 8 ∨ d = 9) as Hcases by lia.
  repeat (destruct Hcases as [->|Hcases]; [reflexivity|]). by subst.
Qed.

Lemma parse_loop_digit maxVal n d s :
  0 ≤ d < 10 → 0 ≤ n → n * 10 + d ≤ maxVal → maxVal ≤ maxUint64 →
  parse_loop maxVal n (String (digit_byte d) s) = parse_loop maxVal (n * 10 + d) s.
Proof.
  intros Hd Hn Hle Hmax. unfold maxUint64 in *. simpl.
  rewrite digit_digit_byte by done.
  rewrite Z.mod_small by lia.
  assert ((maxUint64 `div` 10 + 1 <=? n)%Z = false) as ->.
  { apply Z.leb_gt. unfold maxUint64.
    change ((2 ^ 64 - 1) `div` 10 + 1) with 1844674407370955162. lia. }
  assert ((n * 10 + d <? n * 10)%Z = false) as -> by (apply Z.ltb_ge; lia).
  assert ((maxVal <? n * 10 + d)%Z = false) as -> by (apply Z.ltb_ge; lia).
  done.
Qed.

Lemma parse_fmtInteger maxVal fuel : ∀ u buf,
  0 ≤ u ≤ maxVal → maxVal ≤ maxUint64 → u < 10 ^ Z.of_nat fuel →
  parse_loop maxVal 0 (fmtInteger fuel u buf) = parse_loop maxVal u buf.
Proof.
  induction fuel as [|fuel IH]; intros u buf Hu Hmax Hfuel.
  - simpl in *. by replace u with 0 by lia.
  - cbn [fmtInteger]. destruct (Z.leb_spec 10 u) as [Hge|Hlt].
    + assert (u `div` 10 < 10 ^ Z.of_nat fuel).
      { rewrite Nat2Z.inj_succ, Z.pow_succ_r in Hfuel by lia.
        Z.div_mod_to_equations. lia. }
      rewrite IH; [|Z.div_mod_to_equations; lia|done|done].
      rewrite parse_loop_digit; [|Z.div_mod_to_equations; lia..|done].
      f_equal. lia.
    + rewrite (parse_loop_digit maxVal 0 u) by lia. done.
Qed.

Lemma fmtInteger_not_empty fuel : ∀ u buf, fmtInteger (S fuel) u buf ≠ "".
Proof.
  induction fuel as [|fuel IH]; intros u buf; cbn [fmtInteger].
  - by destruct (10 <=? u)%Z.
  - destruct (10 <=? u)%Z; [|done]. apply IH.
Qed.

Lemma ParseUint_Sprint u bitSize :
  1 ≤ bitSize ≤ 64 → 0 ≤ u < 2 ^ bitSize → ParseUint (Sprint u) bitSize = inr u.
Proof.
  intros Hbits Hu. unfold ParseUint.
  destruct (String.eqb_spec (Sprint u) "") as [Heq|_].
  { by apply fmtInteger_not_empty in Heq. }
  assert (2 ^ bitSize ≤ 2 ^ 64) by (apply Z.pow_le_mono_r; lia).
  unfold Sprint. rewrite parse_fmtInteger; [done|lia| unfold maxUint64; lia|].
  change (10 ^ Z.of_nat 20) with 100000000000000000000.
  change (2 ^ 64) with 18446744073709551616 in *. lia.
Qed.

Lemma parse_loop_range maxVal s : ∀ n r,
  0 ≤ n ≤ maxVal → parse_loop maxVal n s = inr r → 0 ≤ r ≤ maxVal.
Proof.
  induction s as [|c s IH]; intros n r Hn; simpl.
  - intros [= <-]. done.
  - destruct (digit c) as [d|]; [|done].
    destruct (_ <=? n)%Z; [done|].
    destruct (Z.ltb_spec ((n * 10 + d) `mod` 2 ^ 64) (n * 10)); [done|].
    destruct (Z.ltb_spec maxVal ((n * 10 + d) `mod` 2 ^ 64)); [done|].
    simpl. apply IH. split; [|done].
    apply Z.mod_pos_bound. lia.
Qed.

Lemma ParseUint_range s bitSize r :
  0 ≤ bitSize → ParseUint s bitSize = inr r → 0 ≤ r < 2 ^ bitSize.
Proof.
  intros Hb. unfold ParseUint. destruct (String.eqb s ""); [done|].
  intros H%parse_loop_range; [lia|].
  pose proof (Z.pow_pos_nonneg 2 bitSize). lia.
Qed.
End decimal.

Section slices_of_strings.

Lemma substring_all (s : string) : substring 0 (String.length s) s = s.
Proof. induction s as [|c s IH]; simpl; [done|]. by rewrite IH. Qed.

Lemma slice_to_app (a t : string) : slice_to (a ++ t) (String.length a) = a.
Proof.
  unfold slice_to. induction a as [|c a IH]; simpl.
  - by destruct t.
  - by rewrite IH.
Qed.

Lemma string_length_app (a b : string) :
  String.length (a ++ b) = (String.length a + String.length b)%nat.
Proof. induction a as [|c a IH]; simpl; [done|]. by rewrite IH. Qed.

Lemma slice_from_app (a t : string) : slice_from (a ++ t) (String.length a) = t.
Proof.
  unfold slice_from. rewrite string_length_app.
  replace (String.length a + String.length t - String.length a)%nat
    with (String.length t) by lia.
  induction a as [|c a IH]; simpl; [apply substring_all|done].
Qed.

Lemma slice_from_app_app (a b t : string) :
  slice_from (a ++ b ++ t) (String.length a + String.length b) = t.
Proof.
  rewrite <-string_length_app.
  assert (a ++ b ++ t = (a ++ b) ++ t) as ->.
  { induction a as [|c a IH]; [done|].
    change (String c (a ++ b ++ t) = String c ((a ++ b) ++ t)). by rewrite IH. }
  apply slice_from_app.
Qed.
End slices_of_strings.

Section delimiter.
Import strings rofidata.

Lemma HasPrefix_delim_app a t :
  a ≠ "" → HasPrefix a delim = false → starts_clear t →
  HasPrefix (a ++ t) delim = false.
Proof.
  intros Ha Hp Ht. unfold delim in *.
  destruct a as [|c1 a]; [done|]. simpl in *.
  destruct (Ascii.eqb c1 _); [|done]. simpl in *.
  destruct a as [|c2 a]; simpl in *.
  { destruct t as [|c t]; [done|]. simpl. destruct Ht as [Ht _].
    apply Ascii.eqb_neq in Ht. by rewrite Ht. }
  destruct (Ascii.eqb c2 _); [|done]. simpl in *.
  destruct a as [|c3 a]; simpl in *.
  { destruct t as [|c t]; [done|]. simpl. destruct Ht as [_ Ht].
    apply Ascii.eqb_neq in Ht. by rewrite Ht. }
  by destruct (Ascii.eqb c3 _).
Qed.

Lemma Index_app a t :
  no_delim a → starts_clear t →
  Index (a ++ t) delim = (λ m, (String.length a + m)%nat) <$> Index t delim.
Proof.
  unfold no_delim. intros Ha Ht. induction a as [|c a IH].
  - change ("" ++ t) with t. by destruct (Index t delim).
  - cbn [Index] in Ha.
    destruct (HasPrefix (String c a) delim) eqn:Hp; [done|].
    destruct (Index a delim) eqn:Hi; [done|].
    change (String c a ++ t) with (String c (a ++ t)). cbn [Index].
    change (String c (a ++ t)) with (String c a ++ t).
    rewrite HasPrefix_delim_app by done.
    rewrite IH by done. by destruct (Index t delim).
Qed.

Lemma Index_app_delim a rest :
  no_delim a → Index (a ++ delim ++ rest) delim = Some (String.length a).
Proof.
  intros Ha. rewrite Index_app; [|done|].
  - change (Index (delim ++ rest) delim) with (Some 0%nat). simpl. f_equal. lia.
  - split; by intros [=].
Qed.

Lemma no_delim_Join l : Forall no_delim l → no_delim (Join l ",").
Proof.
  induction 1 as [|x l Hx Hl IH]; [done|].
  destruct l as [|y l]; [done|].
  change (Join (x :: y :: l) ",") with (x ++ "," ++ Join (y :: l) ",").
  unfold no_delim. rewrite Index_app; [|done|].
  - change (Index ("," ++ Join (y :: l) ",") delim)
      with (S <$> Index (Join (y :: l) ",") delim).
    unfold no_delim in IH. by rewrite IH.
  - split; by intros [=].
Qed.

Lemma no_delim_no_byte s : has_byte (ascii_of_nat 226) s = false → no_delim s.
Proof.
  unfold no_delim. induction s as [|c s IH]; [done|].
  simpl. intros [Hc Hs]%orb_false_iff. rewrite Hc, IH by done. done.
Qed.

Lemma Sprint_no_delim u : 0 ≤ u → no_delim (fmt.Sprint u).
Proof.
  intros Hu. apply no_delim_no_byte. unfold fmt.Sprint.
  assert (∀ d, 0 ≤ d < 10 →
            Ascii.eqb (fmt.digit_byte d) (ascii_of_nat 226) = false) as Hd.
  { intros d Hd.
    assert (d = 0 ∨ d = 1 ∨ d = 2 ∨ d = 3 ∨ d = 4 ∨ d = 5 ∨ d = 6 ∨ d = 7
            ∨ d = 8 ∨ d = 9) as Hcases by lia.
    repeat (destruct Hcases as [->|Hcases]; [reflexivity|]). by subst. }
  assert (∀ fuel u buf, 0 ≤ u → has_byte (ascii_of_nat 226) buf = false →
            has_byte (ascii_of_nat 226) (fmt.fmtInteger fuel u buf) = false) as H.
  { clear u Hu. induction fuel as [|fuel IH]; intros u buf Hu Hbuf; [done|].
    cbn [fmt.fmtInteger]. destruct (Z.leb_spec 10 u).
    - apply IH; [Z.div_mod_to_equations; lia|].
      simpl. rewrite Hd, Hbuf; [done|Z.div_mod_to_equations; lia].
    - simpl. rewrite Hd, Hbuf; [done|lia]. }
  by apply H.
Qed.
End delimiter.

Section split_more.
Import strings.

Lemma Join_Split (s : string) (sep : ascii) :
  Join (Split s sep) (String sep "") = s.
Proof.
  induction s as [|c s IH]; [done|]. cbn [Split].
  pose proof (Split_not_nil sep s) as Hne.
  destruct (Ascii.eqb_spec c sep) as [->|_].
  - destruct (Split s sep) as [|x xs] eqn:E; [done|].
    change (Join ("" :: x :: xs) (String sep ""))
      with (String sep (Join (x :: xs) (String sep ""))).
    by rewrite IH.
  - destruct (Split s sep) as [|x xs] eqn:E; [done|].
    destruct xs as [|y ys].
    + simpl in *. by rewrite IH.
    + change (Join (String c x :: y :: ys) (String sep ""))
        with (String c (Join (x :: y :: ys) (String sep ""))).
      by rewrite IH.
Qed.

Lemma HasPrefix_substring p : ∀ s m,
  HasPrefix (substring 0 m s) p = true → HasPrefix s p = true.
Proof.
  induction p as [|q p IH]; intros s m; [done|].
  destruct s as [|c s]; [by destruct m|].
  destruct m as [|m]; [done|]. simpl.
  intros [-> Hp]%andb_true_iff. simpl. by eapply IH.
Qed.

Lemma Index_slice_to sep s : ∀ m,
  sep ≠ "" → Index s sep = Some m → Index (slice_to s m) sep = None.
Proof.
  intros m Hsep. revert m. unfold slice_to.
  induction s as [|c s IH]; intros m; cbn [Index].
  - destruct (HasPrefix "" sep) eqn:Hp; [|done].
    intros [= <-]. by destruct sep.
  - destruct (HasPrefix (String c s) sep) eqn:Hp.
    + intros [= <-]. by destruct sep.
    + destruct (Index s sep) as [m'|] eqn:Hi; [|done].
      intros [= <-]. cbn [substring Index].
      destruct (HasPrefix (String c (substring 0 m' s)) sep) eqn:Hp'.
      { apply (HasPrefix_substring sep (String c s) (S m')) in Hp'. congruence. }
      by rewrite IH.
Qed.
End split_more.

Section rofidata_facts.
Import strings rofidata.

Lemma genSplit_cons k a rest :
  no_delim a → genSplit (S k) (a ++ delim ++ rest) delim = a :: genSplit k rest delim.
Proof.
  intros Ha. cbn [genSplit]. rewrite Index_app_delim by done.
  by rewrite slice_to_app, slice_from_app_app.
Qed.

(** The pieces before the last one hold no delimiter. *)
Lemma genSplit_pieces k : ∀ s i v,
  (S i < length (genSplit k s delim))%nat → genSplit k s delim !! i = Some v →
  no_delim v.
Proof.
  induction k as [|k IH]; intros s i v; cbn [genSplit].
  - simpl. lia.
  - destruct (Index s delim) as [m|] eqn:Hi; [|simpl; lia].
    destruct i as [|i]; simpl.
    + intros _ [= <-]. by apply Index_slice_to.
    + intros Hlen Hv. eapply IH; [|done]. lia.
Qed.

Lemma genSplit_length k : ∀ s, (length (genSplit k s delim) ≤ S k)%nat.
Proof.
  induction k as [|k IH]; intros s; cbn [genSplit]; [done|].
  destruct (Index s delim) as [m|]; cbn [length]; [|lia].
  apply le_n_S, IH.
Qed.

Lemma SplitN_Bytes d :
  0 ≤ bukudb.ID (Bookmark d) → 0 ≤ State d →
  no_delim (bukudb.URL (Bookmark d)) → no_delim (bukudb.Title (Bookmark d)) →
  no_delim (Join (bukudb.Tags (Bookmark d)) ",") →
  no_delim (bukudb.Comment (Bookmark d)) →
  SplitN (Bytes d) delim 6
  = [fmt.Sprint (bukudb.ID (Bookmark d)); bukudb.URL (Bookmark d);
     bukudb.Title (Bookmark d); Join (bukudb.Tags (Bookmark d)) ",";
     bukudb.Comment (Bookmark d); fmt.Sprint (State d)].
Proof.
  intros Hid Hst Hu Ht Hj Hc. unfold SplitN, Bytes.
  assert (∀ a b : string, (5 ≤ String.length b → 5 ≤ String.length (a ++ delim ++ b))%nat)
    as Hlen.
  { intros a b ?. rewrite !string_length_app. lia. }
  assert (∀ a b : string, (2 ≤ String.length b → 5 ≤ String.length (a ++ delim ++ b))%nat)
    as Hlen2.
  { intros a b ?. rewrite !string_length_app. simpl. lia. }
  rewrite Nat.min_l.
  2:{ match goal with |- (_ ≤ String.length ?s + 1)%nat =>
        assert (5 ≤ String.length s)%nat; [|lia] end.
      apply Hlen, Hlen2. rewrite !string_length_app. simpl. lia. }
  rewrite !genSplit_cons by (done || by apply Sprint_no_delim). done.
Qed.

Lemma ParseBytes_Bytes_eq d0 d :
  0 ≤ bukudb.ID (Bookmark d) < 65536 → 0 ≤ State d < 256 →
  no_delim (bukudb.URL (Bookmark d)) → no_delim (bukudb.Title (Bookmark d)) →
  no_delim (Join (bukudb.Tags (Bookmark d)) ",") →
  no_delim (bukudb.Comment (Bookmark d)) →
  ParseBytes d0 (Bytes d)
  = Some (mkData (bukudb.mkBookmark (bukudb.ID (Bookmark d)) (bukudb.URL (Bookmark d))
                    (bukudb.Title (Bookmark d))
                    (Split (Join (bukudb.Tags (Bookmark d)) ",") ",")
                    (bukudb.Comment (Bookmark d)))
                 (State d), None).
Proof.
  intros Hid Hst Hu Ht Hj Hc. unfold ParseBytes.
  rewrite SplitN_Bytes by (done || lia). simpl.
  rewrite (ParseUint_Sprint _ 16) by (done || lia). simpl.
  rewrite (ParseUint_Sprint _ 8) by (done || lia).
  unfold bukudb.uint16. by rewrite !Z.mod_small by lia.
Qed.
End rofidata_facts.

(** X17.  [ParseBytes] reads back what [Bytes] wrote.  For data whose
    id is a [uint16], whose state is a byte and whose URL, title, tags and
    comment hold no delimiter (U+2028), parsing the bytes returns no
    error; it gives the same data when there is at least one tag and no
    tag holds a comma, an empty tag list comes back as the list of one
    empty tag, and in every case the parsed data is written as the same
    bytes again. *)
Theorem ParseBytes_Bytes (d0 d : rofidata.Data) :
  0 ≤ bukudb.ID (rofidata.Bookmark d) < 65536 → 0 ≤ rofidata.State d < 256 →
  no_delim (bukudb.URL (rofidata.Bookmark d)) →
  no_delim (bukudb.Title (rofidata.Bookmark d)) →
  Forall no_delim (bukudb.Tags (rofidata.Bookmark d)) →
  no_delim (bukudb.Comment (rofidata.Bookmark d)) →
  (bukudb.Tags (rofidata.Bookmark d) ≠ [] →
   Forall (λ t, has_byte "," t = false) (bukudb.Tags (rofidata.Bookmark d)) →
   rofidata.ParseBytes d0 (rofidata.Bytes d) = Some (d, None))
  ∧ (bukudb.Tags (rofidata.Bookmark d) = [] →
     rofidata.ParseBytes d0 (rofidata.Bytes d)
     = Some (rofidata.mkData
               (bukudb.mkBookmark (bukudb.ID (rofidata.Bookmark d))
                  (bukudb.URL (rofidata.Bookmark d))
                  (bukudb.Title (rofidata.Bookmark d)) [""]
                  (bukudb.Comment (rofidata.Bookmark d)))
               (rofidata.State d), None))
  ∧ ∃ d', rofidata.ParseBytes d0 (rofidata.Bytes d) = Some (d', None)
          ∧ rofidata.Bytes d' = rofidata.Bytes d.
Proof.
  intros Hid Hst Hu Ht Hts Hc.
  rewrite ParseBytes_Bytes_eq by (done || by apply no_delim_Join).
  destruct d as [[id url title tags comment] st]. simpl in *.
  split; [|split].
  - intros Hne Hcomma. by rewrite Split_Join.
  - by intros ->.
  - eexists. split; [done|]. unfold rofidata.Bytes. simpl.
    by rewrite (Join_Split _ ",").
Qed.

(** X18.  What [ParseBytes] accepts is in normal form.  If parsing
    returns no error, the id is a [uint16], the state is a byte, there is
    at least one tag and no tag holds a comma, and writing the parsed data
    with [Bytes] and parsing it again gives the same data. *)
Theorem ParseBytes_normal_form (d0 d d' : rofidata.Data) (b : string) :
  rofidata.ParseBytes d b = Some (d', None) →
  0 ≤ bukudb.ID (rofidata.Bookmark d') < 65536 ∧ 0 ≤ rofidata.State d' < 256
  ∧ bukudb.Tags (rofidata.Bookmark d') ≠ []
  ∧ Forall (λ t, has_byte "," t = false) (bukudb.Tags (rofidata.Bookmark d'))
  ∧ rofidata.ParseBytes d0 (rofidata.Bytes d') = Some (d', None).
Proof.
  unfold rofidata.ParseBytes at 1. unfold strings.SplitN.
  destruct (Nat.min 6 (String.length b + 1)) as [|k] eqn:Hk; [done|].
  assert (k ≤ 5)%nat as Hk5 by lia.
  pose proof (genSplit_length k b) as Hlen.
  pose proof (genSplit_pieces k b) as Hpieces.
  destruct (strings.genSplit k b rofidata.delim)
    as [|v0 [|v1 [|v2 [|v3 [|v4 [|v5 [|??]]]]]]]; simpl in *;
    try done; try (destruct (strconv.ParseUint v0 16); done); [|lia].
  destruct (strconv.ParseUint v0 16) as [|id] eqn:Hv0; [done|].
  destruct (strconv.ParseUint v5 8) as [|st] eqn:Hv5; [done|].
  intros [= <-]. simpl.
  apply ParseUint_range in Hv0 as Hid; [|lia].
  apply ParseUint_range in Hv5 as Hst; [|lia].
  change (2 ^ 16) with 65536 in Hid. change (2 ^ 8) with 256 in Hst.
  unfold bukudb.uint16. rewrite !Z.mod_small by lia.
  split; [done|]. split; [done|].
  split; [apply Split_not_nil|].
  split. { apply Forall_forall. intros t Ht%list_elem_of_In. by eapply Split_pieces. }
  rewrite ParseBytes_Bytes_eq; simpl; try done.
  - by rewrite (Join_Split _ ",").
  - apply (Hpieces 1%nat); [lia|done].
  - apply (Hpieces 2%nat); [lia|done].
  - rewrite (Join_Split _ ","). apply (Hpieces 3%nat); [lia|done].
  - apply (Hpieces 4%nat); [lia|done].
Qed.

Section text_facts.
Import strings inputhandler.

Lemma substring_length (s : string) : ∀ n,
  String.length (substring 0 n s) = Nat.min n (String.length s).
Proof.
  induction s as [|c s IH]; intros [|n]; simpl; try done. by rewrite IH.
Qed.

Lemma truncate_length s l :
  3 ≤ l → Z.of_nat (String.length (truncate s l)) ≤ l.
Proof.
  intros Hl. unfold truncate.
  destruct (bool_decide_reflect (Z.of_nat (String.length s) > l)) as [Hgt|Hle]; simpl.
  - rewrite bool_decide_eq_true_2 by lia.
    unfold slice_to. rewrite string_length_app, substring_length. simpl. lia.
  - lia.
Qed.

Lemma ReplaceAll_length s old c :
  String.length (ReplaceAll s old (String c "")) = String.length s.
Proof.
  induction s as [|x s IH]; [done|]. cbn [ReplaceAll].
  rewrite string_length_app, IH. by destruct (Ascii.eqb x old).
Qed.

Lemma ReplaceAll_no_byte s old c :
  c ≠ old → has_byte old (ReplaceAll s old (String c "")) = false.
Proof.
  intros Hc. induction s as [|x s IH]; [done|]. cbn [ReplaceAll].
  destruct (Ascii.eqb x old) eqn:Hx.
  - change (String c "" ++ ?t) with (String c t). simpl.
    apply Ascii.eqb_neq in Hc. by rewrite Hc, IH.
  - change (String x "" ++ ?t) with (String x t). simpl. by rewrite Hx, IH.
Qed.

Lemma ReplaceAll_id s old new : has_byte old s = false → ReplaceAll s old new = s.
Proof.
  induction s as [|x s IH]; [done|]. simpl.
  intros [Hx Hs]%orb_false_iff. rewrite Hx, IH by done. done.
Qed.

Lemma formatEntryText_ok e :
  (String.length (formatEntryText e) ≤ 100)%nat
  ∧ has_byte LF (formatEntryText e) = false.
Proof.
  unfold formatEntryText, replaceNewlines. split.
  - rewrite ReplaceAll_length.
    pose proof (truncate_length e entryMaxLen). unfold entryMaxLen in *. lia.
  - by apply ReplaceAll_no_byte.
Qed.
End text_facts.

Section more_text_facts.
Import strings inputhandler.

Lemma has_byte_app c (a b : string) :
  has_byte c (a ++ b) = has_byte c a || has_byte c b.
Proof.
  induction a as [|x a IH]; [done|].
  change (String x a ++ b) with (String x (a ++ b)). simpl.
  rewrite IH. by rewrite orb_assoc.
Qed.

Lemma Replace_no_byte oldnew c s :
  (∀ x, has_byte c (replacement oldnew x) = false) →
  has_byte c (Replace oldnew s) = false.
Proof.
  intros H. induction s as [|x s IH]; [done|]. cbn [Replace].
  by rewrite has_byte_app, H, IH.
Qed.

Lemma Replace_id oldnew s :
  Forall (λ c, has_byte c s = false) oldnew.*1 → Replace oldnew s = s.
Proof.
  intros H. induction s as [|x s IH]; [done|]. cbn [Replace].
  assert (replacement oldnew x = String x "") as ->.
  { clear IH. induction oldnew as [|[o n] oldnew IH]; [done|].
    apply Forall_cons_1 in H as [Ho H]. simpl in Ho.
    apply orb_false_iff in Ho as [Ho _]. simpl. rewrite Ho. by apply IH. }
  rewrite IH; [done|].
  eapply Forall_impl; [done|]. simpl. by intros c [_ ?]%orb_false_iff.
Qed.
End more_text_facts.

(** X19.  The texts of the entries fit rofi's list: [formatEntryText]
    returns at most [entryMaxLen] = 100 bytes without a line feed, and so
    are the four lines of [multiLineBookmark] and the text of the entry
    [HandleBookmarksShow] makes of a bookmark. *)
Theorem entry_texts_fit (e : string) (b : bukudb.Bookmark) (numPadding : nat) :
  ((String.length (inputhandler.formatEntryText e) ≤ 100)%nat
   ∧ has_byte LF (inputhandler.formatEntryText e) = false)
  ∧ Forall (λ l, (String.length l ≤ 100)%nat ∧ has_byte LF l = false)
           (inputhandler.multiLineBookmark b)
  ∧ ((String.length (rofi.Text (inputhandler.bookmark_entry numPadding b)) ≤ 100)%nat
     ∧ has_byte LF (rofi.Text (inputhandler.bookmark_entry numPadding b)) = false).
Proof.
  split; [apply formatEntryText_ok|]. split.
  - unfold inputhandler.multiLineBookmark.
    repeat (apply Forall_cons; split; [apply formatEntryText_ok|]). done.
  - apply formatEntryText_ok.
Qed.

(** X20.  [escapePangoMarkup] leaves none of the bytes [<], [>], ['],
    the double quote and the line feed in its result, and it returns its
    argument unchanged when that holds none of these and no [&]. *)
Theorem escapePangoMarkup_escapes (input : string) :
  Forall (λ c, has_byte c (inputhandler.escapePangoMarkup input) = false)
         ["<"%char; ">"%char; "'"%char; DQUOTE; LF]
  ∧ (Forall (λ c, has_byte c input = false)
            ["&"%char; "<"%char; ">"%char; "'"%char; DQUOTE; LF] →
     inputhandler.escapePangoMarkup input = input).
Proof.
  split.
  - repeat (apply Forall_cons; split); [..|done];
      (apply Replace_no_byte; intros x; simpl;
       repeat match goal with
              | |- context [Ascii.eqb x ?c] =>
                  destruct (Ascii.eqb_spec x c) as [->|?]; [reflexivity|]
              end;
       simpl; rewrite orb_false_r; by apply Ascii.eqb_neq).
  - intros H. by apply Replace_id.
Qed.

Section entry_id.
Import strings inputhandler.

Lemma string_app_assoc (a b c : string) : (a ++ b) ++ c = a ++ b ++ c.
Proof.
  induction a as [|x a IH]; [done|].
  change (String x ((a ++ b) ++ c) = String x (a ++ b ++ c)). by rewrite IH.
Qed.

Lemma fmtInteger_no_byte c fuel : ∀ u buf,
  strconv.digit c = None → 0 ≤ u →
  has_byte c (fmt.fmtInteger fuel u buf) = has_byte c buf.
Proof.
  intros u buf Hc. revert u buf.
  assert (∀ d, 0 ≤ d < 10 → Ascii.eqb (fmt.digit_byte d) c = false) as Hd.
  { intros d Hd. apply Ascii.eqb_neq. intros <-.
    by rewrite digit_digit_byte in Hc. }
  induction fuel as [|fuel IH]; intros u buf Hu; [done|].
  cbn [fmt.fmtInteger]. destruct (Z.leb_spec 10 u).
  - rewrite IH by (Z.div_mod_to_equations; lia).
    simpl. by rewrite Hd by (Z.div_mod_to_equations; lia).
  - simpl. by rewrite Hd by lia.
Qed.

Lemma Sprint_no_byte c u :
  strconv.digit c = None → 0 ≤ u → has_byte c (fmt.Sprint u) = false.
Proof. intros. unfold fmt.Sprint. by rewrite fmtInteger_no_byte. Qed.

Lemma fmtInteger_length fuel : ∀ u buf,
  (String.length (fmt.fmtInteger fuel u buf) ≤ fuel + String.length buf)%nat.
Proof.
  induction fuel as [|fuel IH]; intros u buf; [done|].
  cbn [fmt.fmtInteger]. destruct (10 <=? u)%Z.
  - etrans; [apply IH|]. simpl. lia.
  - simpl. lia.
Qed.

Lemma pad_zeros_no_byte c n : ∀ s,
  c ≠ "0"%char → has_byte c (pad_zeros n s) = has_byte c s.
Proof.
  induction n as [|n IH]; intros s Hc; [done|]. cbn [pad_zeros].
  rewrite IH by done. change ("0" ++ s) with (String "0" s). cbn [has_byte].
  by destruct (Ascii.eqb_spec "0"%char c) as [<-|_].
Qed.

Lemma pad_zeros_length n : ∀ s,
  String.length (pad_zeros n s) = (n + String.length s)%nat.
Proof.
  induction n as [|n IH]; intros s; [done|]. cbn [pad_zeros].
  rewrite IH. change ("0" ++ s) with (String "0" s). simpl. lia.
Qed.

Lemma ParseUint_pad_zeros bitSize n : ∀ s,
  0 ≤ bitSize → s ≠ "" →
  strconv.ParseUint (pad_zeros n s) bitSize = strconv.ParseUint s bitSize.
Proof.
  induction n as [|n IH]; intros s Hb Hs; [done|]. cbn [pad_zeros].
  rewrite IH by done. change ("0" ++ s) with (String "0" s).
  unfold strconv.ParseUint. apply String.eqb_neq in Hs. rewrite Hs.
  change (String.eqb (String "0" s) "") with false. cbv iota.
  cbn [strconv.parse_loop]. change (strconv.digit "0") with (Some 0). cbv iota.
  change (strconv.maxUint64 `div` 10 + 1 <=? 0)%Z with false. cbv iota zeta.
  change ((0 * 10 + 0) `mod` 2 ^ 64) with 0.
  change (0 <? 0 * 10)%Z with false.
  pose proof (Z.pow_pos_nonneg 2 bitSize).
  assert ((2 ^ bitSize - 1 <? 0)%Z = false) as -> by (apply Z.ltb_ge; lia).
  done.
Qed.

Lemma substring_app_le (a b : string) n :
  (String.length a ≤ n)%nat →
  substring 0 n (a ++ b) = a ++ substring 0 (n - String.length a) b.
Proof.
  revert n. induction a as [|x a IH]; intros n Hn.
  - change ("" ++ ?t) with t. f_equal. simpl. lia.
  - destruct n as [|n]; [simpl in Hn; lia|].
    change (String x a ++ b) with (String x (a ++ b)). cbn [substring].
    rewrite IH by (simpl in Hn; lia).
    by change (String x a ++ ?t) with (String x (a ++ t)).
Qed.

Lemma ReplaceAll_app (a b : string) old new :
  ReplaceAll (a ++ b) old new = ReplaceAll a old new ++ ReplaceAll b old new.
Proof.
  induction a as [|x a IH]; [done|].
  change (String x a ++ b) with (String x (a ++ b)). cbn [ReplaceAll].
  by rewrite IH, string_app_assoc.
Qed.

(** A short first part without line breaks is kept as it is. *)
Lemma formatEntryText_prefix (a t : string) :
  has_byte LF a = false → (String.length a ≤ 97)%nat →
  ∃ r, formatEntryText (a ++ t) = a ++ r.
Proof.
  intros Hlf Hlen. unfold formatEntryText, replaceNewlines, truncate, entryMaxLen.
  destruct (bool_decide _ && bool_decide _).
  - unfold slice_to. change (Z.to_nat (100 - 3)) with 97%nat.
    rewrite substring_app_le by done.
    rewrite string_app_assoc, ReplaceAll_app, (ReplaceAll_id a) by done. by eexists.
  - rewrite ReplaceAll_app, (ReplaceAll_id a) by done. by eexists.
Qed.

(** The id is read back from the entry [HandleBookmarksShow] lists. *)
Lemma getId_bookmark_entry (b : bukudb.Bookmark) (numPadding : nat) :
  0 ≤ bukudb.ID b < 65536 → (numPadding ≤ 70)%nat →
  getIdFromBookmarkString (rofi.Text (bookmark_entry numPadding b))
  = inr (bukudb.ID b).
Proof.
  intros Hid Hpad. unfold bookmark_entry. cbn [rofi.Text].
  set (text := if String.eqb _ _ then _ else _). clearbody text.
  set (id := pad_zeros _ _).
  assert (has_byte "." id = false) as Hdot.
  { unfold id. rewrite pad_zeros_no_byte by done.
    apply Sprint_no_byte; [done|lia]. }
  assert (has_byte LF id = false) as Hlf.
  { unfold id. rewrite pad_zeros_no_byte by done.
    apply Sprint_no_byte; [done|lia]. }
  assert (String.length id ≤ 90)%nat as Hlen.
  { unfold id. rewrite pad_zeros_length.
    pose proof (fmtInteger_length 20 (bukudb.ID b) "") as Hl. unfold fmt.Sprint.
    cbn [String.length] in Hl. lia. }
  destruct (formatEntryText_prefix (id ++ ".") (" " ++ text)) as [r Hr].
  { rewrite has_byte_app, Hlf. done. }
  { rewrite string_length_app. simpl. lia. }
  rewrite string_app_assoc in Hr.
  change ("." ++ " " ++ text) with (". " ++ text) in Hr. rewrite Hr.
  rewrite string_app_assoc. change ("." ++ r) with (String "." r).
  unfold getIdFromBookmarkString.
  rewrite Split_app, (Split_whole "." id) by done. cbn [hd app].
  unfold id. rewrite ParseUint_pad_zeros; [|lia|apply fmtInteger_not_empty].
  rewrite ParseUint_Sprint by (done || lia).
  by rewrite uint16_small.
Qed.
End entry_id.

Section handler_facts.
Import bukudb inputhandler.

Lemma HandleBookmarksShow_ok rt Error h bs :
  GetAll rt (db h) = inr bs →
  db (HandleBookmarksShow rt Error h) = db h
  ∧ rofi.Entries (api (HandleBookmarksShow rt Error h)) = bookmark_entry 4 <$> bs
  ∧ rofidata.State (rofi.Data (api (HandleBookmarksShow rt Error h)))
    = rofidata.St_bookmarks_select
  ∧ bookmark (HandleBookmarksShow rt Error h) = mkBookmark 0 "" "" [] "".
Proof.
  intros Hall. unfold HandleBookmarksShow.
  cbn [db set_option]. rewrite Hall. done.
Qed.

(** What [Get] returns after a successful [updateField]. *)
Lemma Get_updated d id c v d1 b :
  Get d id = inr b → updateField d id c v = (d1, None) →
  Get d1 id
  = inr (match c with
         | sql.ColURL => mkBookmark (ID b) v (Title b) (Tags b) (Comment b)
         | sql.ColMetadata => mkBookmark (ID b) (URL b) v (Tags b) (Comment b)
         | sql.ColTags => mkBookmark (ID b) (URL b) (Title b) (get_tags v) (Comment b)
         | sql.ColDesc => mkBookmark (ID b) (URL b) (Title b) (Tags b) v
         end).
Proof.
  intros (Hid & Hu & r & Hr & ->)%Get_inr_inv Hupd.
  assert (d1 = mkBukuDB (<[id := sql.set_column c v r]> (conn d)) (len d)) as ->.
  { destruct c.
    - rewrite (updateField_url d id v r) in Hupd by done.
      destruct (sql.url_taken _ _ _); by simplify_eq.
    - rewrite (updateField_free d id _ v r) in Hupd by done. by simplify_eq.
    - rewrite (updateField_free d id _ v r) in Hupd by done. by simplify_eq.
    - rewrite (updateField_free d id _ v r) in Hupd by done. by simplify_eq. }
  erewrite Get_in_range; [|done|done|simpl; apply lookup_insert_eq].
  by destruct c.
Qed.

Lemma filter_ext l (p q : string → bool) :
  (∀ x, In x l → p x = q x) → filter l p = filter l q.
Proof.
  induction l as [|x l IH]; intros H; [done|]. simpl.
  rewrite (H x) by (by left). rewrite IH; [done|]. intros y ?. apply H. by right.
Qed.

Lemma Contains_snoc l t x :
  slices.Contains (l ++ [t])%list x = slices.Contains l x || String.eqb t x.
Proof.
  induction l as [|y l IH]; simpl.
  - by destruct (String.eqb t x).
  - rewrite IH. by destruct (String.eqb y x).
Qed.

(** Without repetitions among the arguments, the loop of the handler
    appends what [AddTags] appends. *)
Lemma append_new_filter tags : ∀ old,
  NoDup tags →
  append_new old tags
  = (old ++ filter tags (λ t, negb (slices.Contains old t)))%list.
Proof.
  induction tags as [|t tags IH]; intros old Hnd.
  - simpl. by rewrite app_nil_r.
  - apply NoDup_cons in Hnd as [Hin Hnd]. cbn [append_new filter].
    destruct (slices.Contains old t) eqn:Hc; simpl.
    + by apply IH.
    + rewrite IH by done. rewrite <-app_assoc. simpl. do 2 f_equal.
      apply filter_ext. intros x Hx. rewrite Contains_snoc.
      destruct (String.eqb_spec t x) as [->|_]; [|by rewrite orb_false_r].
      exfalso. apply Hin. by apply list_elem_of_In.
Qed.

Lemma in_sync_show (h h' : InputHandler) :
  db h' = db h → bookmark h' = bookmark h → in_sync h → in_sync h'.
Proof. unfold in_sync. by intros -> ->. Qed.
End handler_facts.

Section listing_facts.
Import bukudb inputhandler.

(** What [HandleBookmarksShow] lists of a store with ids [1..len]. *)
Lemma listed_entries rt Error h :
  runtime_ok rt → contiguous (db h) → count_ok (db h) →
  db (HandleBookmarksShow rt Error h) = db h
  ∧ rofidata.State (rofi.Data (api (HandleBookmarksShow rt Error h)))
    = rofidata.St_bookmarks_select
  ∧ length (rofi.Entries (api (HandleBookmarksShow rt Error h)))
    = Z.to_nat (len (db h))
  ∧ ∀ (k : nat) e,
      rofi.Entries (api (HandleBookmarksShow rt Error h)) !! k = Some e →
      getIdFromBookmarkString (rofi.Text e) = inr (Z.of_nat k + 1)
      ∧ 1 ≤ Z.of_nat k + 1 ≤ len (db h)
      ∧ ∃ r, conn (db h) !! (Z.of_nat k + 1) = Some r
             ∧ Get (db h) (Z.of_nat k + 1)
               = inr (mkBookmark (Z.of_nat k + 1) (sql.URL r) (sql.metadata r)
                                 (get_tags (sql.tags r)) (sql.desc r)).
Proof.
  intros Hrt Hcont Hc.
  destruct (GetAll_contiguous rt _ Hrt Hcont Hc) as (bs & Hall & Hids & _).
  destruct (HandleBookmarksShow_ok rt Error h bs Hall) as (Hdb & Hes & Hst & _).
  split; [done|]. split; [done|]. split.
  { rewrite Hes, length_fmap, <-(length_fmap ID), Hids, length_seqZ. done. }
  intros k e He.
  rewrite Hes in He. apply list_lookup_fmap_Some in He as (b & -> & Hb).
  assert (ID b = Z.of_nat k + 1) as Hid.
  { assert ((ID <$> bs) !! k = Some (ID b)) as Hk
      by (by rewrite list_lookup_fmap, Hb).
    rewrite Hids in Hk. apply lookup_seqZ in Hk. lia. }
  assert (1 ≤ Z.of_nat k + 1 ≤ len (db h)) as Hrange.
  { apply lookup_lt_Some in Hb.
    rewrite <-(length_fmap ID), Hids, length_seqZ in Hb. lia. }
  unfold count_ok, MaxBookmarks in Hc.
  split. { rewrite <-Hid. apply getId_bookmark_entry; lia. }
  split; [done|].
  destruct (proj2 (Hcont (Z.of_nat k + 1)) Hrange) as [r Hr].
  exists r. split; [done|]. apply Get_in_range; (done || lia).
Qed.
End listing_facts.

(** X21.  An entry listed by [HandleBookmarksShow] selects its
    bookmark.  On a store with ids [1..Len()] the handler lists [Len()]
    entries and leaves the store as it is; the text of the entry at
    position [k] is parsed by [getIdFromBookmarkString] to the id [k + 1],
    and [handleBookmarksSelect] with that text (rofi reporting a selection
    or the keybinding 2 or 3) puts the bookmark [Get(k + 1)] into
    [in.api.Data.Bookmark]. *)
Theorem selecting_a_listed_entry
    (rt : bukudb.Runtime) (Error : inputhandler.error → string)
    (Start : string → string → option string) (h : inputhandler.InputHandler) :
  runtime_ok rt → contiguous (inputhandler.db h) → count_ok (inputhandler.db h) →
  let h1 := inputhandler.HandleBookmarksShow rt Error h in
  inputhandler.db h1 = inputhandler.db h
  ∧ rofidata.State (rofi.Data (inputhandler.api h1)) = rofidata.St_bookmarks_select
  ∧ length (rofi.Entries (inputhandler.api h1))
    = Z.to_nat (bukudb.Len (inputhandler.db h))
  ∧ ∀ (k : nat) e rofiState,
      rofi.Entries (inputhandler.api h1) !! k = Some e →
      rofiState ≠ rofi.StateCustomKeybinding1 → rofiState ≠ rofi.StateOther →
      inputhandler.getIdFromBookmarkString (rofi.Text e) = inr (Z.of_nat k + 1)
      ∧ bukudb.Get (inputhandler.db h) (Z.of_nat k + 1)
        = inr (inputhandler.bookmark
                 (inputhandler.handleBookmarksSelect rt Error Start h1 (rofi.Text e)
                                                     rofiState)).
Proof.
  intros Hrt Hcont Hc h1.
  destruct (listed_entries rt Error h Hrt Hcont Hc) as (Hdb & Hst & Hlen & Hes).
  fold h1 in Hdb, Hst, Hlen, Hes.
  split; [done|]. split; [done|]. split; [done|].
  intros k e rofiState He Hk1 Hother.
  destruct (Hes k e He) as (Hget & Hrange & r & Hr & Hb).
  split; [done|].
  unfold inputhandler.handleBookmarksSelect. rewrite Hget, Hdb, Hb.
  destruct rofiState; try done.
  unfold inputhandler.handleGotoExec.
  destruct (negb _); destruct (Start _ _); done.
Qed.

(** X22.  The modify handlers keep [in.api.Data.Bookmark] equal to the
    stored bookmark.  If [Get] of its id returns the bookmark before
    [handleModifyTitleSelect], [handleModifyUrlSelect],
    [handleModifyCommentSelect] or [handleModifyTagsSelect], it does so
    after, whatever the input and whether the store returned an error;
    for an input [+tags] the tags are required to be well-formed and
    without repetition. *)
Theorem modify_keeps_in_sync
    (TrimSpace : string → string) (Error : inputhandler.error → string)
    (h : inputhandler.InputHandler) (input : string) :
  in_sync h →
  (strings.HasPrefix input "+" = true →
   Forall tag_ok (inputhandler.getTagsFromInput TrimSpace (slice_from input 1))
   ∧ NoDup (inputhandler.getTagsFromInput TrimSpace (slice_from input 1))) →
  in_sync (inputhandler.handleModifyTitleSelect Error h input)
  ∧ in_sync (inputhandler.handleModifyUrlSelect Error h input)
  ∧ in_sync (inputhandler.handleModifyCommentSelect Error h input)
  ∧ in_sync (inputhandler.handleModifyTagsSelect TrimSpace Error h input).
Proof.
  intros Hsync Hplus.
  assert (∀ c v,
    match bukudb.updateField (inputhandler.db h)
            (bukudb.ID (inputhandler.bookmark h)) c v with
    | (d, Some _) => d = inputhandler.db h
    | (d, None) =>
        bukudb.Get d (bukudb.ID (inputhandler.bookmark h))
        = inr (match c with
               | sql.ColURL =>
                   bukudb.mkBookmark (bukudb.ID (inputhandler.bookmark h)) v
                     (bukudb.Title (inputhandler.bookmark h))
                     (bukudb.Tags (inputhandler.bookmark h))
                     (bukudb.Comment (inputhandler.bookmark h))
               | sql.ColMetadata =>
                   bukudb.mkBookmark (bukudb.ID (inputhandler.bookmark h))
                     (bukudb.URL (inputhandler.bookmark h)) v
                     (bukudb.Tags (inputhandler.bookmark h))
                     (bukudb.Comment (inputhandler.bookmark h))
               | sql.ColTags =>
                   bukudb.mkBookmark (bukudb.ID (inputhandler.bookmark h))
                     (bukudb.URL (inputhandler.bookmark h))
                     (bukudb.Title (inputhandler.bookmark h)) (bukudb.get_tags v)
                     (bukudb.Comment (inputhandler.bookmark h))
               | sql.ColDesc =>
                   bukudb.mkBookmark (bukudb.ID (inputhandler.bookmark h))
                     (bukudb.URL (inputhandler.bookmark h))
                     (bukudb.Title (inputhandler.bookmark h))
                     (bukudb.Tags (inputhandler.bookmark h)) v
               end)
    end) as Hupd.
  { intros c v.
    destruct (bukudb.updateField _ _ c v) as [d [e|]] eqn:Hu.
    - by apply updateField_keeps in Hu as (_ & _ & ->).
    - by apply (Get_updated _ _ _ _ _ _ Hsync Hu). }
  assert (Forall tag_ok (bukudb.Tags (inputhandler.bookmark h))) as Hold.
  { apply Get_inr_inv in Hsync as (_ & _ & r & _ & ->). apply get_tags_ok. }
  split; [|split; [|split]].
  - unfold inputhandler.handleModifyTitleSelect.
    destruct (String.eqb _ inputhandler.op_back); [done|].
    unfold bukudb.UpdateTitle. specialize (Hupd sql.ColMetadata).
    match goal with |- context [bukudb.updateField _ _ _ ?v] =>
      specialize (Hupd v); destruct (bukudb.updateField _ _ _ v) as [d [e|]] end.
    + by subst d.
    + exact Hupd.
  - unfold inputhandler.handleModifyUrlSelect.
    destruct (String.eqb input ""); [done|].
    destruct (String.eqb _ inputhandler.op_back); [done|].
    unfold bukudb.UpdateURL. specialize (Hupd sql.ColURL input).
    destruct (bukudb.updateField _ _ _ input) as [d [e|]].
    + by subst d.
    + exact Hupd.
  - unfold inputhandler.handleModifyCommentSelect.
    destruct (String.eqb _ inputhandler.op_back); [done|].
    unfold bukudb.UpdateComment. specialize (Hupd sql.ColDesc).
    match goal with |- context [bukudb.updateField _ _ _ ?v] =>
      specialize (Hupd v); destruct (bukudb.updateField _ _ _ v) as [d [e|]] end.
    + by subst d.
    + exact Hupd.
  - unfold inputhandler.handleModifyTagsSelect.
    destruct (String.eqb _ inputhandler.op_back); [done|].
    destruct (String.eqb _ inputhandler.op_delete).
    { unfold bukudb.ClearTags. specialize (Hupd sql.ColTags ",").
      destruct (bukudb.updateField _ _ _ ",") as [d [e|]].
      - by subst d.
      - exact Hupd. }
    destruct (strings.HasPrefix input "+").
    { destruct Hplus as [Hok Hnd]; [done|].
      set (tags := inputhandler.getTagsFromInput _ _) in *.
      rewrite (AddTags_unfold _ _ _ _ Hsync).
      specialize (Hupd sql.ColTags
                    (wrap (merged (bukudb.Tags (inputhandler.bookmark h)) tags))).
      destruct (bukudb.updateField _ _ _ _) as [d [e|]].
      - by subst d.
      - rewrite get_tags_wrap in Hupd by (by apply merged_ok).
        unfold merged in Hupd. rewrite <-append_new_filter in Hupd by done.
        exact Hupd. }
    destruct (strings.HasPrefix input "-"); [|done].
    set (tags := inputhandler.getTagsFromInput _ _) in *.
    rewrite (RemoveTags_unfold _ _ _ _ Hsync).
    match goal with |- context [bukudb.updateField _ _ _ ?v] =>
      specialize (Hupd sql.ColTags v);
      destruct (bukudb.updateField _ _ _ v) as [d [e|]] end.
    + by subst d.
    + rewrite get_tags_wrap in Hupd by (by apply filter_ok). exact Hupd.
Qed.

Section dispatch_facts.
Import bukudb inputhandler.
Variable rt : Runtime.
Variable TrimSpace : string → string.
Variable Error : error → string.
Variable Start : string → string → option string.

Lemma HandleBookmarksShow_db h : db (HandleBookmarksShow rt Error h) = db h.
Proof. unfold HandleBookmarksShow. cbn [db set_option]. by destruct (GetAll _ _). Qed.

Lemma handleGotoExec_db h : db (handleGotoExec Error Start h) = db h.
Proof.
  unfold handleGotoExec. destruct (negb _); by destruct (Start _ _).
Qed.

Lemma handleBookmarksSelect_db h input st :
  db (handleBookmarksSelect rt Error Start h input st) = db h.
Proof.
  unfold handleBookmarksSelect.
  destruct st; try done;
    (destruct (getIdFromBookmarkString input); [done|];
     destruct (Get _ _); [done|]);
    try done.
  - by rewrite handleGotoExec_db.
  - by rewrite HandleBookmarksShow_db.
Qed.

Lemma handleModifySelect_db h input :
  db (handleModifySelect rt Error h input) = db h.
Proof.
  unfold handleModifySelect. destruct (first_byte input); [|done].
  destruct (String.eqb _ _); [apply HandleBookmarksShow_db|].
  by repeat destruct (_ : bool).
Qed.

Lemma calls_none h h' :
  db h' = db h → ∃ ms, (length ms ≤ 1)%nat ∧ calls h h' ms.
Proof. intros Hdb. exists []. split; [simpl; lia|]. by split. Qed.

Lemma calls_one h h' m :
  method_typed m → url_arg_nonempty m → db h' = (invoke (db h) m).1 →
  ∃ ms, (length ms ≤ 1)%nat ∧ calls h h' ms.
Proof.
  intros Hm Hu Hdb. exists [m]. split; [simpl; lia|]. split; [|done].
  by repeat constructor.
Qed.

Lemma handleAddSelect_calls h input h' :
  handleAddSelect rt Error h input = Some h' →
  ∃ ms, (length ms ≤ 1)%nat ∧ calls h h' ms.
Proof.
  unfold handleAddSelect.
  destruct (String.eqb input op_back).
  { intros [= <-]. apply calls_none, HandleBookmarksShow_db. }
  destruct (String.eqb input op_confirm).
  { destruct (String.eqb_spec (URL (bookmark h)) "") as [|Hurl].
    { intros [= <-]. by apply calls_none. }
    intros Hh'. apply (calls_one _ _ (MAdd (bookmark h))); [done..|].
    simpl. destruct (Add (db h) (bookmark h)) as [d [e|]]; simplify_eq; [done|].
    by rewrite HandleBookmarksShow_db. }
  destruct (first_byte input); [|done]. simpl.
  intros [= <-]. apply calls_none. by repeat destruct (_ : bool).
Qed.

Lemma modify_select_calls h input (Hid : 0 ≤ ID (bookmark h) < 65536) :
  (∃ ms, (length ms ≤ 1)%nat ∧ calls h (handleModifyTitleSelect Error h input) ms)
  ∧ (∃ ms, (length ms ≤ 1)%nat ∧ calls h (handleModifyUrlSelect Error h input) ms)
  ∧ (∃ ms, (length ms ≤ 1)%nat
           ∧ calls h (handleModifyCommentSelect Error h input) ms)
  ∧ (∃ ms, (length ms ≤ 1)%nat
           ∧ calls h (handleModifyTagsSelect TrimSpace Error h input) ms)
  ∧ (∃ ms, (length ms ≤ 1)%nat
           ∧ calls h (handleDeleteConfirmSelect rt Error h input) ms).
Proof.
  repeat split.
  - unfold handleModifyTitleSelect.
    destruct (String.eqb _ op_back); [by apply calls_none|].
    match goal with |- context [UpdateTitle _ _ ?v] =>
      apply (calls_one _ _ (MUpdateTitle (ID (bookmark h)) v)); [done..|]; simpl;
      by destruct (UpdateTitle _ _ v) as [d [e|]] end.
  - unfold handleModifyUrlSelect.
    destruct (String.eqb_spec input ""); [by apply calls_none|].
    destruct (String.eqb _ op_back); [by apply calls_none|].
    apply (calls_one _ _ (MUpdateURL (ID (bookmark h)) input)); [done..|]; simpl.
    by destruct (UpdateURL _ _ input) as [d [e|]].
  - unfold handleModifyCommentSelect.
    destruct (String.eqb _ op_back); [by apply calls_none|].
    match goal with |- context [UpdateComment _ _ ?v] =>
      apply (calls_one _ _ (MUpdateComment (ID (bookmark h)) v)); [done..|]; simpl;
      by destruct (UpdateComment _ _ v) as [d [e|]] end.
  - unfold handleModifyTagsSelect.
    destruct (String.eqb _ op_back); [by apply calls_none|].
    destruct (String.eqb _ op_delete).
    { apply (calls_one _ _ (MClearTags (ID (bookmark h)))); [done..|]; simpl.
      by destruct (ClearTags _ _) as [d [e|]]. }
    destruct (strings.HasPrefix input "+").
    { match goal with |- context [AddTags _ _ ?v] =>
        apply (calls_one _ _ (MAddTags (ID (bookmark h)) v)); [done..|]; simpl;
        by destruct (AddTags _ _ v) as [d [e|]] end. }
    destruct (strings.HasPrefix input "-"); [|by apply calls_none].
    match goal with |- context [RemoveTags _ _ ?v] =>
      apply (calls_one _ _ (MRemoveTags (ID (bookmark h)) v)); [done..|]; simpl;
      by destruct (RemoveTags _ _ v) as [d [e|]] end.
  - unfold handleDeleteConfirmSelect.
    destruct (_ || _); [apply calls_none, HandleBookmarksShow_db|].
    apply (calls_one _ _ (MRemove (ID (bookmark h)))); [done..|]; simpl.
    destruct (Remove _ _) as [d [e|]]; [done|]. by rewrite HandleBookmarksShow_db.
Qed.

Lemma HandleInput_calls h input h' :
  0 ≤ ID (bookmark h) < 65536 →
  HandleInput rt TrimSpace Error Start h input = Some h' →
  ∃ ms, (length ms ≤ 1)%nat ∧ calls h h' ms
        ∧ (writer_state (rofidata.State (rofi.Data (api h))) = false → ms = []).
Proof.
  intros Hid. unfold HandleInput.
  destruct (modify_select_calls h (TrimSpace input) Hid)
    as (Ht & Hu & Hc & Hg & Hd).
  set (st := rofidata.State (rofi.Data (api h))).
  assert (∀ h0, db h0 = db h →
            ∃ ms, (length ms ≤ 1)%nat ∧ calls h h0 ms
                  ∧ (writer_state st = false → ms = [])) as Hnone.
  { intros h0 Hh0. exists []. split; [simpl; lia|]. split; [by split|done]. }
  assert (∀ h0, writer_state st = true →
            (∃ ms, (length ms ≤ 1)%nat ∧ calls h h0 ms) →
            ∃ ms, (length ms ≤ 1)%nat ∧ calls h h0 ms
                  ∧ (writer_state st = false → ms = [])) as Hsome.
  { intros h0 Hw (ms & ? & ?). exists ms. split; [done|]. split; [done|].
    intros Hf. rewrite Hw in Hf. discriminate. }
  repeat match goal with
         | |- context [(st =? ?x)%Z] => destruct (Z.eqb_spec st x) as [Hst|?]
         end;
    try (intros [= <-]; apply Hnone; first
           [ done | apply HandleBookmarksShow_db | apply handleBookmarksSelect_db
           | apply handleModifySelect_db
           | unfold handleAddTitleSelect, handleAddUrlSelect,
               handleAddCommentSelect, handleAddTagsSelect;
             by repeat destruct (String.eqb _ _) ]);
    try (intros [= <-]; apply Hsome; [by rewrite Hst|done]).
  intros Hh'. apply Hsome; [by rewrite Hst|]. by eapply handleAddSelect_calls.
Qed.

Lemma HandleInput_panics h input :
  HandleInput rt TrimSpace Error Start h input = None
  ↔ rofidata.State (rofi.Data (api h)) = rofidata.St_add_select
    ∧ TrimSpace input = "".
Proof.
  unfold HandleInput.
  set (st := rofidata.State (rofi.Data (api h))).
  repeat match goal with
         | |- context [(st =? ?x)%Z] => destruct (Z.eqb_spec st x) as [Hst|?]
         end;
    try (split; [done|]; intros [Hst' _];
         first [ contradiction | fold st in Hst'; rewrite Hst in Hst'; discriminate Hst' ]).
  unfold handleAddSelect. split.
  - destruct (String.eqb_spec (TrimSpace input) op_back); [done|].
    destruct (String.eqb_spec (TrimSpace input) op_confirm).
    { destruct (String.eqb _ _); [done|]. by destruct (Add _ _) as [? [?|]]. }
    by destruct (TrimSpace input).
  - intros [_ ->]. done.
Qed.
End dispatch_facts.

Section urls_nonempty_facts.
Import bukudb.

Lemma updateField_urls_nonempty db id c v :
  (c = sql.ColURL → v ≠ "") → urls_nonempty (conn db) →
  urls_nonempty (conn (updateField db id c v).1).
Proof.
  intros Hv Hne. unfold updateField.
  destruct (_ || _); [done|]. unfold sql.update_column.
  destruct (conn db !! id) as [r|] eqn:Hr; [|done].
  assert (urls_nonempty (<[id := sql.set_column c v r]> (conn db))) as Hins.
  { intros j rj. destruct (decide (j = id)) as [->|Hj].
    - rewrite lookup_insert_eq. intros [= <-].
      destruct c; simpl; try (by eapply Hne). by apply Hv.
    - rewrite lookup_insert_ne by done. apply Hne. }
  destruct c; try done. by destruct (sql.url_taken _ _ _).
Qed.

Lemma invoke_urls_nonempty db m :
  method_typed m → url_arg_nonempty m → contiguous db → count_ok db →
  urls_nonempty (conn db) → urls_nonempty (conn (invoke db m).1).
Proof.
  intros Hm Hu Hcont Hc Hne. destruct m as [b|id|id v|id v|id v|id ts|id ts|id]; simpl in *.
  - destruct (Add db b) as [db' [e|]] eqn:Hadd; simpl.
    + by apply Add_failed_unchanged in Hadd as ->.
    + apply Add_inv in Hadd as (_ & _ & _ & ->); [|done]. simpl.
      intros j rj. destruct (decide (j = len db + 1)) as [->|Hj].
      * rewrite lookup_insert_eq. by intros [= <-].
      * rewrite lookup_insert_ne by done. apply Hne.
  - destruct (decide (1 ≤ id ≤ len db)) as [Hid|Hid].
    + destruct (Remove_in_range db id Hcont Hc Hid) as (t' & -> & Ht'). simpl.
      intros j rj. rewrite Ht'. case_bool_decide; apply Hne.
    + by rewrite Remove_out_of_range.
  - by apply updateField_urls_nonempty.
  - by apply updateField_urls_nonempty.
  - by apply updateField_urls_nonempty.
  - unfold AddTags. destruct (Get db id); [done|].
    by apply updateField_urls_nonempty.
  - unfold RemoveTags. destruct (Get db id); [done|].
    by apply updateField_urls_nonempty.
  - by apply updateField_urls_nonempty.
Qed.
End urls_nonempty_facts.

(** X23.  [HandleInput] calls at most one mutating method of the store.
    On a store with ids [1..Len()] the store it leaves is the store after
    at most one method call, so its ids are again [1..Len()]; outside the
    six states that write nothing is called; and the only run-time panic
    is the index expression [input[0]] of [handleAddSelect] on an input
    that is empty after trimming. *)
Theorem HandleInput_one_call
    (rt : bukudb.Runtime) (TrimSpace : string → string)
    (Error : inputhandler.error → string)
    (Start : string → string → option string)
    (h : inputhandler.InputHandler) (input : string) :
  0 ≤ bukudb.ID (inputhandler.bookmark h) < 65536 →
  contiguous (inputhandler.db h) → count_ok (inputhandler.db h) →
  (inputhandler.HandleInput rt TrimSpace Error Start h input = None
   ↔ rofidata.State (rofi.Data (inputhandler.api h)) = rofidata.St_add_select
     ∧ TrimSpace input = "")
  ∧ ∀ h', inputhandler.HandleInput rt TrimSpace Error Start h input = Some h' →
      contiguous (inputhandler.db h') ∧ count_ok (inputhandler.db h')
      ∧ (writer_state (rofidata.State (rofi.Data (inputhandler.api h))) = false →
         inputhandler.db h' = inputhandler.db h)
      ∧ ∃ ms, (length ms ≤ 1)%nat ∧ Forall method_typed ms
              ∧ inputhandler.db h' = run_methods (inputhandler.db h) ms.
Proof.
  intros Hid Hcont Hc. split; [apply HandleInput_panics|].
  intros h' Hh'.
  destruct (HandleInput_calls _ _ _ _ _ _ _ Hid Hh') as (ms & Hlen & [Hms Hdb] & Hw).
  assert (Forall method_typed ms) as Hty.
  { eapply Forall_impl; [done|]. by intros m [? _]. }
  rewrite Hdb.
  destruct (run_methods_preserves ms (inputhandler.db h)) as [??]; [done..|].
  split; [done|]. split; [done|]. split.
  - intros Hst. by rewrite (Hw Hst).
  - by exists ms.
Qed.

(** X24.  The handlers never store an empty URL.  If no stored
    bookmark has an empty URL before [HandleInput], none has after:
    [handleAddSelect] refuses to add a bookmark without URL and
    [handleModifyUrlSelect] does not pass an empty input on. *)
Theorem HandleInput_keeps_urls_nonempty
    (rt : bukudb.Runtime) (TrimSpace : string → string)
    (Error : inputhandler.error → string)
    (Start : string → string → option string)
    (h h' : inputhandler.InputHandler) (input : string) :
  0 ≤ bukudb.ID (inputhandler.bookmark h) < 65536 →
  contiguous (inputhandler.db h) → count_ok (inputhandler.db h) →
  urls_nonempty (bukudb.conn (inputhandler.db h)) →
  inputhandler.HandleInput rt TrimSpace Error Start h input = Some h' →
  urls_nonempty (bukudb.conn (inputhandler.db h')).
Proof.
  intros Hid Hcont Hc Hne Hh'.
  destruct (HandleInput_calls _ _ _ _ _ _ _ Hid Hh') as (ms & Hlen & [Hms Hdb] & _).
  rewrite Hdb. destruct ms as [|m [|??]]; [done| |simpl in Hlen; lia].
  apply Forall_cons_1 in Hms as [[Hm Hu] _]. simpl.
  by apply invoke_urls_nonempty.
Qed.

(** X25.  Deleting through the handlers.  After an entry at position
    [k] is selected with the keybinding 3, the state asks for the
    confirmation; any answer but [yes] leaves the store as it is, and
    [yes] leaves the store [Remove(k + 1)] returns without error, one
    bookmark shorter, with the remaining bookmarks listed again. *)
Theorem delete_flow
    (rt : bukudb.Runtime) (Error : inputhandler.error → string)
    (Start : string → string → option string)
    (h : inputhandler.InputHandler) (k : nat) (e : rofi.Entry) (input : string) :
  runtime_ok rt → contiguous (inputhandler.db h) → count_ok (inputhandler.db h) →
  rofi.Entries (inputhandler.api (inputhandler.HandleBookmarksShow rt Error h)) !! k
  = Some e →
  let h2 := inputhandler.handleBookmarksSelect rt Error Start
              (inputhandler.HandleBookmarksShow rt Error h) (rofi.Text e)
              rofi.StateCustomKeybinding3 in
  let h3 := inputhandler.handleDeleteConfirmSelect rt Error h2 input in
  rofidata.State (rofi.Data (inputhandler.api h2)) = rofidata.St_delete_confirm_select
  ∧ (input ≠ "yes" → inputhandler.db h3 = inputhandler.db h)
  ∧ (input = "yes" →
     bukudb.Remove (inputhandler.db h) (Z.of_nat k + 1) = (inputhandler.db h3, None)
     ∧ bukudb.Len (inputhandler.db h3) = bukudb.Len (inputhandler.db h) - 1
     ∧ rofidata.State (rofi.Data (inputhandler.api h3))
       = rofidata.St_bookmarks_select
     ∧ length (rofi.Entries (inputhandler.api h3))
       = Z.to_nat (bukudb.Len (inputhandler.db h) - 1)).
Proof.
  intros Hrt Hcont Hc He h2 h3.
  destruct (listed_entries rt Error h Hrt Hcont Hc) as (Hdb & _ & _ & Hes).
  destruct (Hes k e He) as (Hget & Hrange & r & Hr & Hb).
  assert (h2 = inputhandler.handleDeleteConfirmShow
                 (inputhandler.set_bookmark
                    (inputhandler.HandleBookmarksShow rt Error h)
                    (bukudb.mkBookmark (Z.of_nat k + 1) (sql.URL r) (sql.metadata r)
                       (bukudb.get_tags (sql.tags r)) (sql.desc r)))) as Hh2.
  { unfold h2, inputhandler.handleBookmarksSelect. by rewrite Hget, Hdb, Hb. }
  assert (inputhandler.db h2 = inputhandler.db h) as Hdb2 by (by rewrite Hh2).
  assert (bukudb.ID (inputhandler.bookmark h2) = Z.of_nat k + 1) as Hid2
    by (by rewrite Hh2).
  split; [by rewrite Hh2|]. split.
  - intros Hno. unfold h3, inputhandler.handleDeleteConfirmSelect.
    apply String.eqb_neq in Hno. rewrite Hno, orb_true_r.
    by rewrite HandleBookmarksShow_db.
  - intros ->. unfold h3, inputhandler.handleDeleteConfirmSelect.
    change (String.eqb "yes" inputhandler.op_back || negb (String.eqb "yes" "yes"))
      with false. cbv iota.
    rewrite Hdb2, Hid2.
    destruct (Remove_in_range _ _ Hcont Hc Hrange) as (t' & Hrem & _).
    destruct (Remove_preserves (inputhandler.db h) (Z.of_nat k + 1)) as [Hcont' Hc'];
      [unfold count_ok, bukudb.MaxBookmarks in Hc; lia|done..|].
    rewrite Hrem in Hcont', Hc' |- *. simpl in Hcont', Hc'.
    set (h' := inputhandler.set_db h2 _).
    destruct (listed_entries rt Error h' Hrt Hcont' Hc') as (Hdb' & Hst' & Hlen' & _).
    rewrite Hdb', Hst', Hlen'. done.
Qed.

Lemma test_db_contiguous : contiguous test_db.
Proof. apply contiguous_dom. by vm_compute. Qed.

Lemma test_db_count_ok : count_ok test_db.
Proof. unfold count_ok, bukudb.MaxBookmarks. simpl. lia. Qed.

Lemma ParseBytes_Bytes_witness :
  rofidata.ParseBytes (rofidata.mkData (bukudb.mkBookmark 0 "" "" [] "") 0)
    (rofidata.Bytes (rofidata.mkData bookmark_b rofidata.St_modify_select))
  = Some (rofidata.mkData bookmark_b rofidata.St_modify_select, None).
Proof.
  refine (proj1 (ParseBytes_Bytes _
                   (rofidata.mkData bookmark_b rofidata.St_modify_select)
                   _ _ _ _ _ _) _ _).
  - simpl. lia.
  - simpl. unfold rofidata.St_modify_select. lia.
  - by vm_compute.
  - by vm_compute.
  - by repeat constructor.
  - by vm_compute.
  - done.
  - by repeat constructor.
Defined.

Lemma ParseBytes_normal_form_witness :
  let d' := rofidata.mkData (bukudb.mkBookmark 7 "u" "" ["a"; ""; "b"] "") 2 in
  rofidata.ParseBytes (rofidata.mkData bookmark_b 0)
    ("007" ++ rofidata.delim ++ "u" ++ rofidata.delim ++ rofidata.delim ++ "a,,b"
     ++ rofidata.delim ++ rofidata.delim ++ "2")
  = Some (d', None)
  ∧ rofidata.ParseBytes (rofidata.mkData bookmark_b 0) (rofidata.Bytes d')
    = Some (d', None).
Proof.
  intros d'. split; [by vm_compute|].
  refine (proj2 (proj2 (proj2 (proj2
    (ParseBytes_normal_form _ (rofidata.mkData bookmark_b 0) d'
       ("007" ++ rofidata.delim ++ "u" ++ rofidata.delim ++ rofidata.delim ++ "a,,b"
        ++ rofidata.delim ++ rofidata.delim ++ "2") _))))).
  by vm_compute.
Defined.

Lemma selecting_a_listed_entry_witness :
  let h1 := inputhandler.HandleBookmarksShow (in_order 3) (λ _, "error")
              (test_handler rofidata.St_bookmarks_show (bukudb.mkBookmark 0 "" "" [] "")) in
  rofi.Entries (inputhandler.api h1) !! 1%nat
  = Some (rofi.mkEntry "0002. metadata (title) b" "b tag2 tag3")
  ∧ inputhandler.bookmark
      (inputhandler.handleBookmarksSelect (in_order 3) (λ _, "error") (λ _ _, None)
         h1 "0002. metadata (title) b" rofi.StateCustomKeybinding2)
    = bookmark_b.
Proof.
  intros h1. split; [by vm_compute|].
  pose proof (selecting_a_listed_entry (in_order 3) (λ _, "error") (λ _ _, None)
                (test_handler rofidata.St_bookmarks_show (bukudb.mkBookmark 0 "" "" [] "")))
    as H.
  destruct H as (_ & _ & _ & H).
  - apply in_order_ok. lia.
  - apply test_db_contiguous.
  - apply test_db_count_ok.
  - destruct (H 1%nat (rofi.mkEntry "0002. metadata (title) b" "b tag2 tag3")
                rofi.StateCustomKeybinding2) as [_ Hb]; [by vm_compute|done|done|].
    exact (f_equal (λ x : bukudb.error + bukudb.Bookmark,
                      match x with inr b => b | inl _ => bookmark_b end)
                   (eq_sym Hb)).
Defined.

Lemma modify_keeps_in_sync_witness :
  let h := test_handler rofidata.St_modify_tags_select bookmark_b in
  in_sync h
  ∧ inputhandler.bookmark
      (inputhandler.handleModifyTagsSelect (λ s, s) (λ _, "error") h "+x,a")
    = bukudb.mkBookmark 2 "https://www.b.com" "metadata (title) b"
                        ["a"; "b"; "tag2"; "tag3"; "x"] ""
  ∧ in_sync (inputhandler.handleModifyTagsSelect (λ s, s) (λ _, "error") h "+x,a").
Proof.
  intros h. split; [by vm_compute|]. split; [by vm_compute|].
  refine (proj2 (proj2 (proj2 (modify_keeps_in_sync (λ s, s) (λ _, "error") h "+x,a" _ _)))).
  - by vm_compute.
  - intros _. split.
    + by repeat constructor.
    + apply NoDup_cons. split; [|apply NoDup_singleton].
      intros H%list_elem_of_In. by destruct H as [?|[]].
Defined.

Lemma HandleInput_one_call_witness :
  let h := test_handler rofidata.St_modify_title_select bookmark_b in
  ∃ h', inputhandler.HandleInput (in_order 3) (λ s, s) (λ _, "error") (λ _ _, None)
          h "new title" = Some h'
        ∧ inputhandler.db h'
          = run_methods test_db [MUpdateTitle 2 "new title"]
        ∧ contiguous (inputhandler.db h').
Proof.
  intros h. eexists. split; [reflexivity|]. split; [reflexivity|].
  refine (proj1 (proj2 (HandleInput_one_call (in_order 3) (λ s, s) (λ _, "error")
                          (λ _ _, None) h "new title" _ _ _) _ _)).
  - simpl. lia.
  - apply test_db_contiguous.
  - apply test_db_count_ok.
  - reflexivity.
Defined.

Lemma test_db_rows k r :
  bukudb.conn test_db !! k = Some r →
  (k = 1 ∧ sql.URL r = "https://www.a.com") ∨ (k = 2 ∧ sql.URL r = "https://www.b.com")
  ∨ (k = 3 ∧ sql.URL r = "https://www.c.com")
  ∨ (k = 4 ∧ sql.URL r = "https://www.d.com").
Proof.
  intros H. apply elem_of_map_to_list in H. vm_compute in H.
  repeat (apply elem_of_cons in H as [H|H]; [simplify_eq; tauto|]).
  by apply not_elem_of_nil in H.
Qed.

Lemma test_db_urls_nonempty : urls_nonempty (bukudb.conn test_db).
Proof.
  intros id r H%test_db_rows.
  by destruct H as [[_ ->]|[[_ ->]|[[_ ->]|[_ ->]]]].
Qed.

Lemma HandleInput_keeps_urls_nonempty_witness :
  let h := test_handler rofidata.St_modify_url_select bookmark_b in
  let h' := inputhandler.handleModifyUrlSelect (λ _, "error") h "https://www.e.com" in
  bukudb.Get (inputhandler.db h') 2
  = inr (bukudb.mkBookmark 2 "https://www.e.com" "metadata (title) b"
                           ["b"; "tag2"; "tag3"] "")
  ∧ urls_nonempty (bukudb.conn (inputhandler.db h')).
Proof.
  intros h h'. split; [by vm_compute|].
  apply (HandleInput_keeps_urls_nonempty (in_order 3) (λ s, s) (λ _, "error")
           (λ _ _, None) h h' "https://www.e.com").
  - simpl. lia.
  - apply test_db_contiguous.
  - apply test_db_count_ok.
  - apply test_db_urls_nonempty.
  - reflexivity.
Defined.

Lemma delete_flow_witness :
  let h := test_handler rofidata.St_bookmarks_show (bukudb.mkBookmark 0 "" "" [] "") in
  let h2 := inputhandler.handleBookmarksSelect (in_order 3) (λ _, "error") (λ _ _, None)
              (inputhandler.HandleBookmarksShow (in_order 3) (λ _, "error") h)
              "0002. metadata (title) b" rofi.StateCustomKeybinding3 in
  let h3 := inputhandler.handleDeleteConfirmSelect (in_order 3) (λ _, "error") h2 "yes" in
  bukudb.Remove test_db 2 = (inputhandler.db h3, None)
  ∧ bukudb.Len (inputhandler.db h3) = 3
  ∧ length (rofi.Entries (inputhandler.api h3)) = 3%nat.
Proof.
  intros h h2 h3.
  pose proof (delete_flow (in_order 3) (λ _, "error") (λ _ _, None) h 1%nat
                (rofi.mkEntry "0002. metadata (title) b" "b tag2 tag3") "yes") as H.
  destruct H as (_ & _ & H).
  - apply in_order_ok. lia.
  - apply test_db_contiguous.
  - apply test_db_count_ok.
  - by vm_compute.
  - destruct (H eq_refl) as (Hrem & Hlen & _ & Hes).
    split; [exact Hrem|]. split; [exact Hlen|exact Hes].
Defined.

Section add_flow_facts.
Import bukudb.

(** [Add] stores a bookmark with a new URL while there is room. *)
Lemma Add_succeeds db b :
  contiguous db → count_ok db → len db < MaxBookmarks → ¬ url_stored db (URL b) →
  Add db b
  = (mkBukuDB (<[len db + 1 :=
                  sql.mkRow (URL b) (Title b) (strings.Join (Tags b) ",")
                            (Comment b) 0]> (conn db))
              (len db + 1), None).
Proof.
  unfold count_ok, MaxBookmarks. intros Hcont Hc Hroom Hnew. unfold Add.
  rewrite uint16_small by lia. unfold MaxBookmarks.
  rewrite (uint16_small 1000) by lia.
  rewrite bool_decide_eq_false_2 by lia.
  unfold sql.insert.
  destruct (conn db !! (len db + 1)) as [r|] eqn:Hr.
  { assert (is_Some (conn db !! (len db + 1))) as Hs by done.
    apply Hcont in Hs. lia. }
  simpl. destruct (sql.url_taken (conn db) None (URL b)) eqn:Ht; [|done].
  exfalso. apply Hnew. apply url_taken_true in Ht as (id & r & ? & _ & ?).
  by exists id, r.
Qed.
End add_flow_facts.

(** X26.  Adding through the handlers.  With room in the store, a URL
    entered in [handleAddUrlSelect] that is not empty, not one of the two
    listed options and not yet stored is stored by the confirmation in
    [handleAddSelect] under the id [Len() + 1], together with the title,
    tags and comment of [in.api.Data.Bookmark]; the other bookmarks are
    unchanged and the bookmarks are listed again. *)
Theorem add_flow
    (rt : bukudb.Runtime) (Error : inputhandler.error → string)
    (h : inputhandler.InputHandler) (url : string) :
  runtime_ok rt → contiguous (inputhandler.db h) → count_ok (inputhandler.db h) →
  bukudb.Len (inputhandler.db h) < bukudb.MaxBookmarks →
  url ≠ "" → url ≠ inputhandler.op_back → url ≠ inputhandler.op_delete →
  ¬ url_stored (inputhandler.db h) url →
  ∃ h2, inputhandler.handleAddSelect rt Error (inputhandler.handleAddUrlSelect h url)
          inputhandler.op_confirm = Some h2
    ∧ bukudb.Len (inputhandler.db h2) = bukudb.Len (inputhandler.db h) + 1
    ∧ bukudb.Get (inputhandler.db h2) (bukudb.Len (inputhandler.db h) + 1)
      = inr (bukudb.mkBookmark (bukudb.Len (inputhandler.db h) + 1) url
               (bukudb.Title (inputhandler.bookmark h))
               (bukudb.get_tags
                  (strings.Join (bukudb.Tags (inputhandler.bookmark h)) ","))
               (bukudb.Comment (inputhandler.bookmark h)))
    ∧ (∀ id, 1 ≤ id ≤ bukudb.Len (inputhandler.db h) →
         bukudb.Get (inputhandler.db h2) id = bukudb.Get (inputhandler.db h) id)
    ∧ rofidata.State (rofi.Data (inputhandler.api h2)) = rofidata.St_bookmarks_select
    ∧ length (rofi.Entries (inputhandler.api h2))
      = Z.to_nat (bukudb.Len (inputhandler.db h) + 1).
Proof.
  intros Hrt Hcont Hc Hroom Hne Hback Hdel Hnew.
  unfold inputhandler.handleAddUrlSelect.
  apply String.eqb_neq in Hback as Hback', Hdel as Hdel'. rewrite Hback', Hdel'.
  set (h1 := inputhandler.handleAddShow (inputhandler.set_url h url)).
  unfold inputhandler.handleAddSelect.
  change (String.eqb inputhandler.op_confirm inputhandler.op_back) with false.
  change (String.eqb inputhandler.op_confirm inputhandler.op_confirm) with true.
  cbv iota.
  change (bukudb.URL (inputhandler.bookmark h1)) with url.
  apply String.eqb_neq in Hne as Hne'. rewrite Hne'.
  change (inputhandler.db h1) with (inputhandler.db h).
  rewrite Add_succeeds; [|done..].
  set (d := bukudb.mkBukuDB _ _).
  assert (contiguous d ∧ count_ok d) as [Hcont' Hc'].
  { pose proof (Add_preserves (inputhandler.db h) (inputhandler.bookmark h1) Hcont Hc)
      as Hp.
    by rewrite Add_succeeds in Hp. }
  destruct (listed_entries rt Error (inputhandler.set_db h1 d) Hrt Hcont' Hc')
    as (Hdb & Hst & Hlen & _).
  eexists. split; [reflexivity|]. rewrite Hdb, Hst, Hlen.
  unfold count_ok, bukudb.MaxBookmarks in *.
  split; [done|]. split; [|split; [|done]].
  - subst d. unfold bukudb.Len in *.
    erewrite Get_in_range; [|simpl; lia|simpl; lia|apply lookup_insert_eq].
    reflexivity.
  - intros id Hid. unfold bukudb.Len in *.
    destruct (proj2 (Hcont id) Hid) as [r Hr].
    rewrite (Get_in_range (inputhandler.db h) id r) by (done || lia).
    apply Get_in_range; [subst d; simpl; lia|lia|].
    subst d. simpl. by rewrite lookup_insert_ne by lia.
Qed.

Lemma add_flow_witness :
  let h := test_handler rofidata.St_add_url_select
             (bukudb.mkBookmark 0 "" "title e" ["e"] "") in
  ∃ h2, inputhandler.handleAddSelect (in_order 3) (λ _, "error")
          (inputhandler.handleAddUrlSelect h "https://www.e.com")
          inputhandler.op_confirm = Some h2
    ∧ bukudb.Get (inputhandler.db h2) 5
      = inr (bukudb.mkBookmark 5 "https://www.e.com" "title e" ["e"] "").
Proof.
  intros h.
  destruct (add_flow (in_order 3) (λ _, "error") h "https://www.e.com")
    as (h2 & Hh2 & _ & Hget & _).
  - apply in_order_ok. lia.
  - apply test_db_contiguous.
  - apply test_db_count_ok.
  - by vm_compute.
  - done.
  - done.
  - done.
  - intros (id & r & Hr & Hurl). apply test_db_rows in Hr.
    destruct Hr as [[_ Hu]|[[_ Hu]|[[_ Hu]|[_ Hu]]]]; rewrite Hu in Hurl; discriminate.
  - exists h2. split; [exact Hh2|exact Hget].
Defined.
